(** * Inspection report editor: issue draft, photo uploads, saves and the
      map-photo endpoint

    A shallow embedding of [src/pages/field/report/[id].tsx] (the issue draft
    of the report page, its photo-upload handlers, image compression, the
    issue save and the report delete) and of [src/pages/api/map-photo.ts]
    (the HTTP handler), with the properties stated about them.

    JavaScript values are embedded as follows.
    - [number] is an IEEE-754 binary64 value: Rocq's primitive [float], so
      [NaN], the infinities and rounding are those of the source.
    - [string] is [string]; an array is a [list]; an array slot that may be
      without a value is an [option]: [None] is a hole, as an assignment past
      the end of the array leaves behind, or [undefined].
    - [useState] cells are fields of a state record, and a functional updater
      [setX(prev => ...)] is a function on the previous value; a handler that
      sets a cell from the variable of its render, [setX({ ...x, ... })],
      starts from the value of that render. *)

From Stdlib Require Import Floats ZArith Lia Bool String List.
From stdpp Require Import base list.
Import ListNotations.

Set Warnings "-inexact-float".
Local Open Scope string_scope.

(** ** JavaScript numbers and truthiness *)

Module JS.

(** [typeof x === "number"] values. *)
Definition number := float.

(** [!!s] for a string: the empty string is the only falsy one. *)
Definition truthy_string (s : string) : bool := negb (String.eqb s "").

(** [!!x] for a value that is a string or [undefined]. *)
Definition truthy_ostring (o : option string) : bool :=
  match o with Some s => truthy_string s | None => false end.

(** [!!x] for a number: [0], [-0] and [NaN] are falsy. *)
Definition truthy_number (x : number) : bool :=
  negb (PrimFloat.is_zero x || PrimFloat.is_nan x).

(** [x || d] on numbers. *)
Definition or_number (x d : number) : number :=
  if truthy_number x then x else d.

(** [x > 0] and [x <= 0]; both are [false] on [NaN]. *)
Definition gt0 (x : number) : bool := (0 <? x)%float.
Definition le0 (x : number) : bool := (x <=? 0)%float.

(** [x > 0] where [x] may be [undefined] ([undefined] converts to [NaN]). *)
Definition ogt0 (o : option number) : bool :=
  match o with Some x => gt0 x | None => false end.

(** [a !== b] where [a] may be [undefined] and [b] is a string. *)
Definition strict_ne (a : option string) (b : string) : bool :=
  match a with Some s => negb (String.eqb s b) | None => true end.

(** [arr[i]]: [undefined] past the end of the array and on a slot without
    a value. *)
Definition index {A} (arr : list (option A)) (i : nat) : option A :=
  match arr !! i with Some (Some v) => Some v | _ => None end.

(** [arr[i] = v] on a copy of [arr]: inside the array the slot is replaced,
    past the end the array grows and the skipped slots are holes. *)
Definition assign {A} (arr : list (option A)) (i : nat) (v : A)
  : list (option A) :=
  if (i <? length arr)%nat then <[i := Some v]> arr
  else arr ++ replicate (i - length arr) None ++ [Some v].

End JS.

(** ** The issue draft ([IssueFormData]) *)

Inductive IssueCase := case1 | case2.

Module Case1Data.
Record t := mk {
  sub_item_id : string;
  quantity : JS.number;
  unit_price : JS.number;
  photos : list (option string)
}.
End Case1Data.

(** An entry of [case2Data.items]. The declared type has every field present;
    a field is [None] only in the entry that a write past the end of the array
    creates from [{...undefined, photo}]. *)
Module Case2Item.
Record t := mk {
  sub_item_id : option string;
  quantity : option JS.number;
  unit_price : option JS.number;
  photo : option string
}.
End Case2Item.

(** [case2Data]. The entries the page itself makes are all present; a slot
    is [None] only between the end of the array and an entry written past
    it. *)
Record Case2Data := { items : list (option Case2Item.t) }.

Record IssueFormData := {
  caseType : IssueCase;
  main_item_id : string;
  notes : string;
  case1Data : Case1Data.t;
  case2Data : Case2Data
}.

(** ** [validateIssue] *)

(** The [alert] a failed validation shows, in the order of the checks. *)
Inductive ValidationAlert :=
| AlertMainItem | AlertSubItem | AlertPhotos | AlertQuantity | AlertPrice
| AlertItems.

(** [(item) => item.sub_item_id && item.photo && item.quantity > 0 &&
    item.unit_price > 0]. *)
Definition valid_item (item : Case2Item.t) : bool :=
  JS.truthy_ostring (Case2Item.sub_item_id item)
  && JS.truthy_ostring (Case2Item.photo item)
  && JS.ogt0 (Case2Item.quantity item)
  && JS.ogt0 (Case2Item.unit_price item).

(** [arr.filter(f)]: the callback is not called on a hole. *)
Definition filter_holes {A} (f : A -> bool) (arr : list (option A)) : list A :=
  List.filter f (omap id arr).

(** [photos.filter((p) => p)]. *)
Definition nonempty_photos (photos : list (option string)) : list string :=
  filter_holes JS.truthy_string photos.

Definition validItems (d : IssueFormData) : list Case2Item.t :=
  filter_holes valid_item (items (case2Data d)).

(** The body of [validateIssue]: the alert of the first failing check. *)
Definition validate_run (d : IssueFormData) : option ValidationAlert :=
  if negb (JS.truthy_string (main_item_id d)) then Some AlertMainItem
  else match caseType d with
       | case1 =>
           let c := case1Data d in
           if negb (JS.truthy_string (Case1Data.sub_item_id c))
           then Some AlertSubItem
           else if negb (length (nonempty_photos (Case1Data.photos c)) =? 3)%nat
           then Some AlertPhotos
           else if JS.le0 (Case1Data.quantity c) then Some AlertQuantity
           else if JS.le0 (Case1Data.unit_price c) then Some AlertPrice
           else None
       | case2 =>
           if negb (length (validItems d) =? 3)%nat then Some AlertItems
           else None
       end.

Definition validateIssue (d : IssueFormData) : bool :=
  match validate_run d with None => true | Some _ => false end.

(** *** The validity conditions in the words of the specification *)

Definition nonempty (s : string) : Prop := s <> "".

(** "main item set AND sub item set AND exactly 3 non-empty photos AND
    quantity>0 AND price>0". *)
Definition case1_valid_spec (d : IssueFormData) : Prop :=
  nonempty (main_item_id d)
  /\ nonempty (Case1Data.sub_item_id (case1Data d))
  /\ length (nonempty_photos (Case1Data.photos (case1Data d))) = 3%nat
  /\ JS.gt0 (Case1Data.quantity (case1Data d)) = true
  /\ JS.gt0 (Case1Data.unit_price (case1Data d)) = true.


(** ** The form handlers that write the draft *)

(** The template of [useState] and [resetIssueForm]. *)
Definition emptyItem : Case2Item.t :=
  Case2Item.mk (Some "") (Some 1%float) (Some 0%float) (Some "").

Definition emptyDraft : IssueFormData :=
  {| caseType := case1;
     main_item_id := "";
     notes := "";
     case1Data := Case1Data.mk "" 1%float 0%float [];
     case2Data := {| items := [Some emptyItem; Some emptyItem; Some emptyItem] |} |}.

(** Record updates [{ ...prev, field: v }]. *)
Definition with_main_item_id (d : IssueFormData) (v : string) : IssueFormData :=
  {| caseType := caseType d; main_item_id := v; notes := notes d;
     case1Data := case1Data d; case2Data := case2Data d |}.

Definition with_caseType (d : IssueFormData) (c : IssueCase) : IssueFormData :=
  {| caseType := c; main_item_id := main_item_id d; notes := notes d;
     case1Data := case1Data d; case2Data := case2Data d |}.

Definition with_notes (d : IssueFormData) (v : string) : IssueFormData :=
  {| caseType := caseType d; main_item_id := main_item_id d; notes := v;
     case1Data := case1Data d; case2Data := case2Data d |}.

Definition with_case1Data (d : IssueFormData) (c : Case1Data.t) : IssueFormData :=
  {| caseType := caseType d; main_item_id := main_item_id d; notes := notes d;
     case1Data := c; case2Data := case2Data d |}.

Definition with_items (d : IssueFormData) (l : list (option Case2Item.t))
  : IssueFormData :=
  {| caseType := caseType d; main_item_id := main_item_id d; notes := notes d;
     case1Data := case1Data d; case2Data := {| items := l |} |}.

Definition with_photos (c : Case1Data.t) (l : list (option string)) : Case1Data.t :=
  Case1Data.mk (Case1Data.sub_item_id c) (Case1Data.quantity c)
               (Case1Data.unit_price c) l.

Definition with_photo (item : Case2Item.t) (v : string) : Case2Item.t :=
  Case2Item.mk (Case2Item.sub_item_id item) (Case2Item.quantity item)
               (Case2Item.unit_price item) (Some v).

(** [{ ...newItems[itemIndex], photo: v }]: spreading [undefined] gives an
    object with the [photo] field only. *)
Definition spread_with_photo (o : option Case2Item.t) (v : string) : Case2Item.t :=
  match o with
  | Some item => with_photo item v
  | None => Case2Item.mk None None None (Some v)
  end.

(** [prev.case2Data.items[itemIndex]?.photo]. *)
Definition item_photo (l : list (option Case2Item.t)) (itemIndex : nat)
  : option string :=
  match JS.index l itemIndex with
  | Some item => Case2Item.photo item
  | None => None
  end.

(** *** The three updaters of [currentIssue] in [handleCase1PhotoUpload] *)

Module handleCase1PhotoUpload.

(** [newPhotos[index] = v] on a copy of [prev.case1Data.photos]. *)
Definition write (prev : IssueFormData) (index : nat) (v : string)
  : IssueFormData :=
  with_case1Data prev
    (with_photos (case1Data prev)
       (JS.assign (Case1Data.photos (case1Data prev)) index v)).

(** Before the upload: the slot shows the local preview. *)
Definition start (index : nat) (previewUrl : string) (prev : IssueFormData)
  : IssueFormData := write prev index previewUrl.

(** [if (prev.case1Data.photos[index] !== previewUrl) return prev;]
    followed by the write of [v]. *)
Definition guarded (index : nat) (previewUrl v : string) (prev : IssueFormData)
  : IssueFormData :=
  if JS.strict_ne (JS.index (Case1Data.photos (case1Data prev)) index) previewUrl
  then prev
  else write prev index v.

(** After [uploadPhoto] resolved with [photoUrl]. *)
Definition success (index : nat) (previewUrl photoUrl : string) :=
  guarded index previewUrl photoUrl.

(** In the [catch] block. *)
Definition failure (index : nat) (previewUrl : string) :=
  guarded index previewUrl "".

End handleCase1PhotoUpload.

(** *** The three updaters of [currentIssue] in [handleCase2PhotoUpload] *)

Module handleCase2PhotoUpload.

(** [newItems[itemIndex] = { ...newItems[itemIndex], photo: v }] on a copy
    of [prev.case2Data.items]. *)
Definition write (prev : IssueFormData) (itemIndex : nat) (v : string)
  : IssueFormData :=
  let l := items (case2Data prev) in
  with_items prev
    (JS.assign l itemIndex (spread_with_photo (JS.index l itemIndex) v)).

Definition start (itemIndex : nat) (previewUrl : string) (prev : IssueFormData)
  : IssueFormData := write prev itemIndex previewUrl.

(** [if (prev.case2Data.items[itemIndex]?.photo !== previewUrl) return prev;]
    followed by the write of [v]. *)
Definition guarded (itemIndex : nat) (previewUrl v : string)
    (prev : IssueFormData) : IssueFormData :=
  if JS.strict_ne (item_photo (items (case2Data prev)) itemIndex) previewUrl
  then prev
  else write prev itemIndex v.

Definition success (itemIndex : nat) (previewUrl photoUrl : string) :=
  guarded itemIndex previewUrl photoUrl.

Definition failure (itemIndex : nat) (previewUrl : string) :=
  guarded itemIndex previewUrl "".

End handleCase2PhotoUpload.

(** *** The pending-uploads counter *)

(** [pendingUploads] counts open uploads, far below 2^53 where [number]
    arithmetic on integers is exact: it is an integer here. *)

(** [(count) => count + 1]. *)
Definition incrementPending (count : Z) : Z := (count + 1)%Z.

(** [(count) => Math.max(0, count - 1)]. *)
Definition decrementPending (count : Z) : Z := Z.max 0 (count - 1).

Inductive CounterUpdate := Increment | Decrement.

Definition apply_update (count : Z) (u : CounterUpdate) : Z :=
  match u with
  | Increment => incrementPending count
  | Decrement => decrementPending count
  end.

(** *** Catalogue prices and persisted issues *)

Module SubItem.
Record t := mk { id : string; unit_price : JS.number }.
End SubItem.

(** [subItems.find((s) => s.id === subItemId)?.unit_price || 0]; the
    identifier is [undefined] for an entry without [sub_item_id]. *)
Definition getSubItemPrice (subItems : list SubItem.t) (subItemId : option string)
  : JS.number :=
  match subItemId with
  | None => 0%float
  | Some v =>
      match List.find (fun s => String.eqb (SubItem.id s) v) subItems with
      | Some s => JS.or_number (SubItem.unit_price s) 0%float
      | None => 0%float
      end
  end.

(** Modelled from the spec: the [Issue] type of [@/types], whose declaration is
    not among the sources. "Issue: one recorded defect within a Report. Fields:
    id, report reference, main-item reference, free-text notes, a issue_type
    discriminator"; an IssueItem is a "quantity + unit price snapshot for one
    SubItem" with the joined SubItem for the price fallback, an IssuePhoto "a
    stored object URL". The fields are those [openEditIssueDialog] reads. *)
Module Issue.
Record Item := mkItem {
  sub_item_id : string;
  quantity : JS.number;
  unit_price : option JS.number;         (* null when not set *)
  sub_items_unit_price : option JS.number (* [sub_items?.unit_price] *)
}.
Record t := mk {
  id : string;
  issue_type : string;
  main_item_id : string;
  notes : option string;
  issue_items : list Item;
  issue_photos : list string             (* the [photo_url]s *)
}.
End Issue.

(** [item?.unit_price ?? item?.sub_items?.unit_price ?? 0]. *)
Definition hydrate_price (item : option Issue.Item) : JS.number :=
  match item with
  | None => 0%float
  | Some it =>
      match Issue.unit_price it with
      | Some x => x
      | None => match Issue.sub_items_unit_price it with
                | Some y => y
                | None => 0%float
                end
      end
  end.

(** [item?.sub_item_id || ""] and [item?.quantity || 1]. *)
Definition hydrate_sub_item_id (item : option Issue.Item) : string :=
  match item with Some it => Issue.sub_item_id it | None => "" end.

Definition hydrate_quantity (item : option Issue.Item) : JS.number :=
  match item with
  | Some it => JS.or_number (Issue.quantity it) 1%float
  | None => 1%float
  end.

(** [photos[idx] || ""]. *)
Definition hydrate_photo (photos : list string) (idx : nat) : string :=
  match photos !! idx with Some u => u | None => "" end.

(** The draft [openEditIssueDialog] builds from a persisted issue. *)
Definition hydrate (issue : Issue.t) : IssueFormData :=
  let form_caseType :=
    if String.eqb (Issue.issue_type issue) "single" then case1 else case2 in
  let form :=
    {| caseType := form_caseType;
       main_item_id := Issue.main_item_id issue;
       notes := match Issue.notes issue with Some n => n | None => "" end;
       case1Data := case1Data emptyDraft;
       case2Data := case2Data emptyDraft |} in
  let rows := Issue.issue_items issue in
  let photos := Issue.issue_photos issue in
  match form_caseType with
  | case1 =>
      let item := rows !! 0%nat in
      with_case1Data form
        (Case1Data.mk (hydrate_sub_item_id item) (hydrate_quantity item)
           (hydrate_price item)
           [Some (hydrate_photo photos 0); Some (hydrate_photo photos 1);
            Some (hydrate_photo photos 2)])
  | case2 =>
      with_items form
        (List.map (fun idx =>
             Some (Case2Item.mk (Some (hydrate_sub_item_id (rows !! idx)))
                     (Some (hydrate_quantity (rows !! idx)))
                     (Some (hydrate_price (rows !! idx)))
                     (Some (hydrate_photo photos idx))))
           [0; 1; 2]%nat)
  end.

(** *** The field editors of the dialog *)

(** The case-1 editors: sub-item select (which also takes the catalogue
    price), quantity [parseInt(value) || 1], unit price
    [parseFloat(value) || 0]. *)
Definition setCase1SubItem (subItems : list SubItem.t) (v : string)
    (d : IssueFormData) : IssueFormData :=
  let c := case1Data d in
  with_case1Data d
    (Case1Data.mk v (Case1Data.quantity c) (getSubItemPrice subItems (Some v))
       (Case1Data.photos c)).

Definition setCase1Quantity (parsed : JS.number) (d : IssueFormData)
  : IssueFormData :=
  let c := case1Data d in
  with_case1Data d
    (Case1Data.mk (Case1Data.sub_item_id c) (JS.or_number parsed 1%float)
       (Case1Data.unit_price c) (Case1Data.photos c)).

Definition setCase1UnitPrice (parsed : JS.number) (d : IssueFormData)
  : IssueFormData :=
  let c := case1Data d in
  with_case1Data d
    (Case1Data.mk (Case1Data.sub_item_id c) (Case1Data.quantity c)
       (JS.or_number parsed 0%float) (Case1Data.photos c)).

(** The case-2 editors assign to fields of [newItems[itemIndex]], the entry
    object shared with the previous state; without an entry at [itemIndex] the
    assignment throws and no state is set. *)
Definition editItem (itemIndex : nat) (f : Case2Item.t -> Case2Item.t)
    (d : IssueFormData) : IssueFormData :=
  let l := items (case2Data d) in
  match JS.index l itemIndex with
  | Some item => with_items d (<[itemIndex := Some (f item)]> l)
  | None => d
  end.

Definition setCase2SubItem (subItems : list SubItem.t) (itemIndex : nat)
    (v : string) : IssueFormData -> IssueFormData :=
  editItem itemIndex (fun item =>
    Case2Item.mk (Some v) (Case2Item.quantity item)
      (Some (getSubItemPrice subItems (Some v))) (Case2Item.photo item)).

Definition setCase2Quantity (itemIndex : nat) (parsed : JS.number)
  : IssueFormData -> IssueFormData :=
  editItem itemIndex (fun item =>
    Case2Item.mk (Case2Item.sub_item_id item) (Some (JS.or_number parsed 1%float))
      (Case2Item.unit_price item) (Case2Item.photo item)).

Definition setCase2UnitPrice (itemIndex : nat) (parsed : JS.number)
  : IssueFormData -> IssueFormData :=
  editItem itemIndex (fun item =>
    Case2Item.mk (Case2Item.sub_item_id item) (Case2Item.quantity item)
      (Some (JS.or_number parsed 0%float)) (Case2Item.photo item)).

(** ** The page as a state machine *)

Inductive DialogMode := create | edit.

(** Which slot an upload was started for. *)
Inductive Slot :=
| Case1Photo (index : nat)
| Case2Photo (itemIndex : nat).

(** A run of [handleCase1PhotoUpload] or [handleCase2PhotoUpload] that is
    suspended at [await uploadPhoto(file)], with the variables it closes over. *)
Record Upload := { slot : Slot; previewUrl : string }.

(** The [useState] cells the handlers below read and write, and the handler
    runs that wait for their upload. The handlers of the dialog are closures
    of the render that created them: [renderedIssue] and [renderedSubItems]
    are the [currentIssue] and the [subItems] of the last render, which those
    handlers read. *)
Record Page := {
  currentIssue : IssueFormData;
  issueDialogMode : DialogMode;
  editingIssueId : option string;
  subItems : list SubItem.t;
  pendingUploads : Z;
  awaiting : list Upload;
  renderedIssue : IssueFormData;
  renderedSubItems : list SubItem.t
}.

Definition initialPage : Page :=
  {| currentIssue := emptyDraft;
     issueDialogMode := create;
     editingIssueId := None;
     subItems := [];
     pendingUploads := 0;
     awaiting := [];
     renderedIssue := emptyDraft;
     renderedSubItems := [] |}.

(** [setCurrentIssue((prev) => f(prev))]: the updater runs on the cell. *)
Definition setCurrentIssue (f : IssueFormData -> IssueFormData) (p : Page) : Page :=
  {| currentIssue := f (currentIssue p);
     issueDialogMode := issueDialogMode p;
     editingIssueId := editingIssueId p;
     subItems := subItems p;
     pendingUploads := pendingUploads p;
     awaiting := awaiting p;
     renderedIssue := renderedIssue p;
     renderedSubItems := renderedSubItems p |}.

(** [setCurrentIssue({ ...currentIssue, ... })], as the editors of the dialog
    call it: [currentIssue] is the variable of the render that created the
    handler, so the new draft is made from the draft of the last render and
    replaces the cell. *)
Definition editCurrentIssue (f : IssueFormData -> IssueFormData) (p : Page) : Page :=
  setCurrentIssue (fun _ => f (renderedIssue p)) p.

Definition setPendingUploads (f : Z -> Z) (p : Page) : Page :=
  {| currentIssue := currentIssue p;
     issueDialogMode := issueDialogMode p;
     editingIssueId := editingIssueId p;
     subItems := subItems p;
     pendingUploads := f (pendingUploads p);
     awaiting := awaiting p;
     renderedIssue := renderedIssue p;
     renderedSubItems := renderedSubItems p |}.

Definition setAwaiting (l : list Upload) (p : Page) : Page :=
  {| currentIssue := currentIssue p;
     issueDialogMode := issueDialogMode p;
     editingIssueId := editingIssueId p;
     subItems := subItems p;
     pendingUploads := pendingUploads p;
     awaiting := l;
     renderedIssue := renderedIssue p;
     renderedSubItems := renderedSubItems p |}.

(** [resetIssueForm]. *)
Definition resetIssueForm (p : Page) : Page :=
  {| currentIssue := emptyDraft;
     issueDialogMode := issueDialogMode p;
     editingIssueId := None;
     subItems := subItems p;
     pendingUploads := pendingUploads p;
     awaiting := awaiting p;
     renderedIssue := renderedIssue p;
     renderedSubItems := renderedSubItems p |}.

(** [openAddIssueDialog]. *)
Definition openAddIssueDialog (p : Page) : Page :=
  {| currentIssue := emptyDraft;
     issueDialogMode := create;
     editingIssueId := None;
     subItems := subItems p;
     pendingUploads := pendingUploads p;
     awaiting := awaiting p;
     renderedIssue := renderedIssue p;
     renderedSubItems := renderedSubItems p |}.

(** [openEditIssueDialog(issue)]. *)
Definition openEditIssueDialog (issue : Issue.t) (p : Page) : Page :=
  {| currentIssue := hydrate issue;
     issueDialogMode := edit;
     editingIssueId := Some (Issue.id issue);
     subItems := subItems p;
     pendingUploads := pendingUploads p;
     awaiting := awaiting p;
     renderedIssue := renderedIssue p;
     renderedSubItems := renderedSubItems p |}.

(** [loadItems], when the catalogue was fetched. *)
Definition setSubItems (l : list SubItem.t) (p : Page) : Page :=
  {| currentIssue := currentIssue p;
     issueDialogMode := issueDialogMode p;
     editingIssueId := editingIssueId p;
     subItems := l;
     pendingUploads := pendingUploads p;
     awaiting := awaiting p;
     renderedIssue := renderedIssue p;
     renderedSubItems := renderedSubItems p |}.

(** A render: the handlers it creates hold the cells as they are now. *)
Definition render (p : Page) : Page :=
  {| currentIssue := currentIssue p;
     issueDialogMode := issueDialogMode p;
     editingIssueId := editingIssueId p;
     subItems := subItems p;
     pendingUploads := pendingUploads p;
     awaiting := awaiting p;
     renderedIssue := currentIssue p;
     renderedSubItems := subItems p |}.

(** The part of an upload handler before its [await], run when a file was
    chosen: the preview is shown, the counter incremented, and the handler
    waits. [previewUrl] is what [URL.createObjectURL(file)] returned. *)
Definition startUpload (s : Slot) (url : string) (p : Page) : Page :=
  let shown :=
    match s with
    | Case1Photo index => setCurrentIssue (handleCase1PhotoUpload.start index url) p
    | Case2Photo itemIndex => setCurrentIssue (handleCase2PhotoUpload.start itemIndex url) p
    end in
  let counted := setPendingUploads incrementPending shown in
  setAwaiting (awaiting counted ++ [{| slot := s; previewUrl := url |}]) counted.

(** The updater of the [try] block ([Some photoUrl]: [uploadPhoto] resolved)
    or of the [catch] block ([None]: it threw). *)
Definition settleDraft (u : Upload) (result : option string)
  : IssueFormData -> IssueFormData :=
  match slot u, result with
  | Case1Photo index, Some photoUrl =>
      handleCase1PhotoUpload.success index (previewUrl u) photoUrl
  | Case1Photo index, None => handleCase1PhotoUpload.failure index (previewUrl u)
  | Case2Photo itemIndex, Some photoUrl =>
      handleCase2PhotoUpload.success itemIndex (previewUrl u) photoUrl
  | Case2Photo itemIndex, None => handleCase2PhotoUpload.failure itemIndex (previewUrl u)
  end.

(** The part of an upload handler after its [await]: the [try] or [catch]
    updater, then the [finally] block. It runs without interruption. *)
Definition resume (u : Upload) (result : option string) (p : Page) : Page :=
  setPendingUploads decrementPending (setCurrentIssue (settleDraft u result) p).

(** The [k]-th waiting handler resumes; it waits no longer. *)
Definition settleUpload (k : nat) (result : option string) (p : Page) : Page :=
  match awaiting p !! k with
  | Some u => resume u result (setAwaiting (delete k (awaiting p)) p)
  | None => p
  end.

(** What can happen to the page. The editors carry the value the control
    reports ([parsed] is the result of [parseInt] or [parseFloat] on the text
    of the input).

    An event of the user (a click, an edit, a chosen file) is handled by the
    handler of the last render, and the cells it sets are rendered before the
    next event is handled. What a continuation sets after an [await] (a
    settled upload, the loaded catalogue, the reset at the end of a save) is
    rendered later, at [Rendered]; an event of the user that comes before is
    still handled by the handlers of the render before. *)
Inductive Event :=
| ItemsLoaded (l : list SubItem.t)
| AddIssueClicked
| EditIssueClicked (issue : Issue.t)
| FormReset
| MainItemSelected (v : string)
| CaseTypeSelected (c : IssueCase)
| NotesTyped (v : string)
| Case1SubItemSelected (v : string)
| Case1QuantityTyped (parsed : JS.number)
| Case1UnitPriceTyped (parsed : JS.number)
| Case2SubItemSelected (itemIndex : nat) (v : string)
| Case2QuantityTyped (itemIndex : nat) (parsed : JS.number)
| Case2UnitPriceTyped (itemIndex : nat) (parsed : JS.number)
| FileChosen (s : Slot) (url : string)
| UploadSettled (k : nat) (result : option string)
| Rendered.

(** The handler of an event, without the render that may follow. *)
Definition handle (p : Page) (e : Event) : Page :=
  match e with
  | ItemsLoaded l => setSubItems l p
  | AddIssueClicked => openAddIssueDialog p
  | EditIssueClicked issue => openEditIssueDialog issue p
  | FormReset => resetIssueForm p
  | MainItemSelected v => editCurrentIssue (fun d => with_main_item_id d v) p
  | CaseTypeSelected c => editCurrentIssue (fun d => with_caseType d c) p
  | NotesTyped v => editCurrentIssue (fun d => with_notes d v) p
  | Case1SubItemSelected v =>
      editCurrentIssue (setCase1SubItem (renderedSubItems p) v) p
  | Case1QuantityTyped x => editCurrentIssue (setCase1Quantity x) p
  | Case1UnitPriceTyped x => editCurrentIssue (setCase1UnitPrice x) p
  | Case2SubItemSelected i v =>
      editCurrentIssue (setCase2SubItem (renderedSubItems p) i v) p
  | Case2QuantityTyped i x => editCurrentIssue (setCase2Quantity i x) p
  | Case2UnitPriceTyped i x => editCurrentIssue (setCase2UnitPrice i x) p
  | FileChosen s url => startUpload s url p
  | UploadSettled k result => settleUpload k result p
  | Rendered => p
  end.

(** The events whose updates are rendered only later: those of a
    continuation after an [await]. *)
Definition deferred (e : Event) : bool :=
  match e with
  | ItemsLoaded _ | FormReset | UploadSettled _ _ => true
  | _ => false
  end.

Definition step (p : Page) (e : Event) : Page :=
  if deferred e then handle p e else render (handle p e).

Definition run (p : Page) (events : list Event) : Page :=
  fold_left step events p.

(** The controls the dialog renders: three file inputs for case 1
    ([[0, 1, 2].map]) and one card per entry of the [case2Data.items] of the
    rendered draft ([items.map((item, itemIndex) => ...)]). *)
Definition rendered (p : Page) (e : Event) : bool :=
  let cards := length (items (case2Data (renderedIssue p))) in
  match e with
  | FileChosen (Case1Photo index) _ => (index <? 3)%nat
  | FileChosen (Case2Photo itemIndex) _ => (itemIndex <? cards)%nat
  | Case2SubItemSelected itemIndex _ => (itemIndex <? cards)%nat
  | Case2QuantityTyped itemIndex _ => (itemIndex <? cards)%nat
  | Case2UnitPriceTyped itemIndex _ => (itemIndex <? cards)%nat
  | _ => true
  end.

(** Every event of the sequence comes from a rendered control. *)
Fixpoint from_form (p : Page) (events : list Event) : bool :=
  match events with
  | [] => true
  | e :: rest => rendered p e && from_form (step p e) rest
  end.

(** ** [compressImage] *)

Module File.
Record t := mk { size : JS.number; name : string; type : string }.
End File.

(** How a call completes: with a value, or by throwing (for an [async]
    function: the promise is fulfilled or rejected). *)
Inductive Completion (A : Type) :=
| Returns (a : A)
| Throws.
Arguments Returns {A} a.
Arguments Throws {A}.

(** The browser facilities [compressImage] calls. *)
Record Browser := {
  (* [typeof window !== "undefined" && typeof window.Image !== "undefined"] *)
  hasImage : bool;
  (* loading the file into an [Image]: [onload] with its width and height, or
     [onerror] *)
  decode : File.t -> option (JS.number * JS.number);
  (* [canvas.getContext("2d")] is not null *)
  hasContext : bool;
  (* [canvas.toBlob(cb, "image/jpeg", quality)] on the canvas of the given
     width and height: the size of the blob, or a null blob *)
  toBlob : JS.number -> JS.number -> JS.number -> option JS.number;
  (* [`${Date.now()}.jpg`] *)
  stamp : string
}.

Definition initialQuality : JS.number := 0.72%float.
Definition qualityStep : JS.number := 0.08%float.
Definition qualityFloor : JS.number := 0.58%float.

(** The longer edge is brought down to [maxDimension]. *)
Definition fit (width height maxDimension : JS.number) : JS.number * JS.number :=
  if (height <? width)%float && (maxDimension <? width)%float
  then (maxDimension, (height * maxDimension / width)%float)
  else if (width <=? height)%float && (maxDimension <? height)%float
  then ((width * maxDimension / height)%float, maxDimension)
  else (width, height).

(** How the quality loop ends; [attempts] are the qualities it encoded at, in
    order. *)
Inductive Encoding :=
| Encoded (quality size : JS.number) (attempts : list JS.number)
| EncodeFailed (attempts : list JS.number)
| OutOfFuel.

(** [while (blob.size > targetBytes && quality > 0.58)
      { quality -= 0.08; blob = await toBlob(quality); }]
    One unit of fuel per evaluation of the loop condition. *)
Fixpoint lowerQuality (fuel : nat) (encode : JS.number -> option JS.number)
    (targetBytes quality size : JS.number) (attempts : list JS.number)
  : Encoding :=
  match fuel with
  | O => OutOfFuel
  | S fuel' =>
      if (targetBytes <? size)%float && (qualityFloor <? quality)%float
      then
        let quality' := (quality - qualityStep)%float in
        match encode quality' with
        | None => EncodeFailed (attempts ++ [quality'])
        | Some size' =>
            lowerQuality fuel' encode targetBytes quality' size'
              (attempts ++ [quality'])
        end
      else Encoded quality size attempts
  end.

(** [compressImage(file, maxDimension, targetSizeKb)]: how the call completes
    and the qualities passed to [toBlob], in order; [None] when the fuel does
    not suffice. *)
Definition compressImage (fuel : nat) (w : Browser) (file : File.t)
    (maxDimension targetSizeKb : JS.number)
  : option (Completion File.t * list JS.number) :=
  if negb (hasImage w) then Some (Returns file, [])
  else
    let targetBytes := (targetSizeKb * 1024)%float in
    if (File.size file <=? targetBytes)%float then Some (Returns file, [])
    else
      match decode w file with
      | None => Some (Throws, [])
      | Some (width0, height0) =>
          let '(width, height) := fit width0 height0 maxDimension in
          if negb (hasContext w) then Some (Throws, [])
          else
            match toBlob w width height initialQuality with
            | None => Some (Throws, [initialQuality])
            | Some size0 =>
                match lowerQuality fuel (toBlob w width height) targetBytes
                        initialQuality size0 [] with
                | Encoded _ size attempts =>
                    Some (Returns (File.mk size (stamp w) "image/jpeg"),
                          initialQuality :: attempts)
                | EncodeFailed attempts =>
                    Some (Throws, initialQuality :: attempts)
                | OutOfFuel => None
                end
            end
      end.

(** The defaults [maxDimension = 1400] and [targetSizeKb = 900], as
    [uploadPhoto] calls it. *)
Definition compressImageDefault (fuel : nat) (w : Browser) (file : File.t) :=
  compressImage fuel w file 1400%float 900%float.

(** ** The store and [handleSaveIssue] *)

(** The tables the page writes through the store client. The client is an
    external service; what is modelled is its contract: [insert] adds the rows
    of the payload, [delete().eq(col, v)] and [delete().in(col, vs)] remove
    the rows whose column matches, and a request that fails changes nothing
    and reports an error object that the page does not look at. *)

Module ItemRow.
Record t := mk {
  issue_id : string;
  sub_item_id : option string;
  quantity : option JS.number;
  unit_price : JS.number
}.
End ItemRow.

Module PhotoRow.
Record t := mk { issue_id : string; photo_url : option string }.
End PhotoRow.

Module IssueRow.
Record t := mk {
  id : string;
  report_id : string;
  main_item_id : string;
  notes : string;
  issue_type : string
}.
End IssueRow.

Record Store := {
  report_issues : list IssueRow.t;
  issue_items : list ItemRow.t;
  issue_photos : list PhotoRow.t
}.

Definition with_issue_items (st : Store) (l : list ItemRow.t) : Store :=
  {| report_issues := report_issues st; issue_items := l;
     issue_photos := issue_photos st |}.

Definition with_issue_photos (st : Store) (l : list PhotoRow.t) : Store :=
  {| report_issues := report_issues st; issue_items := issue_items st;
     issue_photos := l |}.

Definition with_report_issues (st : Store) (l : list IssueRow.t) : Store :=
  {| report_issues := l; issue_items := issue_items st;
     issue_photos := issue_photos st |}.

(** [supabase.from("issue_items").delete().eq("issue_id", v)], and the same on
    ["issue_photos"]. *)
Definition deleteItemsOf (v : string) (st : Store) : Store :=
  with_issue_items st
    (List.filter (fun r => negb (String.eqb (ItemRow.issue_id r) v))
       (issue_items st)).

Definition deletePhotosOf (v : string) (st : Store) : Store :=
  with_issue_photos st
    (List.filter (fun r => negb (String.eqb (PhotoRow.issue_id r) v))
       (issue_photos st)).

(** The rows a payload carries. The payload is the array [map] returns: it
    has one element per slot of the array it was made from, and where that
    array has a hole so has the payload, which is sent as a null element and
    is no row. *)
Definition rowsOf {A} (payload : list (option A)) : list A := omap id payload.

(** [supabase.from("issue_items").insert(payload)], and the same on
    ["issue_photos"]. *)
Definition insertItems (payload : list (option ItemRow.t)) (st : Store) : Store :=
  with_issue_items st (issue_items st ++ rowsOf payload).

Definition insertPhotos (payload : list (option PhotoRow.t)) (st : Store) : Store :=
  with_issue_photos st (issue_photos st ++ rowsOf payload).

(** Modelled from the spec: [issueService.updateIssue], whose source is not
    among the files. "Save-issue (edit): update the Issue row": the row of
    that id takes the fields of the update, no other table is touched. *)
Definition updateIssue (v : string) (data : IssueRow.t) (st : Store) : Store :=
  with_report_issues st
    (List.map (fun r => if String.eqb (IssueRow.id r) v then data else r)
       (report_issues st)).

(** Modelled from the spec: [issueService.createIssue], whose source is not
    among the files. "Save-issue (create): insert Issue row": the row is added
    under the identifier the store gives it. *)
Definition createIssue (data : IssueRow.t) (st : Store) : Store :=
  with_report_issues st (report_issues st ++ [data]).

(** A request applied when it succeeds, skipped when it fails. *)
Definition request (ok : bool) (f : Store -> Store) (st : Store) : Store :=
  if ok then f st else st.

(** [issue_type: currentIssue.caseType === "case1" ? "single" : "multiple"]. *)
Definition issueTypeOf (c : IssueCase) : string :=
  match c with case1 => "single" | case2 => "multiple" end.

(** [unit_price || getSubItemPrice(sub_item_id)] for an entry of case 2. *)
Definition priceOrCatalogue (subs : list SubItem.t) (item : Case2Item.t)
  : JS.number :=
  let fallback := getSubItemPrice subs (Case2Item.sub_item_id item) in
  match Case2Item.unit_price item with
  | Some x => JS.or_number x fallback
  | None => fallback
  end.

(** The payload of the [issue_items] insert: the one row of case 1, or
    [items.map((item) => ({ ... }))], one element per slot of
    [case2Data.items]. *)
Definition itemRows (subs : list SubItem.t) (issueId : string)
    (d : IssueFormData) : list (option ItemRow.t) :=
  match caseType d with
  | case1 =>
      let c := case1Data d in
      [Some (ItemRow.mk issueId (Some (Case1Data.sub_item_id c))
               (Some (Case1Data.quantity c))
               (JS.or_number (Case1Data.unit_price c)
                  (getSubItemPrice subs (Some (Case1Data.sub_item_id c)))))]
  | case2 =>
      List.map
        (option_map (fun item =>
           ItemRow.mk issueId (Case2Item.sub_item_id item)
             (Case2Item.quantity item) (priceOrCatalogue subs item)))
        (items (case2Data d))
  end.

(** The payload of the [issue_photos] insert: [photos.map((photoUrl) =>
    ({ ... }))], one element per photo slot of case 1, or [items.map((item) =>
    ({ ... }))], one element per slot of [case2Data.items]. *)
Definition photoRows (issueId : string) (d : IssueFormData)
  : list (option PhotoRow.t) :=
  match caseType d with
  | case1 =>
      List.map (option_map (fun photoUrl => PhotoRow.mk issueId (Some photoUrl)))
        (Case1Data.photos (case1Data d))
  | case2 =>
      List.map (option_map (fun item => PhotoRow.mk issueId (Case2Item.photo item)))
        (items (case2Data d))
  end.

(** Which requests of a save succeed. [created] is the identifier of the row
    [createIssue] returns ([None]: it returned null); the two service calls
    throw when they fail, the four client requests do not. *)
Record SaveOutcome := {
  created : Completion (option string);
  updateOk : bool;
  deleteItemsOk : bool;
  deletePhotosOk : bool;
  insertItemsOk : bool;
  insertPhotosOk : bool
}.

(** "a successful edit-save": every request of the save went through. *)
Definition allSucceed (o : SaveOutcome) : bool :=
  updateOk o && deleteItemsOk o && deletePhotosOk o && insertItemsOk o
  && insertPhotosOk o.

Inductive SaveResult :=
| NotStarted                       (* one of the first guards returned *)
| WaitForUploads                   (* [pendingUploads > 0] *)
| Invalid (a : ValidationAlert)    (* [validateIssue] returned false *)
| SaveFailed                       (* the [catch] block *)
| Saved.

(** The edit branch: update the row, delete the children, insert the rows of
    the draft. *)
Definition saveEdited (o : SaveOutcome) (subs : list SubItem.t)
    (reportId issueId : string) (d : IssueFormData) (st : Store)
  : Store * SaveResult :=
  if negb (updateOk o) then (st, SaveFailed)
  else
    let st1 :=
      updateIssue issueId
        (IssueRow.mk issueId reportId (main_item_id d) (notes d)
           (issueTypeOf (caseType d))) st in
    let st2 := request (deleteItemsOk o) (deleteItemsOf issueId) st1 in
    let st3 := request (deletePhotosOk o) (deletePhotosOf issueId) st2 in
    let st4 := request (insertItemsOk o) (insertItems (itemRows subs issueId d)) st3 in
    let st5 := request (insertPhotosOk o) (insertPhotos (photoRows issueId d)) st4 in
    (st5, Saved).

(** The create branch: insert the row, then the rows of the draft under the
    new identifier. *)
Definition saveCreated (o : SaveOutcome) (subs : list SubItem.t)
    (reportId : string) (d : IssueFormData) (st : Store) : Store * SaveResult :=
  match created o with
  | Throws => (st, SaveFailed)
  | Returns None => (st, Saved)
  | Returns (Some issueId) =>
      let st1 :=
        createIssue
          (IssueRow.mk issueId reportId (main_item_id d) (notes d)
             (issueTypeOf (caseType d))) st in
      let st2 := request (insertItemsOk o) (insertItems (itemRows subs issueId d)) st1 in
      let st3 := request (insertPhotosOk o) (insertPhotos (photoRows issueId d)) st2 in
      (st3, Saved)
  end.

(** [handleSaveIssue]. [isSavingIssue] is the flag of a save in progress and
    [reportId] the loaded report ([None]: no report, or no [id] in the route).
    The handler is a closure of a render and reads the variables of that
    render: [p] is the page with the cells as they were then, that is, after
    the events up to that render. *)
Definition handleSaveIssue (isSavingIssue : bool) (reportId : option string)
    (o : SaveOutcome) (p : Page) (st : Store) : Store * SaveResult :=
  if isSavingIssue then (st, NotStarted)
  else match reportId with
  | None => (st, NotStarted)
  | Some rid =>
      if (0 <? pendingUploads p)%Z then (st, WaitForUploads)
      else match validate_run (currentIssue p) with
      | Some a => (st, Invalid a)
      | None =>
          match issueDialogMode p, editingIssueId p with
          | create, _ => saveCreated o (subItems p) rid (currentIssue p) st
          | edit, Some issueId =>
              if JS.truthy_string issueId
              then saveEdited o (subItems p) rid issueId (currentIssue p) st
              else (st, Saved)
          | edit, None => (st, Saved)
          end
      end
  end.

(** The rows of an issue in the two child tables. *)
Definition itemsOf (issueId : string) (st : Store) : list ItemRow.t :=
  List.filter (fun r => String.eqb (ItemRow.issue_id r) issueId) (issue_items st).

Definition photosOf (issueId : string) (st : Store) : list PhotoRow.t :=
  List.filter (fun r => String.eqb (PhotoRow.issue_id r) issueId) (issue_photos st).

(** "the active variant's fixed cardinality (1+3 for case1, 3+3 for case2)". *)
Definition cardinality (c : IssueCase) : nat * nat :=
  match c with case1 => (1, 3)%nat | case2 => (3, 3)%nat end.

(** ** [handleDeleteReport] *)

(** The mutations the page sends to the store when a report is deleted. *)
Inductive Mutation :=
| DeleteIn (table column : string) (values : list string)
    (* [supabase.from(table).delete().in(column, values)] *)
| DeleteReport (id : string).
    (* [reportService.deleteReport(id)] *)

(** The awaited calls of the [try] block run in order until one throws;
    [throws m] tells whether the call of [m] does. Returns the mutations sent
    and whether all went through. *)
Fixpoint send (throws : Mutation -> bool) (plan : list Mutation)
  : list Mutation * bool :=
  match plan with
  | [] => ([], true)
  | m :: rest =>
      if throws m then ([m], false)
      else let '(sent, ok) := send throws rest in (m :: sent, ok)
  end.

(** The calls of the [try] block for the issues loaded with the report. *)
Definition deletePlan (id : string) (issueIds : list string) : list Mutation :=
  (if (0 <? length issueIds)%nat
   then [DeleteIn "issue_items" "issue_id" issueIds;
         DeleteIn "issue_photos" "issue_id" issueIds;
         DeleteIn "report_issues" "id" issueIds]
   else [])
  ++ [DeleteReport id].

Inductive DeleteResult :=
| DeleteNotStarted       (* no [id], or the user did not confirm *)
| DeleteFailed           (* the [catch] block *)
| Deleted.               (* toast, then [router.push("/dashboard")] *)

(** [handleDeleteReport]. [id] is the route parameter when it is a string,
    [confirmed] the answer to [window.confirm], [report_issue_ids] the
    identifiers [(report?.report_issues || []).map((issue) => issue.id)]. *)
Definition handleDeleteReport (id : option string) (confirmed : bool)
    (report_issue_ids : list string) (throws : Mutation -> bool)
  : list Mutation * DeleteResult :=
  match id with
  | None => ([], DeleteNotStarted)
  | Some v =>
      if negb (JS.truthy_string v) then ([], DeleteNotStarted)
      else if negb confirmed then ([], DeleteNotStarted)
      else
        let '(sent, ok) := send throws (deletePlan v report_issue_ids) in
        (sent, if ok then Deleted else DeleteFailed)
  end.

(** What a mutation removes: rows of the children of issues, issues, the
    report. *)
Inductive Target := ChildRows | IssueRows | ReportRow | OtherRows.

Definition target (m : Mutation) : Target :=
  match m with
  | DeleteReport _ => ReportRow
  | DeleteIn table _ _ =>
      if String.eqb table "issue_items" || String.eqb table "issue_photos"
      then ChildRows
      else if String.eqb table "report_issues" then IssueRows
      else OtherRows
  end.

(** [a] comes before [b] in the dependency order children, issues, report. *)
Definition depends (a b : Target) : bool :=
  match a, b with
  | ChildRows, IssueRows | ChildRows, ReportRow | IssueRows, ReportRow => true
  | _, _ => false
  end.

(** ** The map-photo endpoint ([pages/api/map-photo.ts]) *)

Module MapPhoto.

(** What was thrown: an [Error] with its message, or something else. *)
Inductive Thrown := ErrorThrown (message : string) | OtherThrown.

Inductive Result (A : Type) := Ok (a : A) | Raised (t : Thrown).
Arguments Ok {A} a.
Arguments Raised {A} t.

(** A value of the parsed request body. [VObject] stands for every object
    and array: truthy, and of a type other than string and number. What an
    object gives when it is converted to a string is [text]: the string (as
    ["[object Object]"]), or the [TypeError] thrown for an object whose
    [toString] and [valueOf] give no primitive, as [{"toString": 1}]. *)
Inductive Value :=
| VUndefined
| VNull
| VBool (b : bool)
| VNumber (x : JS.number)
| VString (s : string)
| VObject (text : Result string).

Definition truthy (v : Value) : bool :=
  match v with
  | VUndefined | VNull => false
  | VBool b => b
  | VNumber x => JS.truthy_number x
  | VString s => JS.truthy_string s
  | VObject _ => true
  end.

(** [a || b]. *)
Definition or (a b : Value) : Value := if truthy a then a else b.

(** [typeof v === "number"]. *)
Definition is_number (v : Value) : bool :=
  match v with VNumber _ => true | _ => false end.

(** [Number.isNaN(v)]: false on everything that is not a number. *)
Definition isNaN (v : Value) : bool :=
  match v with VNumber x => PrimFloat.is_nan x | _ => false end.

(** The request: its method and the five fields read from
    [req.body || {}]; a field the body does not have is [VUndefined]. *)
Record Request := {
  method : option string;
  lat : Value;
  lng : Value;
  reportId : Value;
  targetId : Value;
  targetType : Value
}.

(** The key sources of [config/mapPhoto.ts] and of the handler. The constant
    [GMAPS_KEY] of [mapPhoto.local], which is not among the sources, is
    [local_key]. *)
Record Keys := {
  local_key : option string;
  env_GMAPS_KEY : option string;
  env_NEXT_PUBLIC_GMAPS_KEY : option string
}.

(** [a || b] where both may be [undefined]. *)
Definition or_key (a b : option string) : option string :=
  if JS.truthy_ostring a then a else b.

(** [mapPhotoConfig.gmapsKey]. *)
Definition gmapsKey (k : Keys) : option string :=
  or_key (or_key (or_key (local_key k) (env_GMAPS_KEY k))
            (env_NEXT_PUBLIC_GMAPS_KEY k)) (Some "").

(** [mapPhotoConfig.gmapsKey || process.env.GMAPS_KEY]. *)
Definition apiKey (k : Keys) : option string :=
  or_key (gmapsKey k) (env_GMAPS_KEY k).

(** The provider's response; [ok] is the Fetch flag of a status in the
    range 200-299. *)
Record MapResponse := {
  status : Z;
  statusText : string;
  text : Result string;
  arrayBuffer : Result string
}.

Definition ok (r : MapResponse) : bool :=
  ((200 <=? status r) && (status r <=? 299))%Z.

(** The world outside the handler: the keys, the provider behind [fetch],
    the object storage. [upload] gives the [error] field of the result
    ([None]: no error). *)
Record World := {
  keys : Keys;
  fetch : string -> Result MapResponse;
  upload : string -> string -> Result (option string);
  getPublicUrl : string -> string
}.

Inductive Body :=
| ErrorBody (error : string)
| SuccessBody (url path : string).

Record Response := {
  code : Z;
  allow : option string;   (* the [Allow] header *)
  body : Body
}.

Definition respond (c : Z) (b : Body) : Response :=
  {| code := c; allow := None; body := b |}.

(** [/[^a-zA-Z0-9_-]/] does not match the character. *)
Definition safe_char (c : Ascii.ascii) : bool :=
  let n := Ascii.nat_of_ascii c in
  ((97 <=? n) && (n <=? 122) || (65 <=? n) && (n <=? 90)
   || (48 <=? n) && (n <=? 57) || (n =? 95) || (n =? 45))%nat.

(** [s.replace(/[^a-zA-Z0-9_-]/g, "")]. *)
Fixpoint strip (s : string) : string :=
  match s with
  | EmptyString => EmptyString
  | String c rest => if safe_char c then String c (strip rest) else strip rest
  end.

(** The text of the two template literals around their values. *)
Definition staticMapUrl (latitude longitude key : string) : string :=
  "https://maps.googleapis.com/maps/api/staticmap?center="
  ++ latitude ++ "," ++ longitude
  ++ "&zoom=17&size=800x600&maptype=satellite&key=" ++ key.

Definition photoPath (safeType identifier : string) : string :=
  "map-photos/" ++ safeType ++ "-" ++ identifier ++ ".jpg".

Section Handler.

(** Conversions of the language: [parseFloat], and the text a status code
    or a number has inside a template literal. *)
Variable parseFloat : string -> JS.number.
Variable show_status : Z -> string.
Variable show_number : JS.number -> string.

(** [`${v}`]: the conversion of a value inside a template literal. Only the
    conversion of an object can throw. *)
Definition template (v : Value) : Result string :=
  match v with
  | VUndefined => Ok "undefined"
  | VNull => Ok "null"
  | VBool b => Ok (if b then "true" else "false")
  | VNumber x => Ok (show_number x)
  | VString s => Ok s
  | VObject text => text
  end.

(** [typeof v === "string" ? parseFloat(v) : v]. *)
Definition coordinate (v : Value) : Value :=
  match v with VString s => VNumber (parseFloat s) | _ => v end.

Definition resolvedId (r : Request) : Value := or (targetId r) (reportId r).

Definition resolvedType (r : Request) : string :=
  match targetType r with
  | VString s =>
      if (0 <? String.length s)%nat then s
      else if truthy (reportId r) then "report" else "mosque"
  | _ => if truthy (reportId r) then "report" else "mosque"
  end.

(** The condition of the 400 answer. *)
Definition rejected (r : Request) : bool :=
  negb (is_number (coordinate (lat r)))
  || negb (is_number (coordinate (lng r)))
  || negb (truthy (resolvedId r))
  || isNaN (coordinate (lat r))
  || isNaN (coordinate (lng r)).

(** [`https://...?center=${latNum},${lngNum}&...&key=${apiKey}`]. *)
Definition mapUrl (r : Request) (key : string) : Result string :=
  match template (coordinate (lat r)) with
  | Raised t => Raised t
  | Ok latitude =>
      match template (coordinate (lng r)) with
      | Raised t => Raised t
      | Ok longitude => Ok (staticMapUrl latitude longitude key)
      end
  end.

(** [resolvedType.replace(/[^a-zA-Z0-9_-]/g, "") || "map"]. *)
Definition safeType (r : Request) : string :=
  let stripped := strip (resolvedType r) in
  if JS.truthy_string stripped then stripped else "map".

(** [`map-photos/${safeType}-${resolvedId}.jpg`]: the conversion of
    [resolvedId] throws for an object without a primitive value. *)
Definition storagePath (r : Request) : Result string :=
  match template (resolvedId r) with
  | Raised t => Raised t
  | Ok identifier => Ok (photoPath (safeType r) identifier)
  end.

(** The [catch] block. *)
Definition unexpected (t : Thrown) : Response :=
  respond 500
    (ErrorBody match t with
               | ErrorThrown message => message
               | OtherThrown => "Unexpected server error"
               end).

(** The [try] block. *)
Definition fetchAndStore (w : World) (r : Request) (key : string) : Response :=
  match mapUrl r key with
  | Raised t => unexpected t
  | Ok url =>
      match fetch w url with
      | Raised t => unexpected t
      | Ok mapResponse =>
          if negb (ok mapResponse) then
            match text mapResponse with
            | Raised t => unexpected t
            | Ok txt =>
                respond 502
                  (ErrorBody ("Failed to fetch static map from Google: "
                              ++ show_status (status mapResponse) ++ " "
                              ++ statusText mapResponse ++ " " ++ txt))
            end
          else
            match arrayBuffer mapResponse with
            | Raised t => unexpected t
            | Ok buffer =>
                match storagePath r with
                | Raised t => unexpected t
                | Ok path =>
                    match upload w path buffer with
                    | Raised t => unexpected t
                    | Ok (Some message) => respond 500 (ErrorBody message)
                    | Ok None =>
                        respond 200 (SuccessBody (getPublicUrl w path) path)
                    end
                end
            end
      end
  end.

Definition handler (w : World) (r : Request) : Response :=
  if negb (match method r with Some m => String.eqb m "POST" | None => false end)
  then {| code := 405; allow := Some "POST";
          body := ErrorBody "Method not allowed" |}
  else
    match apiKey (keys w) with
    | Some key =>
        if negb (JS.truthy_string key)
        then respond 500
               (ErrorBody "GMAPS_KEY is missing in environment variables")
        else if rejected r
        then respond 400
               (ErrorBody "lat, lng (number) and targetId are required")
        else fetchAndStore w r key
    | None =>
        respond 500
          (ErrorBody "GMAPS_KEY is missing in environment variables")
    end.

(** "an API key is configured". *)
Definition configured (w : World) : bool := JS.truthy_ostring (apiKey (keys w)).

End Handler.

End MapPhoto.

(** ** Specification-side definitions and sample values *)

(** Drafts for the examples: case 1 with the given numbers and photos, case 2
    with the given main item and entries. *)
Definition draft_c1 (quantity unit_price : JS.number)
    (photos : list (option string)) : IssueFormData :=
  {| caseType := case1; main_item_id := "m1"; notes := "";
     case1Data := Case1Data.mk "s1" quantity unit_price photos;
     case2Data := case2Data emptyDraft |}.

Definition fullItem (s u : string) : option Case2Item.t :=
  Some (Case2Item.mk (Some s) (Some 2%float) (Some 50%float) (Some u)).

Definition draft_c2 (main : string) (l : list (option Case2Item.t))
  : IssueFormData :=
  {| caseType := case2; main_item_id := main; notes := "";
     case1Data := case1Data emptyDraft; case2Data := {| items := l |} |}.

Definition four_entries : IssueFormData :=
  draft_c2 "m1" [fullItem "s1" "u1"; Some emptyItem; fullItem "s2" "u2";
                 fullItem "s3" "u3"].

(** A browser whose encoder gives 2 MB at every quality, and two files: one
    of exactly the default target size, one above it. *)

Definition camera : Browser :=
  {| hasImage := true;
     decode := fun _ => Some (4000%float, 3000%float);
     hasContext := true;
     toBlob := fun _ _ _ => Some 2000000%float;
     stamp := "1700000000000.jpg" |}.

Definition small_photo : File.t := File.mk 921600%float "a.png" "image/png".
Definition large_photo : File.t := File.mk 5000000%float "b.png" "image/png".

(** The qualities a finished loop encoded at. *)
Definition attempts_of (e : Encoding) : option (list JS.number) :=
  match e with
  | Encoded _ _ attempts => Some attempts
  | EncodeFailed attempts => Some attempts
  | OutOfFuel => None
  end.

(** What a slot of the draft holds: [photos[index]] or
    [items[itemIndex]?.photo]. *)
Definition held (d : IssueFormData) (s : Slot) : option string :=
  match s with
  | Case1Photo index => JS.index (Case1Data.photos (case1Data d)) index
  | Case2Photo itemIndex => item_photo (items (case2Data d)) itemIndex
  end.

(** The draft with the one slot replaced and nothing else changed. *)
Definition replaced (d : IssueFormData) (s : Slot) (v : string) : IssueFormData :=
  match s with
  | Case1Photo index =>
      with_case1Data d
        (with_photos (case1Data d)
           (<[index := Some v]> (Case1Data.photos (case1Data d))))
  | Case2Photo itemIndex =>
      match JS.index (items (case2Data d)) itemIndex with
      | Some item =>
          with_items d
            (<[itemIndex := Some (with_photo item v)]> (items (case2Data d)))
      | None => d
      end
  end.

(** What a settled upload writes: the remote URL, or the empty string after a
    failure. *)
Definition settledValue (result : option string) : string :=
  match result with Some photoUrl => photoUrl | None => "" end.

(** The draft the dialog edits always has three entries in [items] and at
    most three photo slots. *)
Definition formShape (d : IssueFormData) : Prop :=
  length (items (case2Data d)) = 3%nat
  /\ (length (Case1Data.photos (case1Data d)) <= 3)%nat.

(** Two persisted issues, one of each type. *)
Definition persisted_single : Issue.t :=
  Issue.mk "i1" "single" "m1" None
    [Issue.mkItem "s1" 2%float (Some 50%float) None]
    ["u1"; "u2"; "u3"].

Definition persisted_multiple : Issue.t :=
  Issue.mk "i2" "multiple" "m1" (Some "cracks")
    [Issue.mkItem "s1" 2%float (Some 50%float) None;
     Issue.mkItem "s2" 1%float None (Some 30%float);
     Issue.mkItem "s3" 4%float (Some 10%float) None]
    ["u1"; "u2"; "u3"].

(** A store with rows of earlier saves of the issues [i1] and [i2]. *)
Definition used_store : Store :=
  {| report_issues :=
       [IssueRow.mk "i1" "r1" "m1" "" "multiple";
        IssueRow.mk "i2" "r1" "m1" "" "multiple"];
     issue_items :=
       [ItemRow.mk "i1" (Some "s7") (Some 1%float) 5%float;
        ItemRow.mk "i2" (Some "s8") (Some 1%float) 5%float;
        ItemRow.mk "i1" (Some "s9") (Some 1%float) 5%float;
        ItemRow.mk "i1" (Some "s9") (Some 3%float) 5%float];
     issue_photos :=
       [PhotoRow.mk "i1" (Some "old1"); PhotoRow.mk "i2" (Some "old2");
        PhotoRow.mk "i1" (Some "old3"); PhotoRow.mk "i1" (Some "old4")] |}.

(** Every request of the save succeeds. *)
Definition all_fine : SaveOutcome :=
  {| created := Returns (Some "i9"); updateOk := true; deleteItemsOk := true;
     deletePhotosOk := true; insertItemsOk := true; insertPhotosOk := true |}.

(** The words of the specification about a request of the map-photo
    endpoint, over the fields of the request. *)
Module MapPhotoSpec.

(** "the resolved latitude or longitude": a number as it is, a string as
    [parseFloat] reads it; nothing else resolves to a number. *)
Definition resolved (parseFloat : string -> JS.number) (v : MapPhoto.Value)
  : option JS.number :=
  match v with
  | MapPhoto.VNumber x => Some x
  | MapPhoto.VString s => Some (parseFloat s)
  | _ => None
  end.

(** "is not a number, is NaN". *)
Definition bad_coordinate (parseFloat : string -> JS.number) (v : MapPhoto.Value)
  : bool :=
  match resolved parseFloat v with
  | Some x => PrimFloat.is_nan x
  | None => true
  end.

(** The identifier that "resolves from targetId or reportId": [targetId]
    when it is truthy, else [reportId] when that is truthy, else none. *)
Definition identifier (r : MapPhoto.Request) : option MapPhoto.Value :=
  if MapPhoto.truthy (MapPhoto.targetId r) then Some (MapPhoto.targetId r)
  else if MapPhoto.truthy (MapPhoto.reportId r) then Some (MapPhoto.reportId r)
  else None.

End MapPhotoSpec.

(** A world for examples: the key is configured, the provider answers 200
    and the storage accepts the image. *)
Definition sample_parseFloat (s : string) : JS.number :=
  if String.eqb s "24.71" then 24.71%float
  else if String.eqb s "46.67" then 46.67%float
  else PrimFloat.nan.

Definition sample_show_number (x : JS.number) : string :=
  if (x =? 24.71)%float then "24.71"
  else if (x =? 46.67)%float then "46.67" else "0".

Definition sample_world (provider_status : Z) : MapPhoto.World :=
  {| MapPhoto.keys :=
       {| MapPhoto.local_key := None;
          MapPhoto.env_GMAPS_KEY := Some "k";
          MapPhoto.env_NEXT_PUBLIC_GMAPS_KEY := None |};
     MapPhoto.fetch := fun _ =>
       MapPhoto.Ok {| MapPhoto.status := provider_status;
                      MapPhoto.statusText := "";
                      MapPhoto.text := MapPhoto.Ok "denied";
                      MapPhoto.arrayBuffer := MapPhoto.Ok "jpeg" |};
     MapPhoto.upload := fun _ _ => MapPhoto.Ok None;
     MapPhoto.getPublicUrl := fun path => "https://storage/" ++ path |}.

Definition sample_request (m : string) (latitude : MapPhoto.Value)
  : MapPhoto.Request :=
  {| MapPhoto.method := Some m;
     MapPhoto.lat := latitude;
     MapPhoto.lng := MapPhoto.VString "46.67";
     MapPhoto.reportId := MapPhoto.VString "r1";
     MapPhoto.targetId := MapPhoto.VUndefined;
     MapPhoto.targetType := MapPhoto.VUndefined |}.

Definition sample_handler :=
  MapPhoto.handler sample_parseFloat (fun _ => "403") sample_show_number.

(** A request whose [targetId] is an object that has no primitive value. *)
Definition odd_request : MapPhoto.Request :=
  {| MapPhoto.method := Some "POST";
     MapPhoto.lat := MapPhoto.VNumber 24.71%float;
     MapPhoto.lng := MapPhoto.VNumber 46.67%float;
     MapPhoto.reportId := MapPhoto.VUndefined;
     MapPhoto.targetId :=
       MapPhoto.VObject
         (MapPhoto.Raised
            (MapPhoto.ErrorThrown "Cannot convert object to primitive value"));
     MapPhoto.targetType := MapPhoto.VUndefined |}.

(** * Further parts of the page and of the endpoint *)

(** ** Object URLs *)

(** A [blob:] URL, the kind [URL.createObjectURL] returns. *)
Definition isObjectUrl (s : string) : bool := String.prefix "blob:" s.

(** The URLs an event brings to the page are of their kind: the preview of a
    chosen file is an object URL, the URL of a stored photo (returned by
    [uploadPhoto], or loaded with an issue) is not. *)
Definition urls_of_their_kind (e : Event) : bool :=
  match e with
  | FileChosen _ url => isObjectUrl url
  | UploadSettled _ (Some photoUrl) => negb (isObjectUrl photoUrl)
  | EditIssueClicked issue =>
      forallb (fun u => negb (isObjectUrl u)) (Issue.issue_photos issue)
  | _ => true
  end.

(** ** Edits in step with the renders *)

(** The editors of the dialog, which make the new draft from the draft of the
    last render. *)
Definition isEditor (e : Event) : bool :=
  match e with
  | MainItemSelected _ | CaseTypeSelected _ | NotesTyped _
  | Case1SubItemSelected _ | Case1QuantityTyped _ | Case1UnitPriceTyped _
  | Case2SubItemSelected _ _ | Case2QuantityTyped _ _ | Case2UnitPriceTyped _ _ =>
      true
  | _ => false
  end.

(** No editor is handled while a draft that a continuation set (a settled
    upload, the reset after a save) waits for its render, which is the
    event [Rendered]. [stale] tells whether one waits at the start of the
    sequence. *)
Fixpoint edits_in_step (stale : bool) (events : list Event) : bool :=
  match events with
  | [] => true
  | e :: rest =>
      match e with
      | UploadSettled _ _ | FormReset => edits_in_step true rest
      | Rendered => edits_in_step false rest
      | _ => (negb (isEditor e) || negb stale) && edits_in_step stale rest
      end
  end.

(** ** The issue a save writes under *)

(** The identifier under which [handleSaveIssue] writes child rows: the
    edited issue, or the row [createIssue] returned. *)
Definition savedUnder (o : SaveOutcome) (p : Page) : option string :=
  match issueDialogMode p with
  | edit => editingIssueId p
  | create =>
      match created o with
      | Returns (Some issueId) => Some issueId
      | _ => None
      end
  end.

(** Every object URL a slot holds is the preview of a handler that still
    waits, for that slot. *)
Definition tracked (p : Page) : Prop :=
  forall s u,
    held (currentIssue p) s = Some u -> isObjectUrl u = true ->
    In {| slot := s; previewUrl := u |} (awaiting p).


(** ** Drafts of the declared type *)

(** An entry as [IssueFormData] declares it: present, with its four fields. *)
Definition entry_defined (e : option Case2Item.t) : bool :=
  match e with
  | Some (Case2Item.mk (Some _) (Some _) (Some _) (Some _)) => true
  | _ => false
  end.




(** ** Issues as a valid save stores them *)

(** An item row as the save of a valid draft writes it: a sub item, a
    quantity above 0 and a unit price above 0. *)
Definition complete_item (it : Issue.Item) : bool :=
  JS.truthy_string (Issue.sub_item_id it)
  && JS.gt0 (Issue.quantity it)
  && match Issue.unit_price it with Some x => JS.gt0 x | None => false end.

(** An issue as the save of a valid draft writes it: a main item, one item
    row for type [single] and three otherwise, and three photos. *)
Definition complete_issue (issue : Issue.t) : bool :=
  JS.truthy_string (Issue.main_item_id issue)
  && (length (Issue.issue_items issue)
      =? if String.eqb (Issue.issue_type issue) "single" then 1 else 3)%nat
  && forallb complete_item (Issue.issue_items issue)
  && (length (Issue.issue_photos issue) =? 3)%nat
  && forallb JS.truthy_string (Issue.issue_photos issue).

(** The row a save writes back for a loaded item. *)
Definition storedRow (issueId : string) (it : Issue.Item) : ItemRow.t :=
  ItemRow.mk issueId (Some (Issue.sub_item_id it)) (Some (Issue.quantity it))
    (match Issue.unit_price it with Some x => x | None => 0%float end).

(** ** [uploadPhoto] *)

From Stdlib Require Import Ascii.

(** [s.split(sep)] for a separator of one character: the pieces between the
    separators, a single empty piece for the empty string. *)
Fixpoint split (sep : Ascii.ascii) (s : string) : list string :=
  match s with
  | EmptyString => [EmptyString]
  | String c rest =>
      if Ascii.eqb c sep then EmptyString :: split sep rest
      else match split sep rest with
           | piece :: pieces => String c piece :: pieces
           | [] => [String c EmptyString]
           end
  end.

(** [/[^a-zA-Z0-9]/] does not match the character. *)
Definition alnum_char (c : Ascii.ascii) : bool :=
  let n := Ascii.nat_of_ascii c in
  ((97 <=? n) && (n <=? 122) || (65 <=? n) && (n <=? 90)
   || (48 <=? n) && (n <=? 57))%nat.

(** [s.replace(/[^...]/g, "")]: the characters of the class [keep], in
    order. *)
Fixpoint only (keep : Ascii.ascii -> bool) (s : string) : string :=
  match s with
  | EmptyString => EmptyString
  | String c rest => if keep c then String c (only keep rest) else only keep rest
  end.

(** Every character of the string is of the class. *)
Fixpoint all_chars (keep : Ascii.ascii -> bool) (s : string) : bool :=
  match s with
  | EmptyString => true
  | String c rest => keep c && all_chars keep rest
  end.

(** [a || b] where [a] may be [undefined]. *)
Definition or_string (a : option string) (b : string) : string :=
  match a with
  | Some s => if JS.truthy_string s then s else b
  | None => b
  end.

(** [file.type.split("/")[1] || file.name.split(".").pop() || "jpg"]. *)
Definition typeExt (f : File.t) : string :=
  or_string
    (Some (or_string (split "/"%char (File.type f) !! 1%nat)
             (List.last (split "."%char (File.name f)) "")))
    "jpg".

(** [typeExt.replace(/[^a-zA-Z0-9]/g, "") || "jpg"]. *)
Definition safeExt (f : File.t) : string :=
  or_string (Some (only alnum_char (typeExt f))) "jpg".

(** What [uploadPhoto] meets outside the page. *)
Record UploadWorld := {
  browser : Browser;
  (* the 3500 ms timer of the race settles before [compressImage] does *)
  timerFirst : bool;
  (* [Date.now()] and [Math.random().toString(36).substring(7)] as text *)
  now : string;
  token : string;
  (* the storage upload: the path it stored under, or an error *)
  storageUpload : string -> File.t -> option string;
  publicUrlOf : string -> string
}.

(** The file that goes to the storage: the compressed one when
    [compressImage] wins the race with a file that is not empty, the chosen
    one otherwise. [None] when the fuel does not suffice. *)
Definition fileToUpload (fuel : nat) (w : UploadWorld) (file : File.t)
  : option File.t :=
  if timerFirst w then Some file
  else
    match compressImageDefault fuel (browser w) file with
    | None => None
    | Some (Returns compressed, _) =>
        Some (if (0 <? File.size compressed)%float then compressed else file)
    | Some (Throws, _) => Some file
    end.

(** [`${user.id}/${Date.now()}_${...}.${safeExt}`]. *)
Definition storageName (userId : string) (w : UploadWorld) (f : File.t) : string :=
  userId ++ "/" ++ now w ++ "_" ++ token w ++ "." ++ safeExt f.

(** [uploadPhoto(file)]: how the call completes, and the name and file handed
    to the storage if it came to that. [user] is the identifier of the signed-in
    user. *)
Definition uploadPhoto (fuel : nat) (user : option string) (w : UploadWorld)
    (file : File.t) : option (Completion string * option (string * File.t)) :=
  match user with
  | None => Some (Throws, None)
  | Some userId =>
      match fileToUpload fuel w file with
      | None => None
      | Some f =>
          let fileName := storageName userId w f in
          match storageUpload w fileName f with
          | None => Some (Throws, Some (fileName, f))
          | Some path => Some (Returns (publicUrlOf w path), Some (fileName, f))
          end
      end
  end.

(** Worlds for examples. *)
Definition phone (timer : bool) : UploadWorld :=
  {| browser := camera; timerFirst := timer; now := "1700000000000";
     token := "k3x9d"; storageUpload := fun name _ => Some name;
     publicUrlOf := fun path => "https://storage/" ++ path |}.

(** ** The key of the map-photo endpoint *)

(** The first source that holds a non-empty string. *)
Definition firstNonEmpty (sources : list (option string)) : option string :=
  match List.find JS.truthy_ostring sources with
  | Some source => source
  | None => None
  end.

(** A world in which no key source is set. *)
Definition keyless_world : MapPhoto.World :=
  {| MapPhoto.keys :=
       {| MapPhoto.local_key := Some "";
          MapPhoto.env_GMAPS_KEY := None;
          MapPhoto.env_NEXT_PUBLIC_GMAPS_KEY := None |};
     MapPhoto.fetch := fun _ => MapPhoto.Raised MapPhoto.OtherThrown;
     MapPhoto.upload := fun _ _ => MapPhoto.Raised MapPhoto.OtherThrown;
     MapPhoto.getPublicUrl := fun path => path |}.

(** ** [autoFetchMap] *)

Module MapFetch.

(** The columns of the loaded report and of its mosque the effect reads;
    [latitude] and [longitude] are a number or [null]. *)
Record Mosque := { latitude : option JS.number; longitude : option JS.number }.

Record Report := {
  id : string;
  map_photo_url : option string;
  mosques : option Mosque
}.

(** A number after [JSON.stringify] and the parse of the request body: NaN
    and the infinities arrive as [null]. *)
Definition toJson (x : JS.number) : MapPhoto.Value :=
  if PrimFloat.is_finite x then MapPhoto.VNumber x else MapPhoto.VNull.

(** The request of [fetch("/api/map-photo", { method: "POST", ... })] as the
    handler reads it; [userId] is not among the fields it reads. *)
Definition mapRequest (report : Report) (lat lng : JS.number) : MapPhoto.Request :=
  {| MapPhoto.method := Some "POST";
     MapPhoto.lat := toJson lat;
     MapPhoto.lng := toJson lng;
     MapPhoto.reportId := MapPhoto.VString (id report);
     MapPhoto.targetId := MapPhoto.VUndefined;
     MapPhoto.targetType := MapPhoto.VUndefined |}.

(** The state the effect works on: the ref [mapFetchAttempted], the states
    [isFetchingMap] and [report]; the identifier of the report a call that
    waits for its answer was started for; the requests sent to the endpoint
    and the [updateReport] calls made, oldest first. *)
Record State := {
  mapFetchAttempted : bool;
  isFetchingMap : bool;
  report : option Report;
  waiting : option string;
  requests : list MapPhoto.Request;
  updates : list (string * string)
}.

Definition initial : State :=
  {| mapFetchAttempted := false; isFetchingMap := false; report := None;
     waiting := None; requests := []; updates := [] |}.

(** [autoFetchMap] up to its [await fetch(...)]. *)
Definition autoFetchMap (st : State) : State :=
  if mapFetchAttempted st || isFetchingMap st then st
  else
    match report st with
    | None => st
    | Some r =>
        if JS.truthy_ostring (map_photo_url r) then st
        else
          match mosques r with
          | Some {| latitude := Some lat; longitude := Some lng |} =>
              if negb (JS.truthy_number lat) || negb (JS.truthy_number lng)
              then st
              else
                {| mapFetchAttempted := true; isFetchingMap := true;
                   report := report st; waiting := Some (id r);
                   requests := (requests st ++ [mapRequest r lat lng])%list;
                   updates := updates st |}
          | _ => st
          end
    end.

(** What comes back: [fetch] or [resp.json()] threw, or an answer with its
    [ok] flag and its [url] field; [updated] tells whether [updateReport] goes
    through when it is called. *)
Inductive Answer :=
| NoAnswer
| Answered (ok : bool) (url : option string) (updated : bool).

(** [setReport((prev) => (prev ? { ...prev, map_photo_url: url } : prev))]. *)
Definition withMapUrl (url : string) (prev : option Report) : option Report :=
  match prev with
  | Some r => Some {| id := id r; map_photo_url := Some url; mosques := mosques r |}
  | None => None
  end.

(** The rest of [autoFetchMap], from the answer on, for the call that waits. *)
Definition resume (a : Answer) (st : State) : State :=
  match waiting st with
  | None => st
  | Some reportId =>
      let st' :=
        match a with
        | Answered true (Some url) updated =>
            if JS.truthy_string url then
              {| mapFetchAttempted := mapFetchAttempted st;
                 isFetchingMap := isFetchingMap st;
                 report := if updated then withMapUrl url (report st) else report st;
                 waiting := waiting st; requests := requests st;
                 updates := (updates st ++ [(reportId, url)])%list |}
            else st
        | _ => st
        end in
      {| mapFetchAttempted := mapFetchAttempted st'; isFetchingMap := false;
         report := report st'; waiting := None; requests := requests st';
         updates := updates st' |}
  end.

(** What happens on the page as far as the effect is concerned: [setReport]
    by [loadReport] and the handlers, a run of the effect, the answer to the
    call that waits. *)
Inductive Event :=
| ReportSet (r : option Report)
| EffectRun
| MapAnswered (a : Answer).

Definition step (st : State) (e : Event) : State :=
  match e with
  | ReportSet r =>
      {| mapFetchAttempted := mapFetchAttempted st;
         isFetchingMap := isFetchingMap st; report := r; waiting := waiting st;
         requests := requests st; updates := updates st |}
  | EffectRun => autoFetchMap st
  | MapAnswered a => resume a st
  end.

Definition run (st : State) (events : list Event) : State :=
  fold_left step events st.

(** What the invariant of the runs says of a state. *)
Definition consistent (st : State) : Prop :=
  (mapFetchAttempted st = false ->
   requests st = [] /\ waiting st = None /\ updates st = [])
  /\ (length (requests st) <= 1)%nat
  /\ (forall v, waiting st = Some v ->
        updates st = []
        /\ exists request,
             In request (requests st)
             /\ MapPhoto.reportId request = MapPhoto.VString v)
  /\ (length (updates st) <= 1)%nat
  /\ (forall v url, In (v, url) (updates st) ->
        url <> ""
        /\ exists request,
             In request (requests st)
             /\ MapPhoto.reportId request = MapPhoto.VString v)
  /\ (forall request, In request (requests st) ->
        MapPhoto.method request = Some "POST"
        /\ MapPhoto.targetId request = MapPhoto.VUndefined
        /\ MapPhoto.targetType request = MapPhoto.VUndefined
        /\ (exists v, MapPhoto.reportId request = MapPhoto.VString v)
        /\ (MapPhoto.lat request = MapPhoto.VNull
            \/ exists x, MapPhoto.lat request = MapPhoto.VNumber x
                         /\ PrimFloat.is_nan x = false)
        /\ (MapPhoto.lng request = MapPhoto.VNull
            \/ exists x, MapPhoto.lng request = MapPhoto.VNumber x
                         /\ PrimFloat.is_nan x = false)).

End MapFetch.

(** Reports for examples. *)
Definition riyadh : MapFetch.Report :=
  {| MapFetch.id := "r1"; MapFetch.map_photo_url := None;
     MapFetch.mosques :=
       Some {| MapFetch.latitude := Some 24.71%float;
               MapFetch.longitude := Some 46.67%float |} |}.

Definition on_the_equator : MapFetch.Report :=
  {| MapFetch.id := "r2"; MapFetch.map_photo_url := None;
     MapFetch.mosques :=
       Some {| MapFetch.latitude := Some 0%float;
               MapFetch.longitude := Some 36.8%float |} |}.

(** ** [seedDatabase] (the item management page) *)

Module Seed.

(** A row of [subItemsData]; the Arabic names and [name_table: null] travel
    with the row unchanged and are left out. *)
Record SubSeed := {
  main_item_id : string;
  name : string;
  unit : string;
  unit_price : Z
}.

(** [mainItemsData], by their English names. *)
Definition mainItemsData : list string :=
  ["Toilets and Ablution Areas"; "Air Conditioning and Ventilation";
   "Electricity and Lighting"; "Furniture and Carpets"].

Definition subItemsData : list SubSeed :=
  [ {| main_item_id := "a1"; name := "Clean toilet"; unit := "unit"; unit_price := 50 |};
    {| main_item_id := "a1"; name := "Repair faucet"; unit := "piece"; unit_price := 30 |};
    {| main_item_id := "a2"; name := "Clean AC filter"; unit := "unit"; unit_price := 20 |};
    {| main_item_id := "a2"; name := "AC maintenance"; unit := "unit"; unit_price := 150 |};
    {| main_item_id := "a3"; name := "Replace lamp"; unit := "piece"; unit_price := 15 |};
    {| main_item_id := "a4"; name := "Clean carpet"; unit := "sqm"; unit_price := 10 |};
    {| main_item_id := "a4"; name := "Repair chair"; unit := "piece"; unit_price := 40 |} ].

Definition tempMainIds : list string := ["a1"; "a2"; "a3"; "a4"].

(** [mainIdMap]: the keys in the order they were set. *)
Definition IdMap := list (string * string).

(** [map[key]]. *)
Fixpoint get (key : string) (map : IdMap) : option string :=
  match map with
  | [] => None
  | (k, v) :: rest => if String.eqb k key then Some v else get key rest
  end.

(** [map[key] = v]. *)
Fixpoint set (key v : string) (map : IdMap) : IdMap :=
  match map with
  | [] => [(key, v)]
  | (k, old) :: rest =>
      if String.eqb k key then (k, v) :: rest else (k, old) :: set key v rest
  end.

(** The answer to the insert of a main item: an error, or the row with its
    [id] ([None] when [data?.id] is undefined). *)
Inductive InsertAnswer :=
| InsertError
| Inserted (id : option string).

(** The [for] loop over [mainItemsData]; [None] when an insert answered with
    an error, which is thrown. *)
Fixpoint insertMainItems (insert : string -> InsertAnswer) (items : list string)
    (mainIdMap : IdMap) (temps : list string) : option IdMap :=
  match items with
  | [] => Some mainIdMap
  | item :: rest =>
      match insert item with
      | InsertError => None
      | Inserted data_id =>
          match data_id with
          | Some v =>
              if JS.truthy_string v then
                (* [tempMainIds.shift()] *)
                match temps with
                | tempId :: temps' =>
                    if JS.truthy_string tempId
                    then insertMainItems insert rest (set tempId v mainIdMap) temps'
                    else insertMainItems insert rest mainIdMap temps'
                | [] => insertMainItems insert rest mainIdMap []
                end
              else insertMainItems insert rest mainIdMap temps
          | None => insertMainItems insert rest mainIdMap temps
          end
      end
  end.

(** [{ ...item, main_item_id: mainIdMap[item.main_item_id] || item.main_item_id }]. *)
Definition resolve (mainIdMap : IdMap) (item : SubSeed) : SubSeed :=
  {| main_item_id :=
       match get (main_item_id item) mainIdMap with
       | Some v => if JS.truthy_string v then v else main_item_id item
       | None => main_item_id item
       end;
     name := name item; unit := unit item; unit_price := unit_price item |}.

(** What the store answers. The inserts of the sub items are not inspected
    for errors; [subInsertRejects] tells whether one of their promises
    rejects. *)
Record World := {
  deleteSubError : bool;
  deleteMainError : bool;
  insertMain : string -> InsertAnswer;
  subInsertRejects : bool
}.

(** [seedDatabase]: the sub items sent for insertion, and whether it ended
    with the success toast. *)
Definition seedDatabase (w : World) : list SubSeed * bool :=
  if deleteSubError w then ([], false)
  else if deleteMainError w then ([], false)
  else
    match insertMainItems (insertMain w) mainItemsData [] tempMainIds with
    | None => ([], false)
    | Some mainIdMap =>
        (List.map (resolve mainIdMap) subItemsData, negb (subInsertRejects w))
    end.

(** The truthy identifiers the inserts returned, in order. *)
Definition returnedIds (insert : string -> InsertAnswer) (items : list string)
  : list string :=
  omap (fun item =>
          match insert item with
          | Inserted (Some v) => if JS.truthy_string v then Some v else None
          | _ => None
          end) items.

End Seed.

(** A store that gives every main item the identifier [id-<name>], and one in
    which the insert of the second main item returns no row. *)
Definition seed_world : Seed.World :=
  {| Seed.deleteSubError := false; Seed.deleteMainError := false;
     Seed.insertMain := fun item => Seed.Inserted (Some ("id-" ++ item));
     Seed.subInsertRejects := false |}.

Definition seed_world_without_second : Seed.World :=
  {| Seed.deleteSubError := false; Seed.deleteMainError := false;
     Seed.insertMain := fun item =>
       if String.eqb item "Air Conditioning and Ventilation"
       then Seed.Inserted None else Seed.Inserted (Some ("id-" ++ item));
     Seed.subInsertRejects := false |}.

(** ** The issue a dialog was opened for *)

(** The events that set the mode of the dialog or the edited issue: the two
    buttons that open the dialog, and the reset after a save. *)
Definition opensOrResets (e : Event) : bool :=
  match e with
  | AddIssueClicked | EditIssueClicked _ | FormReset => true
  | _ => false
  end.

(** * Properties *)

(** ** Facts on numbers *)

Lemma le0_gt0 (x : JS.number) :
  PrimFloat.is_nan x = false -> JS.le0 x = negb (JS.gt0 x).
Proof.
  unfold JS.le0, JS.gt0, PrimFloat.is_nan.
  rewrite FloatAxioms.leb_spec, FloatAxioms.ltb_spec, FloatAxioms.eqb_spec.
  replace (Prim2SF 0) with (S754_zero false) by reflexivity.
  destruct (Prim2SF x) as [s|s| |s m e];
    try destruct s; cbn; try reflexivity; try discriminate.
Qed.

Lemma gt0_not_nan (x : JS.number) :
  JS.gt0 x = true -> PrimFloat.is_nan x = false.
Proof.
  unfold JS.gt0, PrimFloat.is_nan. rewrite FloatAxioms.ltb_spec, FloatAxioms.eqb_spec.
  replace (Prim2SF 0) with (S754_zero false) by reflexivity.
  destruct (Prim2SF x) as [s|s| |s m e];
    try destruct s; cbn; try reflexivity; try discriminate.
  intros _. unfold SFeqb, SFcompare.
  rewrite Z.compare_refl, Pos.compare_cont_refl. reflexivity.
Qed.

Lemma nan_le0 (x : JS.number) : PrimFloat.is_nan x = true -> JS.le0 x = false.
Proof.
  unfold JS.le0, PrimFloat.is_nan. rewrite FloatAxioms.leb_spec, FloatAxioms.eqb_spec.
  replace (Prim2SF 0) with (S754_zero false) by reflexivity.
  destruct (Prim2SF x) as [s|s| |s m e];
    try destruct s; cbn; try reflexivity; try discriminate.
  unfold SFeqb, SFcompare.
  rewrite Z.compare_refl, Pos.compare_cont_refl. discriminate.
Qed.

(** [!(x <= 0)] holds exactly when [x > 0] or [x] is [NaN]. *)
Lemma le0_false_iff (x : JS.number) :
  JS.le0 x = false <-> JS.gt0 x = true \/ PrimFloat.is_nan x = true.
Proof.
  destruct (PrimFloat.is_nan x) eqn:Hn.
  - rewrite (nan_le0 x Hn). tauto.
  - rewrite (le0_gt0 x Hn). destruct (JS.gt0 x); cbn; intuition congruence.
Qed.

Lemma truthy_string_iff (s : string) : JS.truthy_string s = true <-> nonempty s.
Proof.
  unfold JS.truthy_string, nonempty.
  destruct (String.eqb_spec s ""); cbn; intuition congruence.
Qed.

Lemma truthy_ostring_iff (o : option string) :
  JS.truthy_ostring o = true <-> exists s, o = Some s /\ nonempty s.
Proof.
  destruct o as [s|]; cbn.
  - rewrite truthy_string_iff. split.
    + intros H. exists s. auto.
    + intros (s' & [= <-] & H). exact H.
  - split; [discriminate | intros (s & [=] & _)].
Qed.

Lemma ogt0_iff (o : option JS.number) :
  JS.ogt0 o = true <-> exists x, o = Some x /\ JS.gt0 x = true.
Proof.
  destruct o as [x|]; cbn.
  - split; [intros H; exists x; auto | intros (x' & [= <-] & H); exact H].
  - split; [discriminate | intros (x & [=] & _)].
Qed.

(** An entry counts exactly when it has a non-empty [sub_item_id], a non-empty
    [photo], a quantity above 0 and a unit price above 0. *)
Lemma valid_item_iff (item : Case2Item.t) :
  valid_item item = true <->
  (exists s, Case2Item.sub_item_id item = Some s /\ nonempty s)
  /\ (exists u, Case2Item.photo item = Some u /\ nonempty u)
  /\ (exists q, Case2Item.quantity item = Some q /\ JS.gt0 q = true)
  /\ (exists x, Case2Item.unit_price item = Some x /\ JS.gt0 x = true).
Proof.
  unfold valid_item. rewrite !andb_true_iff, !truthy_ostring_iff, !ogt0_iff.
  tauto.
Qed.

(** ** [validateIssue] *)


(** The checks of case 1, as the code makes them. *)
Lemma validate_run_case1 (d : IssueFormData) :
  caseType d = case1 ->
  (validate_run d = None <->
   JS.truthy_string (main_item_id d) = true
   /\ JS.truthy_string (Case1Data.sub_item_id (case1Data d)) = true
   /\ length (nonempty_photos (Case1Data.photos (case1Data d))) = 3%nat
   /\ JS.le0 (Case1Data.quantity (case1Data d)) = false
   /\ JS.le0 (Case1Data.unit_price (case1Data d)) = false).
Proof.
  intros Hc. unfold validate_run. rewrite Hc. cbv zeta.
  destruct (JS.truthy_string (main_item_id d)); cbn [negb];
    [| split; [discriminate | intros (? & _); discriminate]].
  destruct (JS.truthy_string (Case1Data.sub_item_id (case1Data d))); cbn [negb];
    [| split; [discriminate | intros (_ & ? & _); discriminate]].
  destruct (Nat.eqb_spec
              (length (nonempty_photos (Case1Data.photos (case1Data d)))) 3)
    as [Hn|Hn]; cbn [negb];
    [| split; [discriminate | intros (_ & _ & ? & _); contradiction]].
  destruct (JS.le0 (Case1Data.quantity (case1Data d)));
    [split; [discriminate | intros (_ & _ & _ & ? & _); discriminate] |].
  destruct (JS.le0 (Case1Data.unit_price (case1Data d)));
    [split; [discriminate | intros (_ & _ & _ & _ & ?); discriminate] |].
  tauto.
Qed.


(** The editors of the dialog store no NaN: [x || d] is [d] when [x] is NaN. *)
Lemma or_number_not_nan (x d : JS.number) :
  PrimFloat.is_nan d = false -> PrimFloat.is_nan (JS.or_number x d) = false.
Proof.
  intros Hd. unfold JS.or_number, JS.truthy_number.
  destruct (PrimFloat.is_zero x), (PrimFloat.is_nan x) eqn:Hx; cbn;
    assumption.
Qed.

Lemma getSubItemPrice_not_nan (subs : list SubItem.t) (v : option string) :
  PrimFloat.is_nan (getSubItemPrice subs v) = false.
Proof.
  unfold getSubItemPrice. destruct v as [v|]; [| reflexivity].
  destruct (List.find _ subs); [| reflexivity].
  apply or_number_not_nan. reflexivity.
Qed.

Lemma editors_store_no_nan (subs : list SubItem.t) (v : string)
    (parsed : JS.number) (d : IssueFormData) :
  PrimFloat.is_nan
    (Case1Data.quantity (case1Data (setCase1Quantity parsed d))) = false
  /\ PrimFloat.is_nan
       (Case1Data.unit_price (case1Data (setCase1UnitPrice parsed d))) = false
  /\ PrimFloat.is_nan
       (Case1Data.unit_price (case1Data (setCase1SubItem subs v d))) = false.
Proof.
  repeat split.
  - apply or_number_not_nan. reflexivity.
  - apply or_number_not_nan. reflexivity.
  - apply (getSubItemPrice_not_nan subs (Some v)).
Qed.

(** The two examples of the specification. *)
Example validateIssue_case1_valid :
  validateIssue (draft_c1 2%float 50%float [Some "u1"; Some "u2"; Some "u3"]) = true.
Proof. vm_compute. reflexivity. Qed.

Example validateIssue_case1_empty_photo :
  validateIssue (draft_c1 2%float 50%float [Some "u1"; Some "u2"; Some ""]) = false.
Proof. vm_compute. reflexivity. Qed.

(** The quantity check is [quantity <= 0], where the entries of case 2 are
    checked with [quantity > 0]: on NaN, which no writer of the draft stores,
    the check of case 1 would let the draft through. *)
Example validateIssue_case1_nan :
  let d := draft_c1 PrimFloat.nan 50%float [Some "u1"; Some "u2"; Some "u3"] in
  caseType d = case1
  /\ validateIssue d = true
  /\ ~ case1_valid_spec d.
Proof.
  cbv zeta. split; [reflexivity |]. split; [vm_compute; reflexivity |].
  intros (_ & _ & _ & Hq & _). vm_compute in Hq. discriminate.
Qed.

(** The checks of case 2, as the code makes them. *)
Lemma validate_run_case2 (d : IssueFormData) :
  caseType d = case2 ->
  (validate_run d = None <->
   JS.truthy_string (main_item_id d) = true
   /\ length (validItems d) = 3%nat).
Proof.
  intros Hc. unfold validate_run. rewrite Hc.
  destruct (JS.truthy_string (main_item_id d)); cbn [negb];
    [| split; [discriminate | intros (? & _); discriminate]].
  destruct (Nat.eqb_spec (length (validItems d)) 3) as [Hn|Hn]; cbn [negb].
  - tauto.
  - split; [discriminate | intros (_ & ?); contradiction].
Qed.


(** The example of the specification: 4 entries of which 3 are valid. *)
Example validateIssue_case2_four_entries :
  validateIssue four_entries = true.
Proof. vm_compute. reflexivity. Qed.



(** ** [compressImage] *)

(** C3: a file whose size is at most [targetSizeKb * 1024] bytes is returned
    as it is, without an encode; with the default [targetSizeKb = 900] the
    bound is 921600 bytes. *)
Theorem compressImage_small_file (fuel : nat) (w : Browser) (file : File.t)
    (maxDimension targetSizeKb : JS.number) :
  (File.size file <=? targetSizeKb * 1024)%float = true ->
  compressImage fuel w file maxDimension targetSizeKb = Some (Returns file, []).
Proof.
  intros Hsize. unfold compressImage.
  destruct (hasImage w); cbn [negb]; [| reflexivity].
  rewrite Hsize. reflexivity.
Qed.

Lemma compressImage_small_file_witness :
  compressImageDefault 0 camera small_photo = Some (Returns small_photo, []).
Proof.
  apply (compressImage_small_file 0 camera small_photo 1400%float 900%float).
  reflexivity.
Defined.

(** The qualities of the loop, as binary64 values. *)
Lemma quality_after_one : (initialQuality - qualityStep)%float = 0.64%float.
Proof. reflexivity. Qed.

Lemma quality_after_two : (0.64 - qualityStep)%float = 0.56%float.
Proof. reflexivity. Qed.

Lemma floor_below_initial : (qualityFloor <? initialQuality)%float = true.
Proof. reflexivity. Qed.

Lemma floor_below_64 : (qualityFloor <? 0.64)%float = true.
Proof. reflexivity. Qed.

Lemma floor_above_56 : (qualityFloor <? 0.56)%float = false.
Proof. reflexivity. Qed.

(** The runs of the loop from quality 0.72: the case analysis on the two size
    tests and the two encodes, with the floor tests computed. *)
Ltac loop_cases encode targetBytes size0 :=
  cbn [lowerQuality];
  rewrite floor_below_initial, quality_after_one, andb_true_r;
  destruct (targetBytes <? size0)%float;
  [ destruct (encode 0.64%float) as [?size1|];
    [ rewrite floor_below_64, quality_after_two, andb_true_r;
      match goal with
      | |- context [(targetBytes <? ?s)%float] =>
          destruct (targetBytes <? s)%float
      end;
      [ destruct (encode 0.56%float) as [?size2|];
        [ rewrite floor_above_56, andb_false_r | ]
      | ]
    | ]
  | ].

(** C4 (amended): from quality 0.72 the loop ends within three evaluations of
    its condition, after at most 2 iterations, and what it does is fixed by
    the sizes of the blobs. A first blob within the target: no iteration. A
    first blob above the target: the first iteration encodes at 0.64; when
    that blob is within the target, or the encoder gives none, the loop is
    over. When it is still above the target a second iteration follows, as
    0.64 > 0.58, and encodes at 0.56; then the loop stops whatever the size,
    as 0.56 > 0.58 is false. No other quality is encoded at. *)
Theorem lowerQuality_bounded (encode : JS.number -> option JS.number)
    (targetBytes size0 : JS.number) (fuel : nat) :
  (3 <= fuel)%nat ->
  let loop := lowerQuality fuel encode targetBytes initialQuality size0 [] in
  (exists attempts,
      attempts_of loop = Some attempts
      /\ (length attempts <= 2)%nat
      /\ (attempts = [] \/ attempts = [0.64%float]
          \/ attempts = [0.64%float; 0.56%float]))
  /\ ((targetBytes <? size0)%float = false ->
      loop = Encoded initialQuality size0 [])
  /\ ((targetBytes <? size0)%float = true ->
      match encode 0.64%float with
      | None => loop = EncodeFailed [0.64%float]
      | Some size1 =>
          if (targetBytes <? size1)%float
          then match encode 0.56%float with
               | None => loop = EncodeFailed [0.64%float; 0.56%float]
               | Some size2 =>
                   loop = Encoded 0.56%float size2 [0.64%float; 0.56%float]
               end
          else loop = Encoded 0.64%float size1 [0.64%float]
      end).
Proof.
  intros Hfuel loop. subst loop.
  destruct fuel as [|[|[|fuel]]]; try lia. clear Hfuel.
  cbn [lowerQuality].
  rewrite floor_below_initial, quality_after_one, andb_true_r.
  destruct (targetBytes <? size0)%float eqn:T0.
  2:{ split; [exists []; cbn; auto with arith |].
      split; [reflexivity | discriminate]. }
  destruct (encode 0.64%float) as [size1|] eqn:E1.
  2:{ split; [exists [0.64%float]; cbn; auto with arith |].
      split; [discriminate | reflexivity]. }
  rewrite floor_below_64, quality_after_two, andb_true_r.
  destruct (targetBytes <? size1)%float eqn:T1.
  2:{ split; [exists [0.64%float]; cbn; auto with arith |].
      split; [discriminate | reflexivity]. }
  destruct (encode 0.56%float) as [size2|] eqn:E2.
  - rewrite floor_above_56, andb_false_r.
    split; [exists [0.64%float; 0.56%float]; cbn; auto with arith |].
    split; [discriminate | reflexivity].
  - split; [exists [0.64%float; 0.56%float]; cbn; auto with arith |].
    split; [discriminate | reflexivity].
Qed.

Lemma lowerQuality_bounded_witness :
  lowerQuality 3 (toBlob camera 1400%float 1050%float) 921600%float
    initialQuality 2000000%float []
  = Encoded 0.56%float 2000000%float [0.64%float; 0.56%float].
Proof.
  apply (proj2 (proj2
           (lowerQuality_bounded (toBlob camera 1400%float 1050%float)
              921600%float 2000000%float 3 (le_n 3)))).
  reflexivity.
Defined.

(** C4 as stated fails when the encoder stays above the target: the encode at
    0.56, below the floor 0.58, runs, as the second iteration of the loop and
    the third encode of the call. *)
Lemma compressImage_encodes_at_56 :
  attempts_of
    (lowerQuality 3 (toBlob camera 1400%float 1050%float) 921600%float
       initialQuality 2000000%float [])
  = Some [0.64%float; 0.56%float]
  /\ (0.56 <? qualityFloor)%float = true
  /\ compressImageDefault 3 camera large_photo
     = Some (Returns (File.mk 2000000%float "1700000000000.jpg" "image/jpeg"),
             [0.72%float; 0.64%float; 0.56%float]).
Proof. repeat split; vm_compute; reflexivity. Qed.

(** With enough fuel [compressImage] completes, after at most three encodes. *)
Lemma compressImage_completes (fuel : nat) (w : Browser) (file : File.t)
    (maxDimension targetSizeKb : JS.number) :
  (3 <= fuel)%nat ->
  exists c encodes,
    compressImage fuel w file maxDimension targetSizeKb = Some (c, encodes)
    /\ (length encodes <= 3)%nat.
Proof.
  intros Hfuel. unfold compressImage.
  destruct (hasImage w); cbn [negb]; [| exists (Returns file), []; auto with arith].
  destruct (File.size file <=? targetSizeKb * 1024)%float;
    [exists (Returns file), []; auto with arith |].
  destruct (decode w file) as [[width0 height0]|];
    [| exists Throws, []; auto with arith].
  destruct (fit width0 height0 maxDimension) as [width height].
  destruct (hasContext w); cbn [negb]; [| exists Throws, []; auto with arith].
  destruct (toBlob w width height initialQuality) as [size0|];
    [| exists Throws, [initialQuality]; cbn; auto with arith].
  destruct fuel as [|[|[|fuel]]]; try lia. clear Hfuel.
  loop_cases (toBlob w width height) (targetSizeKb * 1024)%float size0;
    eexists _, _; (split; [reflexivity | cbn; lia]).
Qed.

(** ** Array reads and writes *)

Lemma strict_ne_false (a : option string) (b : string) :
  JS.strict_ne a b = false <-> a = Some b.
Proof.
  destruct a as [s|]; cbn; [| split; discriminate].
  destruct (String.eqb_spec s b); cbn; split; congruence.
Qed.

Lemma index_Some {A} (l : list (option A)) (i : nat) (v : A) :
  JS.index l i = Some v <-> l !! i = Some (Some v).
Proof.
  unfold JS.index. destruct (l !! i) as [[a|]|]; split; congruence.
Qed.

Lemma index_in_range {A} (l : list (option A)) (i : nat) (v : A) :
  JS.index l i = Some v -> (i < length l)%nat.
Proof. rewrite index_Some. apply lookup_lt_Some. Qed.

Lemma assign_in_range {A} (l : list (option A)) (i : nat) (v : A) :
  (i < length l)%nat -> JS.assign l i v = <[i := Some v]> l.
Proof.
  intros Hi. unfold JS.assign.
  destruct (Nat.ltb_spec i (length l)); [reflexivity | lia].
Qed.

Lemma length_assign {A} (l : list (option A)) (i : nat) (v : A) :
  length (JS.assign l i v) = Nat.max (length l) (S i).
Proof.
  unfold JS.assign. destruct (Nat.ltb_spec i (length l)).
  - rewrite length_insert. lia.
  - rewrite !length_app, length_replicate. cbn. lia.
Qed.

Lemma index_assign {A} (l : list (option A)) (i : nat) (v : A) :
  JS.index (JS.assign l i v) i = Some v.
Proof.
  apply index_Some. unfold JS.assign. destruct (Nat.ltb_spec i (length l)).
  - apply list_lookup_insert_eq. assumption.
  - rewrite lookup_app_r by assumption.
    rewrite lookup_app_r; rewrite length_replicate; [| lia].
    replace (i - length l - (i - length l))%nat with 0%nat by lia. reflexivity.
Qed.

Lemma index_assign_ne {A} (l : list (option A)) (i j : nat) (v : A) :
  i <> j -> (i < length l)%nat -> JS.index (JS.assign l i v) j = JS.index l j.
Proof.
  intros Hne Hi. rewrite assign_in_range by assumption.
  unfold JS.index. rewrite list_lookup_insert_ne by assumption. reflexivity.
Qed.

(** ** The staleness guard of the upload handlers *)

Lemma case1_guarded (index : nat) (url v : string) (prev : IssueFormData) :
  (held prev (Case1Photo index) = Some url ->
   handleCase1PhotoUpload.guarded index url v prev = replaced prev (Case1Photo index) v)
  /\ (held prev (Case1Photo index) <> Some url ->
      handleCase1PhotoUpload.guarded index url v prev = prev).
Proof.
  unfold handleCase1PhotoUpload.guarded, held. split; intros H.
  - rewrite (proj2 (strict_ne_false _ _) H).
    unfold handleCase1PhotoUpload.write, replaced.
    rewrite assign_in_range by (eapply index_in_range; exact H). reflexivity.
  - destruct (JS.strict_ne _ url) eqn:E; [reflexivity |].
    apply strict_ne_false in E. contradiction.
Qed.

Lemma case2_guarded (itemIndex : nat) (url v : string) (prev : IssueFormData) :
  (held prev (Case2Photo itemIndex) = Some url ->
   handleCase2PhotoUpload.guarded itemIndex url v prev
   = replaced prev (Case2Photo itemIndex) v)
  /\ (held prev (Case2Photo itemIndex) <> Some url ->
      handleCase2PhotoUpload.guarded itemIndex url v prev = prev).
Proof.
  unfold handleCase2PhotoUpload.guarded, held. split; intros H.
  - rewrite (proj2 (strict_ne_false _ _) H).
    unfold handleCase2PhotoUpload.write, replaced, item_photo in *.
    destruct (JS.index (items (case2Data prev)) itemIndex) as [item|] eqn:E;
      [| discriminate].
    rewrite assign_in_range by (eapply index_in_range; exact E). reflexivity.
  - destruct (JS.strict_ne _ url) eqn:E; [reflexivity |].
    apply strict_ne_false in E. contradiction.
Qed.

(** The updater of a settled upload, for either handler and either outcome. *)
Lemma settleDraft_guard (u : Upload) (result : option string)
    (d : IssueFormData) :
  (held d (slot u) = Some (previewUrl u) ->
   settleDraft u result d = replaced d (slot u) (settledValue result))
  /\ (held d (slot u) <> Some (previewUrl u) -> settleDraft u result d = d).
Proof.
  destruct u as [[index|itemIndex] url], result as [photoUrl|]; cbn;
    first [ apply case1_guarded | apply case2_guarded ].
Qed.

(** C5: when an upload settles, its updater replaces the slot (by the remote
    URL on success, by the empty string on failure) if the slot still holds
    the preview URL the handler put there, and only the slot; if the slot
    holds anything else the draft stays as it is. The rest of the page is
    touched by neither, apart from the counter. *)
Theorem stale_upload_guard (u : Upload) (result : option string) (p : Page) :
  (held (currentIssue p) (slot u) = Some (previewUrl u) ->
   currentIssue (resume u result p)
   = replaced (currentIssue p) (slot u) (settledValue result))
  /\ (held (currentIssue p) (slot u) <> Some (previewUrl u) ->
      currentIssue (resume u result p) = currentIssue p)
  /\ issueDialogMode (resume u result p) = issueDialogMode p
  /\ editingIssueId (resume u result p) = editingIssueId p
  /\ subItems (resume u result p) = subItems p.
Proof.
  unfold resume. cbn [currentIssue issueDialogMode editingIssueId subItems
                       setPendingUploads setCurrentIssue].
  destruct (settleDraft_guard u result (currentIssue p)) as [Hsame Hother].
  repeat split; assumption.
Qed.

(** The slot an upload starts on shows its preview. *)
Lemma held_start (s : Slot) (url : string) (p : Page) :
  held (currentIssue (startUpload s url p)) s = Some url.
Proof.
  destruct s as [index|itemIndex]; cbn.
  - apply index_assign.
  - unfold item_photo. rewrite index_assign.
    unfold spread_with_photo.
    destruct (JS.index (items (case2Data (currentIssue p))) itemIndex);
      reflexivity.
Qed.

(** A replaced slot holds the new value. *)
Lemma held_replaced (d : IssueFormData) (s : Slot) (old v : string) :
  held d s = Some old -> held (replaced d s v) s = Some v.
Proof.
  destruct s as [index|itemIndex]; cbn.
  - intros H. apply index_Some.
    apply list_lookup_insert_eq. eapply index_in_range; exact H.
  - unfold item_photo.
    destruct (JS.index (items (case2Data d)) itemIndex) as [item|] eqn:E;
      [| discriminate].
    intros _. cbn.
    assert (Hnew : JS.index
                     (<[itemIndex := Some (with_photo item v)]>
                        (items (case2Data d))) itemIndex
                   = Some (with_photo item v)).
    { apply index_Some. apply list_lookup_insert_eq.
      eapply index_in_range; exact E. }
    rewrite Hnew. reflexivity.
Qed.

(** Two uploads to the same slot, the second started before the first
    settled: whichever settles first and whatever the first gives, the slot
    ends with the URL of the second. The preview URLs of two uploads differ,
    and a remote URL is no preview URL. *)
Lemma last_started_wins (p : Page) (s : Slot) (a b photoUrl : string)
    (first : option string) :
  a <> b -> photoUrl <> a ->
  let started := startUpload s b (startUpload s a p) in
  let ua := {| slot := s; previewUrl := a |} in
  let ub := {| slot := s; previewUrl := b |} in
  held (currentIssue (resume ub (Some photoUrl) (resume ua first started))) s
  = Some photoUrl
  /\ held (currentIssue (resume ua first (resume ub (Some photoUrl) started))) s
     = Some photoUrl.
Proof.
  intros Hab Hua started ua ub.
  assert (Hb : held (currentIssue started) s = Some b) by apply held_start.
  unfold resume.
  cbn [currentIssue setPendingUploads setCurrentIssue].
  destruct (settleDraft_guard ua first (currentIssue started)) as [_ Hstale].
  destruct (settleDraft_guard ub (Some photoUrl) (currentIssue started))
    as [Hfresh _].
  cbn [slot previewUrl ua ub] in *.
  split.
  - rewrite Hstale by congruence.
    destruct (settleDraft_guard ub (Some photoUrl) (currentIssue started))
      as [Hwrite _].
    cbn [slot previewUrl ub] in Hwrite.
    rewrite Hwrite by assumption. eapply held_replaced; exact Hb.
  - rewrite Hfresh by assumption.
    destruct (settleDraft_guard ua first
                (replaced (currentIssue started) s (settledValue (Some photoUrl))))
      as [_ Hkeep].
    cbn [slot previewUrl ua] in Hkeep.
    assert (Hheld : held (replaced (currentIssue started) s
                            (settledValue (Some photoUrl))) s
                    = Some photoUrl)
      by (eapply held_replaced; exact Hb).
    rewrite Hkeep by (rewrite Hheld; congruence).
    exact Hheld.
Qed.

(** Two uploads to the same slot, the second started before the first
    settled: whichever settles first, the slot ends with the result of the
    second. *)
Example last_upload_wins :
  let chosen := [FileChosen (Case1Photo 1) "blob:a"; FileChosen (Case1Photo 1) "blob:b"] in
  held (currentIssue
          (run initialPage
             (chosen ++ [UploadSettled 0 (Some "https://a"); UploadSettled 0 (Some "https://b")])))
       (Case1Photo 1) = Some "https://b"
  /\ held (currentIssue
             (run initialPage
                (chosen ++ [UploadSettled 1 (Some "https://b"); UploadSettled 0 (Some "https://a")])))
          (Case1Photo 1) = Some "https://b"
  /\ held (currentIssue
             (run initialPage
                (chosen ++ [UploadSettled 1 (Some "https://b"); UploadSettled 0 None])))
          (Case1Photo 1) = Some "https://b".
Proof. repeat split; vm_compute; reflexivity. Qed.

(** ** The pending-uploads counter *)

Lemma decrementPending_pos (count : Z) :
  (1 <= count)%Z -> decrementPending count = (count - 1)%Z.
Proof. unfold decrementPending. lia. Qed.

Lemma decrementPending_nonneg (count : Z) : (0 <= decrementPending count)%Z.
Proof. unfold decrementPending. lia. Qed.

(** Only the two upload events touch the counter and the waiting handlers. *)
Lemma step_counter (p : Page) (e : Event) :
  match e with
  | FileChosen _ _ =>
      pendingUploads (step p e) = incrementPending (pendingUploads p)
      /\ length (awaiting (step p e)) = S (length (awaiting p))
  | UploadSettled k _ =>
      if decide (k < length (awaiting p))%nat
      then pendingUploads (step p e) = decrementPending (pendingUploads p)
           /\ S (length (awaiting (step p e))) = length (awaiting p)
      else step p e = p
  | _ =>
      pendingUploads (step p e) = pendingUploads p
      /\ awaiting (step p e) = awaiting p
  end.
Proof.
  destruct e; cbn; try (split; reflexivity).
  - destruct s; cbn; rewrite length_app; cbn; split; (reflexivity || lia).
  - unfold settleUpload. case_decide as Hk.
    + destruct (lookup_lt_is_Some_2 _ _ Hk) as [u Hu]. rewrite Hu. cbn.
      split; [reflexivity |]. rewrite length_delete by eauto. lia.
    + rewrite lookup_ge_None_2 by lia. reflexivity.
Qed.

(** The counter exceeds a base value by the number of waiting handlers. *)
Lemma counter_tracks_awaiting (base : Z) (events : list Event) (p : Page) :
  (0 <= base)%Z ->
  pendingUploads p = (base + Z.of_nat (length (awaiting p)))%Z ->
  pendingUploads (run p events)
  = (base + Z.of_nat (length (awaiting (run p events))))%Z.
Proof.
  intros Hbase. revert p.
  induction events as [|e events IH]; intros p Hp; [exact Hp |].
  cbn. apply IH. pose proof (step_counter p e) as Hs.
  destruct e; try (destruct Hs as [-> ->]; exact Hp).
  - destruct Hs as [-> ->]. unfold incrementPending. lia.
  - case_decide as Hk; [| rewrite Hs; exact Hp].
    destruct Hs as [-> Hlen].
    rewrite decrementPending_pos by lia. lia.
Qed.

(** C6: starting from a page on which no upload is open, after any sequence
    of events the counter is its starting value plus the number of uploads
    that are open: choosing a file adds exactly 1 before the upload runs,
    and each upload that settles, with a URL or with an error, takes exactly
    1 off; so once all have settled the counter is back at its starting
    value. *)
Theorem pendingUploads_exact (p : Page) (events : list Event) :
  awaiting p = [] ->
  (0 <= pendingUploads p)%Z ->
  let p' := run p events in
  pendingUploads p' = (pendingUploads p + Z.of_nat (length (awaiting p')))%Z
  /\ (forall s url,
        pendingUploads (step p' (FileChosen s url)) = (pendingUploads p' + 1)%Z)
  /\ (forall k result,
        (k < length (awaiting p'))%nat ->
        pendingUploads (step p' (UploadSettled k result))
        = (pendingUploads p' - 1)%Z)
  /\ (awaiting p' = [] -> pendingUploads p' = pendingUploads p).
Proof.
  intros Hopen Hnonneg p'.
  assert (Htrack : pendingUploads p'
                   = (pendingUploads p + Z.of_nat (length (awaiting p')))%Z).
  { apply counter_tracks_awaiting; [assumption |]. rewrite Hopen. cbn. lia. }
  split; [exact Htrack |]. split; [| split].
  - intros s url. apply (step_counter p' (FileChosen s url)).
  - intros k result Hk.
    pose proof (step_counter p' (UploadSettled k result)) as Hs. cbn beta iota in Hs.
    case_decide; [| lia]. destruct Hs as [-> _].
    apply decrementPending_pos. lia.
  - intros Hnone. rewrite Htrack, Hnone. cbn. lia.
Qed.

Lemma pendingUploads_exact_witness :
  let p' :=
    run initialPage
      [FileChosen (Case1Photo 0) "blob:a"; FileChosen (Case2Photo 2) "blob:b";
       UploadSettled 1 None; UploadSettled 0 (Some "https://a")] in
  awaiting p' = [] /\ pendingUploads p' = 0%Z.
Proof.
  cbv zeta. split; [reflexivity |].
  apply (pendingUploads_exact initialPage
           [FileChosen (Case1Photo 0) "blob:a"; FileChosen (Case2Photo 2) "blob:b";
            UploadSettled 1 None; UploadSettled 0 (Some "https://a")]);
    [reflexivity | cbn; lia | reflexivity].
Defined.

(** C10: the counter starts at 0 and is never negative: not after any
    sequence of increments and clamped decrements, matched or not, and so in
    no state the page reaches. *)
Theorem pendingUploads_nonneg :
  (forall updates : list CounterUpdate,
      (0 <= fold_left apply_update updates 0)%Z)
  /\ (forall events : list Event,
        (0 <= pendingUploads (run initialPage events))%Z).
Proof.
  split.
  - intros updates.
    assert (H : forall c, (0 <= c)%Z -> (0 <= fold_left apply_update updates c)%Z).
    { induction updates as [|u updates IH]; intros c Hc; [exact Hc |].
      cbn. apply IH. destruct u; cbn; unfold incrementPending, decrementPending; lia. }
    apply H. lia.
  - intros events.
    assert (H : forall p, (0 <= pendingUploads p)%Z ->
                          (0 <= pendingUploads (run p events))%Z).
    { induction events as [|e events IH]; intros p Hp; [exact Hp |].
      cbn. apply IH. pose proof (step_counter p e) as Hs.
      destruct e; try (destruct Hs as [-> _]; exact Hp).
      - destruct Hs as [-> _]. unfold incrementPending. lia.
      - case_decide; [| rewrite Hs; exact Hp].
        destruct Hs as [-> _]. apply decrementPending_nonneg. }
    apply H. cbn. lia.
Qed.

(** An unmatched decrement leaves the counter at 0. *)
Example unmatched_decrement :
  fold_left apply_update [Decrement; Increment; Decrement; Decrement] 0%Z = 0%Z.
Proof. reflexivity. Qed.

(** ** The shape of the draft *)

Lemma formShape_editItem (i : nat) (f : Case2Item.t -> Case2Item.t)
    (d : IssueFormData) :
  formShape d -> formShape (editItem i f d).
Proof.
  unfold editItem, formShape.
  destruct (JS.index (items (case2Data d)) i); cbn; [| tauto].
  rewrite length_insert. tauto.
Qed.

Lemma formShape_case1_guarded (i : nat) (url v : string) (d : IssueFormData) :
  formShape d -> formShape (handleCase1PhotoUpload.guarded i url v d).
Proof.
  intros Hd. destruct (case1_guarded i url v d) as [Hheld Hother].
  destruct (JS.strict_ne (held d (Case1Photo i)) url) eqn:E.
  { rewrite Hother; [exact Hd |].
    intros H. apply strict_ne_false in H. congruence. }
  apply strict_ne_false in E. rewrite Hheld by assumption. unfold formShape in *. cbn.
  rewrite length_insert. exact Hd.
Qed.

Lemma formShape_case2_guarded (i : nat) (url v : string) (d : IssueFormData) :
  formShape d -> formShape (handleCase2PhotoUpload.guarded i url v d).
Proof.
  intros Hd. destruct (case2_guarded i url v d) as [Hheld Hother].
  destruct (JS.strict_ne (held d (Case2Photo i)) url) eqn:E.
  { rewrite Hother; [exact Hd |].
    intros H. apply strict_ne_false in H. congruence. }
  apply strict_ne_false in E. rewrite Hheld by assumption. unfold formShape, replaced in *.
  destruct (JS.index (items (case2Data d)) i); cbn; [| exact Hd].
  rewrite length_insert. exact Hd.
Qed.

Lemma formShape_hydrate (issue : Issue.t) : formShape (hydrate issue).
Proof.
  unfold hydrate, formShape.
  destruct (String.eqb (Issue.issue_type issue) "single"); cbn; lia.
Qed.

(** ** Handlers and renders *)

(** No handler touches what the last render captured. *)
Lemma handle_rendered (p : Page) (e : Event) :
  renderedIssue (handle p e) = renderedIssue p
  /\ renderedSubItems (handle p e) = renderedSubItems p.
Proof.
  destruct e as [l| |issue| |v|c|v|v|x|x|i v|i x|i x|s url|k result|];
    try (split; reflexivity).
  - destruct s; split; reflexivity.
  - cbn [handle]. unfold settleUpload.
    destruct (awaiting p !! k) as [u|]; split; reflexivity.
Qed.

(** A render touches no cell. *)
Lemma step_cells (p : Page) (e : Event) :
  currentIssue (step p e) = currentIssue (handle p e)
  /\ issueDialogMode (step p e) = issueDialogMode (handle p e)
  /\ editingIssueId (step p e) = editingIssueId (handle p e)
  /\ subItems (step p e) = subItems (handle p e)
  /\ pendingUploads (step p e) = pendingUploads (handle p e)
  /\ awaiting (step p e) = awaiting (handle p e).
Proof. unfold step. destruct (deferred e); repeat split. Qed.

(** After a step the rendered draft is the one of before or the cell. *)
Lemma step_rendered (p : Page) (e : Event) :
  renderedIssue (step p e)
  = if deferred e then renderedIssue p else currentIssue (step p e).
Proof.
  unfold step. destruct (deferred e); [apply handle_rendered | reflexivity].
Qed.

(** What the handlers keep of the cell, given that the rendered draft has it
    too, holds of both after a step. *)
Lemma step_both (P : IssueFormData -> Prop) (p : Page) (e : Event) :
  P (currentIssue (handle p e)) -> P (renderedIssue p) ->
  P (currentIssue (step p e)) /\ P (renderedIssue (step p e)).
Proof.
  intros Hc Hr. rewrite step_rendered.
  destruct (step_cells p e) as [-> _].
  destruct (deferred e); auto.
Qed.

(** What the handlers hold is the page of the last render: the cells after
    the events up to the last one that was rendered. A property of the cells
    after every sequence of events is therefore one of what the handlers
    hold as well. *)
Lemma rendered_at_prefix (events : list Event) :
  exists before since,
    events = (before ++ since)%list
    /\ forallb deferred since = true
    /\ renderedIssue (run initialPage events)
       = currentIssue (run initialPage before)
    /\ renderedSubItems (run initialPage events)
       = subItems (run initialPage before).
Proof.
  induction events as [|e events IH] using rev_ind.
  - exists [], []. repeat split.
  - destruct IH as (before & since & -> & Hsince & Hi & Hs).
    unfold run in *. rewrite fold_left_app. cbn [fold_left].
    destruct (deferred e) eqn:He.
    + exists before, (since ++ [e])%list.
      split; [rewrite app_assoc; reflexivity |].
      split; [rewrite forallb_app; cbn; rewrite Hsince, He; reflexivity |].
      assert (Hstep : forall q, step q e = handle q e)
        by (intros q; unfold step; rewrite He; reflexivity).
      rewrite Hstep.
      destruct (handle_rendered (fold_left step (before ++ since)%list initialPage) e)
        as [-> ->].
      auto.
    + exists ((before ++ since) ++ [e])%list, [].
      rewrite app_nil_r. split; [reflexivity |]. split; [reflexivity |].
      assert (Hstep : forall q, step q e = render (handle q e))
        by (intros q; unfold step; rewrite He; reflexivity).
      rewrite (fold_left_app step (before ++ since)%list [e]).
      cbn [fold_left]. rewrite Hstep.
      split; reflexivity.
Qed.

(** ** The shape of the draft, through the events *)

(** Every event of a rendered control keeps the shape. *)
Lemma formShape_handle (p : Page) (e : Event) :
  rendered p e = true ->
  formShape (currentIssue p) -> formShape (renderedIssue p) ->
  formShape (currentIssue (handle p e)).
Proof.
  intros He Hp Hr.
  destruct e as [l| |issue| |v|c|v|v|x|x|i v|i x|i x|s url|k result|];
    cbn in *; try exact Hp; try exact Hr;
    try (unfold formShape; cbn; lia);
    try (apply formShape_editItem; exact Hr).
  - apply formShape_hydrate.
  - destruct s as [index|itemIndex]; cbn in *; unfold formShape in *; cbn.
    + rewrite length_assign. apply Nat.leb_le in He. lia.
    + rewrite length_assign.
      first [apply Nat.ltb_lt in He | apply Nat.leb_le in He]. lia.
  - unfold settleUpload. destruct (awaiting p !! k) as [u|]; [| exact Hp].
    cbn. destruct u as [[index|itemIndex] url], result as [photoUrl|]; cbn;
      first [ apply formShape_case1_guarded | apply formShape_case2_guarded ];
      exact Hp.
Qed.

Lemma formShape_step (p : Page) (e : Event) :
  rendered p e = true ->
  formShape (currentIssue p) -> formShape (renderedIssue p) ->
  formShape (currentIssue (step p e)) /\ formShape (renderedIssue (step p e)).
Proof.
  intros He Hp Hr. apply step_both; [| exact Hr].
  apply formShape_handle; assumption.
Qed.

Lemma formShape_run (events : list Event) (p : Page) :
  from_form p events = true ->
  formShape (currentIssue p) -> formShape (renderedIssue p) ->
  formShape (currentIssue (run p events))
  /\ formShape (renderedIssue (run p events)).
Proof.
  revert p. induction events as [|e events IH]; intros p Hf Hp Hr; [auto |].
  cbn in Hf. apply andb_true_iff in Hf as [He Hf].
  destruct (formShape_step p e He Hp Hr) as [Hp' Hr'].
  cbn. apply IH; assumption.
Qed.

(** The draft has the shape in every state the dialog reaches. *)
Lemma formShape_reached (events : list Event) :
  from_form initialPage events = true ->
  formShape (currentIssue (run initialPage events)).
Proof.
  intros Hf. apply (formShape_run events initialPage Hf); unfold formShape; cbn; lia.
Qed.

(** ** Saving an edited issue *)

Lemma length_omap_le {A B} (f : A -> option B) (l : list A) :
  (length (omap f l) <= length l)%nat.
Proof.
  induction l as [|a l IH]; cbn; [lia |].
  destruct (f a); cbn; lia.
Qed.

(** An array without a hole. *)
Lemma omap_id_full {A} (l : list (option A)) :
  length (omap id l) = length l -> l = List.map Some (omap id l).
Proof.
  induction l as [|[a|] l IH]; cbn; intros Hlen; [reflexivity | |].
  - f_equal. apply IH. lia.
  - pose proof (length_omap_le id l). cbn in *. lia.
Qed.

Lemma rowsOf_map_Some {A} (l : list A) : rowsOf (List.map Some l) = l.
Proof. unfold rowsOf. induction l as [|a l IH]; cbn; [| rewrite IH]; reflexivity. Qed.

Lemma rowsOf_map {A B} (g : A -> B) (l : list (option A)) :
  rowsOf (List.map (option_map g) l) = List.map g (rowsOf l).
Proof.
  unfold rowsOf. induction l as [|[a|] l IH]; cbn; [| rewrite IH |]; auto.
Qed.

(** A valid draft of the dialog's shape has a value in every photo slot of
    its variant and an entry in every slot of [items]. *)
Lemma valid_slots_full (d : IssueFormData) :
  formShape d ->
  validate_run d = None ->
  match caseType d with
  | case1 =>
      length (Case1Data.photos (case1Data d)) = 3%nat
      /\ Case1Data.photos (case1Data d)
         = List.map Some (rowsOf (Case1Data.photos (case1Data d)))
  | case2 =>
      items (case2Data d) = List.map Some (rowsOf (items (case2Data d)))
  end.
Proof.
  intros [Hitems Hphotos] Hvalid. unfold rowsOf.
  destruct (caseType d) eqn:Hc.
  - apply (validate_run_case1 d Hc) in Hvalid as (_ & _ & Hthree & _).
    pose proof (filter_length_le JS.truthy_string
                  (omap id (Case1Data.photos (case1Data d)))) as Hle.
    pose proof (length_omap_le id (Case1Data.photos (case1Data d))).
    unfold nonempty_photos, filter_holes in Hthree.
    split; [lia | apply omap_id_full; lia].
  - apply (validate_run_case2 d Hc) in Hvalid as (_ & Hthree).
    pose proof (filter_length_le valid_item (omap id (items (case2Data d)))) as Hle.
    pose proof (length_omap_le id (items (case2Data d))).
    unfold validItems, filter_holes in Hthree.
    apply omap_id_full. lia.
Qed.

(** A valid draft of the dialog's shape gives the payloads of its variant:
    1 and 3 elements for case 1, 3 and 3 for case 2, each of them a row. *)
Lemma valid_rows_count (subs : list SubItem.t) (issueId : string)
    (d : IssueFormData) :
  formShape d ->
  validate_run d = None ->
  (length (itemRows subs issueId d), length (photoRows issueId d))
  = cardinality (caseType d)
  /\ itemRows subs issueId d = List.map Some (rowsOf (itemRows subs issueId d))
  /\ photoRows issueId d = List.map Some (rowsOf (photoRows issueId d)).
Proof.
  intros Hshape Hvalid.
  pose proof (valid_slots_full d Hshape Hvalid) as Hfull.
  destruct Hshape as [Hitems Hphotos].
  unfold itemRows, photoRows.
  destruct (caseType d) eqn:Hc; cbn [cardinality].
  - destruct Hfull as [Hlen Hfull]. rewrite length_map, Hlen.
    split; [reflexivity |]. split; [reflexivity |].
    rewrite rowsOf_map. rewrite Hfull at 1.
    rewrite !List.map_map. reflexivity.
  - rewrite !length_map, Hitems. split; [reflexivity |].
    rewrite !rowsOf_map. split; rewrite Hfull at 1;
      rewrite !List.map_map; reflexivity.
Qed.

Lemma itemRows_issue_id (subs : list SubItem.t) (issueId : string)
    (d : IssueFormData) :
  Forall (fun r => ItemRow.issue_id r = issueId)
    (rowsOf (itemRows subs issueId d)).
Proof.
  unfold itemRows. destruct (caseType d).
  - repeat constructor.
  - rewrite rowsOf_map. apply List.Forall_map. apply Forall_forall.
    intros; reflexivity.
Qed.

Lemma photoRows_issue_id (issueId : string) (d : IssueFormData) :
  Forall (fun r => PhotoRow.issue_id r = issueId) (rowsOf (photoRows issueId d)).
Proof.
  unfold photoRows. destruct (caseType d);
    rewrite rowsOf_map; apply List.Forall_map; apply Forall_forall;
    intros; reflexivity.
Qed.

(** After delete-then-insert the rows under a key are the inserted ones. *)
Lemma replace_rows {A} (key : A -> string) (v : string) (old rows : list A) :
  Forall (fun r => key r = v) rows ->
  List.filter (fun r => String.eqb (key r) v)
    (List.filter (fun r => negb (String.eqb (key r) v)) old ++ rows)
  = rows.
Proof.
  intros Hrows. rewrite List.filter_app.
  assert (Hold : List.filter (fun r => String.eqb (key r) v)
                   (List.filter (fun r => negb (String.eqb (key r) v)) old) = []).
  { induction old as [|a old IH]; cbn; [reflexivity |].
    destruct (String.eqb (key a) v) eqn:E; cbn; [exact IH |].
    rewrite E. exact IH. }
  rewrite Hold. cbn.
  induction Hrows as [|r rows Hr _ IH]; cbn; [reflexivity |].
  rewrite Hr, String.eqb_refl, IH. reflexivity.
Qed.

(** A successful edit-save leaves, for the issue, exactly the rows of the
    draft in the two child tables, whatever the draft and whatever the store
    held before. *)
Lemma saveEdited_rows (o : SaveOutcome) (subs : list SubItem.t)
    (reportId issueId : string) (d : IssueFormData) (st : Store) :
  allSucceed o = true ->
  snd (saveEdited o subs reportId issueId d st) = Saved
  /\ itemsOf issueId (fst (saveEdited o subs reportId issueId d st))
     = rowsOf (itemRows subs issueId d)
  /\ photosOf issueId (fst (saveEdited o subs reportId issueId d st))
     = rowsOf (photoRows issueId d).
Proof.
  intros Hok. unfold allSucceed in Hok. rewrite !andb_true_iff in Hok.
  destruct Hok as ((((Hu & Hdi) & Hdp) & Hii) & Hip).
  unfold saveEdited, request. rewrite Hu, Hdi, Hdp, Hii, Hip. cbn [negb fst snd].
  split; [reflexivity |]. split.
  - unfold itemsOf. cbn.
    apply (replace_rows ItemRow.issue_id). apply itemRows_issue_id.
  - unfold photosOf. cbn.
    apply (replace_rows PhotoRow.issue_id). apply photoRows_issue_id.
Qed.

(** C7: the page is in any state the dialog can reach, editing an issue; the
    save passes its guards and every request succeeds. Then the store holds,
    for that issue, exactly the item rows and photo rows of the draft and
    none from before: 1 item and 3 photos for case 1, 3 items and 3 photos
    for case 2. Every element of the two payloads is one of these rows. *)
Theorem edit_save_cardinality (events : list Event) (reportId issueId : string)
    (o : SaveOutcome) (st st' : Store) :
  from_form initialPage events = true ->
  let p := run initialPage events in
  issueDialogMode p = edit ->
  editingIssueId p = Some issueId ->
  nonempty issueId ->
  allSucceed o = true ->
  handleSaveIssue false (Some reportId) o p st = (st', Saved) ->
  (length (itemsOf issueId st'), length (photosOf issueId st'))
  = cardinality (caseType (currentIssue p))
  /\ itemRows (subItems p) issueId (currentIssue p)
     = List.map Some (itemsOf issueId st')
  /\ photoRows issueId (currentIssue p) = List.map Some (photosOf issueId st').
Proof.
  intros Hform p Hmode Hid Hne Hok Hsave.
  assert (Hshape : formShape (currentIssue p)).
  { apply formShape_reached. exact Hform. }
  unfold handleSaveIssue in Hsave.
  destruct (0 <? pendingUploads p)%Z; [discriminate |].
  destruct (validate_run (currentIssue p)) eqn:Hvalid; [discriminate |].
  rewrite Hmode, Hid in Hsave.
  rewrite (proj2 (truthy_string_iff issueId) Hne) in Hsave.
  destruct (saveEdited_rows o (subItems p) reportId issueId (currentIssue p) st Hok)
    as (_ & Hitems & Hphotos).
  rewrite Hsave in Hitems, Hphotos. cbn [fst] in Hitems, Hphotos.
  rewrite Hitems, Hphotos.
  destruct (valid_rows_count (subItems p) issueId (currentIssue p) Hshape Hvalid)
    as (Hcount & Hi & Hp).
  split; [| split; assumption].
  rewrite <- Hcount. f_equal.
  - rewrite Hi at 2. rewrite length_map. reflexivity.
  - rewrite Hp at 2. rewrite length_map. reflexivity.
Qed.

Lemma edit_save_cardinality_witness :
  let p := run initialPage [EditIssueClicked persisted_single] in
  let st' := fst (handleSaveIssue false (Some "r1") all_fine p used_store) in
  (length (itemsOf "i1" st'), length (photosOf "i1" st')) = (1, 3)%nat
  /\ itemRows (subItems p) "i1" (currentIssue p)
     = List.map Some (itemsOf "i1" st')
  /\ photoRows "i1" (currentIssue p) = List.map Some (photosOf "i1" st').
Proof.
  cbv zeta.
  apply (edit_save_cardinality [EditIssueClicked persisted_single] "r1" "i1"
           all_fine used_store
           (fst (handleSaveIssue false (Some "r1") all_fine
                   (run initialPage [EditIssueClicked persisted_single])
                   used_store)));
    [reflexivity | reflexivity | reflexivity | discriminate | reflexivity
    | vm_compute; reflexivity].
Defined.

Example edit_save_case2 :
  let p := run initialPage
             [EditIssueClicked persisted_multiple;
              FileChosen (Case2Photo 1) "blob:b"; UploadSettled 0 (Some "https://b")] in
  let st' := fst (handleSaveIssue false (Some "r1") all_fine p used_store) in
  length (itemsOf "i2" st') = 3%nat /\ length (photosOf "i2" st') = 3%nat
  /\ length (itemsOf "i1" st') = 3%nat.
Proof. repeat split; vm_compute; reflexivity. Qed.

(** The delete requests are what keeps old rows out: when they fail (the page
    does not look at the error) the rows of the earlier save stay. *)
Example edit_save_failed_delete :
  let p := run initialPage [EditIssueClicked persisted_single] in
  let o := {| created := Throws; updateOk := true; deleteItemsOk := false;
              deletePhotosOk := false; insertItemsOk := true;
              insertPhotosOk := true |} in
  let st' := fst (handleSaveIssue false (Some "r1") o p used_store) in
  length (itemsOf "i1" st') = 4%nat /\ length (photosOf "i1" st') = 6%nat.
Proof. repeat split; vm_compute; reflexivity. Qed.

(** A draft with a fourth entry passes the validation when three entries are
    valid, and its save writes a row per entry. No event of the dialog makes
    such a draft ([formShape_reached]). *)
Example save_of_four_entries :
  let p := setCurrentIssue (fun _ => four_entries)
             (openEditIssueDialog persisted_multiple initialPage) in
  let st' := fst (handleSaveIssue false (Some "r1") all_fine p used_store) in
  validateIssue four_entries = true
  /\ length (itemsOf "i2" st') = 4%nat /\ length (photosOf "i2" st') = 4%nat.
Proof. repeat split; vm_compute; reflexivity. Qed.

(** ** Deleting a report *)

Lemma send_prefix (throws : Mutation -> bool) (plan : list Mutation) :
  fst (send throws plan) `prefix_of` plan
  /\ (snd (send throws plan) = true -> fst (send throws plan) = plan).
Proof.
  induction plan as [|m plan [IHp IHa]]; cbn.
  - split; [apply prefix_nil | reflexivity].
  - destruct (throws m); cbn.
    + split; [apply (prefix_cons m), prefix_nil | discriminate].
    + destruct (send throws plan) as [sent ok]; cbn in *.
      split; [apply prefix_cons; exact IHp | intros H; rewrite IHa; auto].
Qed.

(** In the plan every mutation on the children comes before the one on the
    issues, and that one before the one on the report. *)
Lemma deletePlan_ordered (v : string) (issueIds : list string) (i j : nat)
    (a b : Mutation) :
  deletePlan v issueIds !! i = Some a ->
  deletePlan v issueIds !! j = Some b ->
  depends (target a) (target b) = true ->
  (i < j)%nat.
Proof.
  unfold deletePlan. destruct issueIds as [|x issueIds]; cbn [length Nat.ltb Nat.leb app].
  - destruct i as [|i], j as [|j]; cbn; intros Ha Hb; try discriminate.
    injection Ha as <-. injection Hb as <-. cbn. discriminate.
  - destruct i as [|[|[|[|i]]]], j as [|[|[|[|j]]]]; cbn; intros Ha Hb;
      try discriminate; try lia;
      injection Ha as <-; injection Hb as <-; cbn; discriminate.
Qed.

(** C8: the mutations of a report delete are sent in the order of the plan:
    the rows of [issue_items] for the issue ids of the report, then those of
    [issue_photos], then the [report_issues] rows, then the report. Whatever
    is sent is a beginning of that sequence, so a mutation on the children
    always comes before the one on the issues, and that one before the one
    on the report; a delete that went through sent all of them. *)
Theorem delete_report_order (id : option string) (confirmed : bool)
    (issueIds : list string) (throws : Mutation -> bool)
    (sent : list Mutation) (result : DeleteResult) :
  handleDeleteReport id confirmed issueIds throws = (sent, result) ->
  (forall i j a b,
      sent !! i = Some a -> sent !! j = Some b ->
      depends (target a) (target b) = true -> (i < j)%nat)
  /\ (forall v, id = Some v -> sent `prefix_of` deletePlan v issueIds)
  /\ (result = Deleted -> exists v, id = Some v /\ sent = deletePlan v issueIds)
  /\ (forall v, issueIds <> [] ->
        deletePlan v issueIds
        = [DeleteIn "issue_items" "issue_id" issueIds;
           DeleteIn "issue_photos" "issue_id" issueIds;
           DeleteIn "report_issues" "id" issueIds;
           DeleteReport v]).
Proof.
  intros Hrun.
  assert (Hpre : forall v, id = Some v -> sent `prefix_of` deletePlan v issueIds).
  { intros v ->. unfold handleDeleteReport in Hrun.
    destruct (JS.truthy_string v); cbn [negb] in Hrun;
      [| injection Hrun as <- _; apply prefix_nil].
    destruct confirmed; cbn [negb] in Hrun;
      [| injection Hrun as <- _; apply prefix_nil].
    pose proof (send_prefix throws (deletePlan v issueIds)) as [Hp _].
    destruct (send throws (deletePlan v issueIds)) as [sent0 ok0].
    injection Hrun as <- _. exact Hp. }
  split; [| split; [exact Hpre | split]].
  - intros i j a b Ha Hb Hdep.
    destruct id as [v|];
      [| cbn in Hrun; injection Hrun as <- _; discriminate].
    destruct (Hpre v eq_refl) as [rest Hrest].
    apply (deletePlan_ordered v issueIds i j a b); [| | exact Hdep];
      rewrite Hrest; apply lookup_app_l_Some; assumption.
  - intros ->. unfold handleDeleteReport in Hrun.
    destruct id as [v|]; [| discriminate].
    destruct (JS.truthy_string v); cbn [negb] in Hrun; [| discriminate].
    destruct confirmed; cbn [negb] in Hrun; [| discriminate].
    pose proof (send_prefix throws (deletePlan v issueIds)) as [_ Hall].
    destruct (send throws (deletePlan v issueIds)) as [sent0 ok0].
    destruct ok0; [| discriminate].
    injection Hrun as <-. exists v. split; [reflexivity | apply Hall; reflexivity].
  - intros v Hne. unfold deletePlan.
    destruct issueIds; [contradiction | reflexivity].
Qed.

Lemma delete_report_order_witness :
  fst (handleDeleteReport (Some "r1") true ["i1"; "i2"] (fun _ => false))
  = [DeleteIn "issue_items" "issue_id" ["i1"; "i2"];
     DeleteIn "issue_photos" "issue_id" ["i1"; "i2"];
     DeleteIn "report_issues" "id" ["i1"; "i2"];
     DeleteReport "r1"].
Proof.
  destruct (delete_report_order (Some "r1") true ["i1"; "i2"] (fun _ => false)
              (fst (handleDeleteReport (Some "r1") true ["i1"; "i2"]
                      (fun _ => false)))
              Deleted eq_refl)
    as (_ & _ & Hall & _).
  destruct (Hall eq_refl) as (v & Hv & Hsent).
  injection Hv as <-. exact Hsent.
Defined.

(** A report without loaded issues: only the report is deleted. A failing
    request ends the sequence where it stands. *)
Example delete_report_without_issues :
  handleDeleteReport (Some "r1") true [] (fun _ => false)
  = ([DeleteReport "r1"], Deleted).
Proof. reflexivity. Qed.

Example delete_report_interrupted :
  handleDeleteReport (Some "r1") true ["i1"]
    (fun m => match m with DeleteIn "issue_photos" _ _ => true | _ => false end)
  = ([DeleteIn "issue_items" "issue_id" ["i1"];
      DeleteIn "issue_photos" "issue_id" ["i1"]], DeleteFailed).
Proof. reflexivity. Qed.

(** ** The map-photo endpoint *)

Section MapPhotoHandler.

Variable parseFloat : string -> JS.number.
Variable show_status : Z -> string.
Variable show_number : JS.number -> string.

Let handler := MapPhoto.handler parseFloat show_status show_number.
Let fetchAndStore := MapPhoto.fetchAndStore parseFloat show_status show_number.
Let template := MapPhoto.template show_number.
Let resolved := MapPhotoSpec.resolved parseFloat.
Let bad_coordinate := MapPhotoSpec.bad_coordinate parseFloat.

(** [latNum] and [lngNum] against the words: the handler's value is the
    resolved number, or is not a number at all. *)
Lemma coordinate_resolved (v : MapPhoto.Value) :
  match resolved v with
  | Some x => MapPhoto.coordinate parseFloat v = MapPhoto.VNumber x
  | None => MapPhoto.is_number (MapPhoto.coordinate parseFloat v) = false
  end.
Proof. destruct v; reflexivity. Qed.

Lemma coordinate_bad (v : MapPhoto.Value) :
  negb (MapPhoto.is_number (MapPhoto.coordinate parseFloat v))
  || MapPhoto.isNaN (MapPhoto.coordinate parseFloat v)
  = bad_coordinate v.
Proof. destruct v; reflexivity. Qed.

(** [resolvedId] against the words. *)
Lemma identifier_resolvedId (r : MapPhoto.Request) :
  match MapPhotoSpec.identifier r with
  | Some id => MapPhoto.resolvedId r = id /\ MapPhoto.truthy id = true
  | None => MapPhoto.truthy (MapPhoto.resolvedId r) = false
  end.
Proof.
  unfold MapPhotoSpec.identifier, MapPhoto.resolvedId, MapPhoto.or.
  destruct (MapPhoto.truthy (MapPhoto.targetId r)) eqn:Ht; [auto |].
  destruct (MapPhoto.truthy (MapPhoto.reportId r)) eqn:Hr; auto.
Qed.

(** The 400 condition in the words of the specification. *)
Lemma rejected_iff (r : MapPhoto.Request) :
  MapPhoto.rejected parseFloat r = true <->
  bad_coordinate (MapPhoto.lat r) = true
  \/ bad_coordinate (MapPhoto.lng r) = true
  \/ MapPhotoSpec.identifier r = None.
Proof.
  rewrite <- !coordinate_bad. unfold MapPhoto.rejected.
  pose proof (identifier_resolvedId r) as Hid.
  destruct (MapPhotoSpec.identifier r) as [id|].
  - destruct Hid as (-> & ->).
    rewrite !orb_true_iff, !negb_true_iff. intuition discriminate.
  - rewrite Hid. rewrite !orb_true_iff, !negb_true_iff. cbn. tauto.
Qed.

(** What a request that passed the test holds. *)
Lemma accepted_request (r : MapPhoto.Request) (key : string) :
  MapPhoto.rejected parseFloat r = false ->
  exists latitude longitude id,
    resolved (MapPhoto.lat r) = Some latitude
    /\ resolved (MapPhoto.lng r) = Some longitude
    /\ MapPhotoSpec.identifier r = Some id
    /\ MapPhoto.resolvedId r = id
    /\ MapPhoto.mapUrl parseFloat show_number r key
       = MapPhoto.Ok
           (MapPhoto.staticMapUrl (show_number latitude) (show_number longitude)
              key).
Proof.
  intros Hrej. unfold MapPhoto.rejected in Hrej.
  rewrite !orb_false_iff, !negb_false_iff in Hrej.
  destruct Hrej as ((((Hlat & Hlng) & Hid) & _) & _).
  pose proof (coordinate_resolved (MapPhoto.lat r)) as Hla.
  pose proof (coordinate_resolved (MapPhoto.lng r)) as Hlo.
  pose proof (identifier_resolvedId r) as Hi.
  destruct (resolved (MapPhoto.lat r)) as [latitude|]; [| congruence].
  destruct (resolved (MapPhoto.lng r)) as [longitude|]; [| congruence].
  destruct (MapPhotoSpec.identifier r) as [id|]; [| congruence].
  exists latitude, longitude, id.
  split; [reflexivity |]. split; [reflexivity |]. split; [reflexivity |].
  split; [apply Hi |].
  unfold MapPhoto.mapUrl. rewrite Hla, Hlo. reflexivity.
Qed.

(** The answers of the [try] block. *)
Local Ltac simpl_code :=
  cbn [MapPhoto.code MapPhoto.body MapPhoto.respond MapPhoto.unexpected].

Lemma fetchAndStore_codes (w : MapPhoto.World) (r : MapPhoto.Request)
    (key : string) :
  MapPhoto.code (fetchAndStore w r key) = 200%Z
  \/ MapPhoto.code (fetchAndStore w r key) = 502%Z
  \/ MapPhoto.code (fetchAndStore w r key) = 500%Z.
Proof.
  unfold fetchAndStore, MapPhoto.fetchAndStore.
  destruct (MapPhoto.mapUrl _ _ r key) as [url|t]; [| simpl_code; auto].
  destruct (MapPhoto.fetch w url) as [m|t]; [| simpl_code; auto].
  destruct (MapPhoto.ok m); cbn [negb].
  - destruct (MapPhoto.arrayBuffer m) as [buffer|t]; [| simpl_code; auto].
    destruct (MapPhoto.storagePath _ r) as [path|t]; [| simpl_code; auto].
    destruct (MapPhoto.upload w path buffer) as [[message|]|t]; simpl_code; auto.
  - destruct (MapPhoto.text m) as [txt|t]; simpl_code; auto.
Qed.

Lemma fetchAndStore_code (w : MapPhoto.World) (r : MapPhoto.Request)
    (key url : string) :
  MapPhoto.mapUrl parseFloat show_number r key = MapPhoto.Ok url ->
  let response := fetchAndStore w r key in
  (MapPhoto.code response = 200%Z <->
   exists m buffer path,
     MapPhoto.fetch w url = MapPhoto.Ok m /\ MapPhoto.ok m = true
     /\ MapPhoto.arrayBuffer m = MapPhoto.Ok buffer
     /\ MapPhoto.storagePath show_number r = MapPhoto.Ok path
     /\ MapPhoto.upload w path buffer = MapPhoto.Ok None)
  /\ (forall path,
        MapPhoto.storagePath show_number r = MapPhoto.Ok path ->
        MapPhoto.code response = 200%Z ->
        MapPhoto.body response
        = MapPhoto.SuccessBody (MapPhoto.getPublicUrl w path) path)
  /\ (MapPhoto.code response = 502%Z <->
      exists m txt,
        MapPhoto.fetch w url = MapPhoto.Ok m /\ MapPhoto.ok m = false
        /\ MapPhoto.text m = MapPhoto.Ok txt).
Proof.
  intros Hurl. cbv zeta. unfold fetchAndStore, MapPhoto.fetchAndStore.
  rewrite Hurl.
  destruct (MapPhoto.fetch w url) as [m|t] eqn:Hfetch.
  2:{ simpl_code. repeat split; try discriminate.
      - intros (m & ? & ? & Hm & _); discriminate.
      - intros (m & ? & Hm & _); discriminate. }
  destruct (MapPhoto.ok m) eqn:Hok; cbn [negb].
  - destruct (MapPhoto.arrayBuffer m) as [buffer|t] eqn:Hbuf.
    2:{ simpl_code. repeat split; try discriminate.
        - intros (m' & b & p & [= <-] & _ & Hb & _). congruence.
        - intros (m' & txt & [= <-] & Hok' & _). congruence. }
    destruct (MapPhoto.storagePath show_number r) as [path|t] eqn:Hpath.
    2:{ simpl_code. repeat split; try discriminate.
        - intros (m' & b & p & [= <-] & _ & _ & Hp & _). congruence.
        - intros (m' & txt & [= <-] & Hok' & _). congruence. }
    destruct (MapPhoto.upload w path buffer) as [[message|]|t] eqn:Hup; simpl_code.
    + repeat split; try discriminate.
      * intros (m' & b & p & [= <-] & _ & Hb & [= <-] & Hu). congruence.
      * intros (m' & txt & [= <-] & Hok' & _). congruence.
    + repeat split; try discriminate.
      * intros _. exists m, buffer, path. auto.
      * intros p [= <-] _. reflexivity.
      * intros (m' & txt & [= <-] & Hok' & _). congruence.
    + repeat split; try discriminate.
      * intros (m' & b & p & [= <-] & _ & Hb & [= <-] & Hu). congruence.
      * intros (m' & txt & [= <-] & Hok' & _). congruence.
  - destruct (MapPhoto.text m) as [txt|t] eqn:Htxt; simpl_code.
    + repeat split; try discriminate.
      * intros (m' & b & p & [= <-] & Hok' & _). congruence.
      * intros _. exists m, txt. auto.
    + repeat split; try discriminate.
      * intros (m' & b & p & [= <-] & Hok' & _). congruence.
      * intros (m' & txt & [= <-] & _ & Ht). congruence.
Qed.

(** C9: a request whose method is not POST is answered with 405. For a POST
    request, when an API key is configured, the answer is 400 exactly when
    the latitude or the longitude of the request resolves to no number or to
    NaN, or neither [targetId] nor [reportId] gives an identifier. Otherwise
    the handler fetches the map of the two resolved numbers and stores it:
    200 with the URL and the path exactly when the provider answered in the
    2xx range, the identifier has a text and the image was stored under the
    path of that text; 502 exactly when the provider answered outside the
    2xx range; 500 in every other case: the storage reported an error, or
    something threw, as the conversion of an identifier that is an object
    without a primitive value does. *)
Theorem handler_status (w : MapPhoto.World) (r : MapPhoto.Request) :
  (MapPhoto.method r <> Some "POST" ->
   MapPhoto.code (handler w r) = 405%Z)
  /\ (MapPhoto.method r = Some "POST" ->
      MapPhoto.configured w = true ->
      (MapPhoto.code (handler w r) = 400%Z <->
       bad_coordinate (MapPhoto.lat r) = true
       \/ bad_coordinate (MapPhoto.lng r) = true
       \/ MapPhotoSpec.identifier r = None)
      /\ (MapPhoto.code (handler w r) <> 400%Z ->
          exists key latitude longitude id,
            MapPhoto.apiKey (MapPhoto.keys w) = Some key
            /\ resolved (MapPhoto.lat r) = Some latitude
            /\ resolved (MapPhoto.lng r) = Some longitude
            /\ MapPhotoSpec.identifier r = Some id
            /\ handler w r = fetchAndStore w r key
            /\ let url :=
                 MapPhoto.staticMapUrl (show_number latitude)
                   (show_number longitude) key in
               let path text :=
                 MapPhoto.photoPath (MapPhoto.safeType r) text in
               (MapPhoto.code (handler w r) = 200%Z <->
                exists m buffer text,
                  MapPhoto.fetch w url = MapPhoto.Ok m
                  /\ (200 <= MapPhoto.status m <= 299)%Z
                  /\ MapPhoto.arrayBuffer m = MapPhoto.Ok buffer
                  /\ template id = MapPhoto.Ok text
                  /\ MapPhoto.upload w (path text) buffer = MapPhoto.Ok None)
               /\ (forall text,
                     template id = MapPhoto.Ok text ->
                     MapPhoto.code (handler w r) = 200%Z ->
                     MapPhoto.body (handler w r)
                     = MapPhoto.SuccessBody
                         (MapPhoto.getPublicUrl w (path text)) (path text))
               /\ (MapPhoto.code (handler w r) = 502%Z <->
                   exists m txt,
                     MapPhoto.fetch w url = MapPhoto.Ok m
                     /\ ~ (200 <= MapPhoto.status m <= 299)%Z
                     /\ MapPhoto.text m = MapPhoto.Ok txt)
               /\ (MapPhoto.code (handler w r) <> 200%Z ->
                   MapPhoto.code (handler w r) <> 502%Z ->
                   MapPhoto.code (handler w r) = 500%Z))).
Proof.
  split.
  - intros Hm. unfold handler, MapPhoto.handler.
    destruct (MapPhoto.method r) as [m|]; [| reflexivity].
    destruct (String.eqb_spec m "POST"); [congruence | reflexivity].
  - intros Hm Hkey. unfold handler, MapPhoto.handler, MapPhoto.configured in *.
    rewrite Hm. cbn [String.eqb Ascii.eqb Bool.eqb negb].
    replace (("POST" =? "POST")%string) with true by reflexivity. cbn [negb].
    destruct (MapPhoto.apiKey (MapPhoto.keys w)) as [key|]; [| discriminate].
    cbn in Hkey. rewrite Hkey. cbn [negb].
    rewrite <- rejected_iff.
    destruct (MapPhoto.rejected parseFloat r) eqn:Hrej.
    + split; [cbn; tauto | intros H; cbn in H; congruence].
    + pose proof (fetchAndStore_codes w r key) as Hcases.
      destruct (accepted_request r key Hrej)
        as (latitude & longitude & id & Hla & Hlo & Hid & Hres & Hurl).
      pose proof (fetchAndStore_code w r key _ Hurl) as Hcode.
      cbv zeta in Hcode. unfold fetchAndStore in *.
      destruct Hcode as (H200 & Hbody & H502).
      assert (Hpath :
                forall path,
                  MapPhoto.storagePath show_number r = MapPhoto.Ok path <->
                  exists text,
                    template id = MapPhoto.Ok text
                    /\ path = MapPhoto.photoPath (MapPhoto.safeType r) text).
      { intros path. unfold MapPhoto.storagePath, template. rewrite Hres.
        destruct (MapPhoto.template show_number id) as [text|t].
        - split; [intros [= <-]; eauto | intros (? & [= <-] & ->); reflexivity].
        - split; [discriminate | intros (? & ? & _); discriminate]. }
      split.
      * split; [| discriminate]. intros H400.
        destruct Hcases as [H|[H|H]]; rewrite H in H400; discriminate.
      * intros _. exists key, latitude, longitude, id.
        split; [reflexivity |]. split; [exact Hla |]. split; [exact Hlo |].
        split; [exact Hid |]. split; [reflexivity |].
        cbv zeta. split; [| split; [| split]].
        -- split.
           ++ intros H. apply H200 in H as (m & b & path & Hf & Hok & Hb & Hp & Hu).
              apply Hpath in Hp as (text & Ht & ->).
              exists m, b, text. unfold MapPhoto.ok in Hok.
              apply andb_true_iff in Hok. repeat split; try assumption; lia.
           ++ intros (m & b & text & Hf & Hok & Hb & Ht & Hu). apply H200.
              exists m, b, (MapPhoto.photoPath (MapPhoto.safeType r) text).
              unfold MapPhoto.ok.
              split; [exact Hf |]. split; [apply andb_true_iff; lia |].
              split; [exact Hb |]. split; [| exact Hu].
              apply Hpath. eauto.
        -- intros text Ht H. apply Hbody; [| exact H]. apply Hpath. eauto.
        -- split.
           ++ intros H. apply H502 in H as (m & txt & Hf & Hok & Ht).
              exists m, txt. unfold MapPhoto.ok in Hok.
              apply andb_false_iff in Hok. repeat split; try assumption. lia.
           ++ intros (m & txt & Hf & Hok & Ht). apply H502.
              exists m, txt. unfold MapPhoto.ok. repeat split; try assumption.
              apply andb_false_iff. lia.
        -- intros Hn200 Hn502. destruct Hcases as [Hc|[Hc|Hc]]; congruence.
Qed.

End MapPhotoHandler.

Lemma handler_status_witness :
  MapPhoto.code
    (sample_handler (sample_world 200) (sample_request "POST" (MapPhoto.VString "north")))
  = 400%Z.
Proof.
  apply (proj2 (handler_status sample_parseFloat (fun _ => "403") sample_show_number
                  (sample_world 200)
                  (sample_request "POST" (MapPhoto.VString "north")))
           eq_refl eq_refl).
  left. reflexivity.
Defined.

(** An identifier that cannot be converted to a string: the request passes
    the test, the map is fetched, and the conversion for the storage path
    throws inside the [try]. *)
Example handler_unconvertible_identifier :
  MapPhoto.rejected sample_parseFloat odd_request = false
  /\ sample_handler (sample_world 200) odd_request
     = MapPhoto.respond 500
         (MapPhoto.ErrorBody "Cannot convert object to primitive value").
Proof. split; vm_compute; reflexivity. Qed.

Example handler_get :
  MapPhoto.code
    (sample_handler (sample_world 200) (sample_request "GET" (MapPhoto.VString "24.71")))
  = 405%Z.
Proof. reflexivity. Qed.

Example handler_stored :
  sample_handler (sample_world 200) (sample_request "POST" (MapPhoto.VString "24.71"))
  = {| MapPhoto.code := 200; MapPhoto.allow := None;
       MapPhoto.body :=
         MapPhoto.SuccessBody "https://storage/map-photos/report-r1.jpg"
           "map-photos/report-r1.jpg" |}.
Proof. vm_compute. reflexivity. Qed.

Example handler_provider_refused :
  MapPhoto.code
    (sample_handler (sample_world 403) (sample_request "POST" (MapPhoto.VNumber 24.71%float)))
  = 502%Z.
Proof. vm_compute. reflexivity. Qed.

(** * Further properties *)

(** ** What a save leaves alone *)

(** [handleSaveIssue] writes nothing while a save is in progress, without a
    loaded report, while an upload is counted as pending, and on an invalid
    draft. *)
Theorem save_guards (isSavingIssue : bool) (reportId : option string)
    (o : SaveOutcome) (p : Page) (st : Store) :
  isSavingIssue = true \/ reportId = None \/ (0 < pendingUploads p)%Z
  \/ validateIssue (currentIssue p) = false ->
  fst (handleSaveIssue isSavingIssue reportId o p st) = st
  /\ snd (handleSaveIssue isSavingIssue reportId o p st) <> Saved.
Proof.
  intros H. unfold handleSaveIssue, validateIssue in *.
  destruct isSavingIssue; [split; [reflexivity | discriminate] |].
  destruct reportId as [rid|]; [| split; [reflexivity | discriminate]].
  destruct (Z.ltb_spec 0 (pendingUploads p));
    [split; [reflexivity | discriminate] |].
  destruct (validate_run (currentIssue p));
    [split; [reflexivity | discriminate] |].
  destruct H as [H|[H|[H|H]]]; try discriminate; lia.
Qed.

Lemma save_guards_witness :
  fst (handleSaveIssue false (Some "r1") all_fine
         (run initialPage [EditIssueClicked persisted_single;
                           FileChosen (Case1Photo 0) "blob:a"])
         used_store) = used_store.
Proof.
  apply (save_guards false (Some "r1") all_fine
           (run initialPage [EditIssueClicked persisted_single;
                             FileChosen (Case1Photo 0) "blob:a"])
           used_store).
  right. right. left. reflexivity.
Defined.

Lemma filter_other_rows {A} (key : A -> string) (v other : string)
    (old rows : list A) :
  other <> v ->
  Forall (fun r => key r = v) rows ->
  List.filter (fun r => String.eqb (key r) other)
    (List.filter (fun r => negb (String.eqb (key r) v)) old)
  = List.filter (fun r => String.eqb (key r) other) old
  /\ List.filter (fun r => String.eqb (key r) other) (old ++ rows)
     = List.filter (fun r => String.eqb (key r) other) old.
Proof.
  intros Hne Hrows. split.
  - induction old as [|a old IH]; cbn; [reflexivity |].
    destruct (String.eqb_spec (key a) v) as [E|E]; cbn.
    + destruct (String.eqb_spec (key a) other); [congruence | exact IH].
    + rewrite IH. reflexivity.
  - rewrite List.filter_app.
    assert (Hnil : List.filter (fun r => String.eqb (key r) other) rows = []).
    { induction Hrows as [|r rows Hr _ IH]; cbn; [reflexivity |].
      destruct (String.eqb_spec (key r) other); [congruence | exact IH]. }
    rewrite Hnil. apply app_nil_r.
Qed.

(** The child rows of another issue go through a request unchanged. *)
Lemma frame_requests (v other : string) (subs : list SubItem.t)
    (d : IssueFormData) (b : bool) (st : Store) :
  other <> v ->
  (itemsOf other (request b (deleteItemsOf v) st) = itemsOf other st
   /\ photosOf other (request b (deleteItemsOf v) st) = photosOf other st)
  /\ (itemsOf other (request b (deletePhotosOf v) st) = itemsOf other st
      /\ photosOf other (request b (deletePhotosOf v) st) = photosOf other st)
  /\ (itemsOf other (request b (insertItems (itemRows subs v d)) st)
      = itemsOf other st
      /\ photosOf other (request b (insertItems (itemRows subs v d)) st)
         = photosOf other st)
  /\ (itemsOf other (request b (insertPhotos (photoRows v d)) st)
      = itemsOf other st
      /\ photosOf other (request b (insertPhotos (photoRows v d)) st)
         = photosOf other st).
Proof.
  intros Hne. unfold request, itemsOf, photosOf.
  destruct b; cbn; repeat split; try reflexivity.
  - apply (filter_other_rows ItemRow.issue_id v other _ []); [auto | constructor].
  - apply (filter_other_rows PhotoRow.issue_id v other _ []); [auto | constructor].
  - apply (filter_other_rows ItemRow.issue_id v other); [auto |].
    apply itemRows_issue_id.
  - apply (filter_other_rows PhotoRow.issue_id v other); [auto |].
    apply photoRows_issue_id.
Qed.

(** Whatever a save does and however its requests end, the item rows and
    photo rows of every issue other than the one it writes under stay as
    they were. *)
Theorem save_leaves_other_issues (isSavingIssue : bool)
    (reportId : option string) (o : SaveOutcome) (p : Page) (st : Store)
    (other : string) :
  savedUnder o p <> Some other ->
  itemsOf other (fst (handleSaveIssue isSavingIssue reportId o p st))
  = itemsOf other st
  /\ photosOf other (fst (handleSaveIssue isSavingIssue reportId o p st))
     = photosOf other st.
Proof.
  intros Hother. unfold handleSaveIssue, savedUnder in *.
  destruct isSavingIssue; [split; reflexivity |].
  destruct reportId as [rid|]; [| split; reflexivity].
  destruct (0 <? pendingUploads p)%Z; [split; reflexivity |].
  destruct (validate_run (currentIssue p)); [split; reflexivity |].
  destruct (issueDialogMode p).
  - unfold saveCreated.
    destruct (created o) as [[issueId|]|]; try (split; reflexivity).
    assert (Hne : other <> issueId) by congruence.
    cbn [fst].
    destruct (frame_requests issueId other (subItems p) (currentIssue p)
                (insertPhotosOk o)
                (request (insertItemsOk o)
                   (insertItems (itemRows (subItems p) issueId (currentIssue p)))
                   (createIssue
                      (IssueRow.mk issueId rid (main_item_id (currentIssue p))
                         (notes (currentIssue p))
                         (issueTypeOf (caseType (currentIssue p)))) st)) Hne)
      as (_ & _ & _ & [-> ->]).
    destruct (frame_requests issueId other (subItems p) (currentIssue p)
                (insertItemsOk o)
                (createIssue
                   (IssueRow.mk issueId rid (main_item_id (currentIssue p))
                      (notes (currentIssue p))
                      (issueTypeOf (caseType (currentIssue p)))) st) Hne)
      as (_ & _ & [-> ->] & _).
    split; reflexivity.
  - destruct (editingIssueId p) as [issueId|]; [| split; reflexivity].
    destruct (JS.truthy_string issueId); [| split; reflexivity].
    assert (Hne : other <> issueId) by congruence.
    unfold saveEdited.
    destruct (updateOk o); cbn [negb fst]; [| split; reflexivity].
    set (st1 := updateIssue issueId _ st).
    set (st2 := request (deleteItemsOk o) (deleteItemsOf issueId) st1).
    set (st3 := request (deletePhotosOk o) (deletePhotosOf issueId) st2).
    set (st4 := request (insertItemsOk o) _ st3).
    destruct (frame_requests issueId other (subItems p) (currentIssue p)
                (insertPhotosOk o) st4 Hne) as (_ & _ & _ & [-> ->]).
    subst st4.
    destruct (frame_requests issueId other (subItems p) (currentIssue p)
                (insertItemsOk o) st3 Hne) as (_ & _ & [-> ->] & _).
    subst st3.
    destruct (frame_requests issueId other (subItems p) (currentIssue p)
                (deletePhotosOk o) st2 Hne) as (_ & [-> ->] & _).
    subst st2.
    destruct (frame_requests issueId other (subItems p) (currentIssue p)
                (deleteItemsOk o) st1 Hne) as ([-> ->] & _).
    split; reflexivity.
Qed.

Lemma save_leaves_other_issues_witness :
  let p := run initialPage [EditIssueClicked persisted_single] in
  itemsOf "i2" (fst (handleSaveIssue false (Some "r1") all_fine p used_store))
  = itemsOf "i2" used_store
  /\ photosOf "i2" (fst (handleSaveIssue false (Some "r1") all_fine p used_store))
     = photosOf "i2" used_store.
Proof.
  cbv zeta.
  apply (save_leaves_other_issues false (Some "r1") all_fine
           (run initialPage [EditIssueClicked persisted_single]) used_store "i2").
  discriminate.
Defined.

(** ** Requests whose errors the save does not look at *)

Lemma rows_after_requests {A} (key : A -> string) (v : string)
    (old rows : list A) (deleted inserted : bool) :
  Forall (fun r => key r = v) rows ->
  List.filter (fun r => String.eqb (key r) v)
    ((if deleted
      then List.filter (fun r => negb (String.eqb (key r) v)) old
      else old)
     ++ (if inserted then rows else []))%list
  = ((if deleted then [] else List.filter (fun r => String.eqb (key r) v) old)
     ++ (if inserted then rows else []))%list.
Proof.
  intros Hrows. rewrite List.filter_app. f_equal.
  - destruct deleted; [| reflexivity].
    induction old as [|a old IH]; cbn; [reflexivity |].
    destruct (String.eqb (key a) v) eqn:E; cbn; [exact IH |].
    rewrite E. exact IH.
  - destruct inserted; [| reflexivity].
    induction Hrows as [|r rows Hr _ IH]; cbn; [reflexivity |].
    rewrite Hr, String.eqb_refl, IH. reflexivity.
Qed.

(** Once [updateIssue] went through, an edit-save ends as saved whatever the
    four client requests answer, and the rows of the issue are: the old ones
    unless their delete succeeded, followed by the ones of the draft if their
    insert succeeded. So a failed delete keeps the rows of the earlier save
    next to the new ones, and a failed insert after a delete leaves none. *)
Theorem edit_save_ignores_errors (o : SaveOutcome) (subs : list SubItem.t)
    (reportId issueId : string) (d : IssueFormData) (st : Store) :
  updateOk o = true ->
  snd (saveEdited o subs reportId issueId d st) = Saved
  /\ itemsOf issueId (fst (saveEdited o subs reportId issueId d st))
     = ((if deleteItemsOk o then [] else itemsOf issueId st)
        ++ (if insertItemsOk o then rowsOf (itemRows subs issueId d) else []))%list
  /\ photosOf issueId (fst (saveEdited o subs reportId issueId d st))
     = ((if deletePhotosOk o then [] else photosOf issueId st)
        ++ (if insertPhotosOk o then rowsOf (photoRows issueId d) else []))%list.
Proof.
  intros Hu. unfold saveEdited. rewrite Hu. cbn [negb fst snd].
  split; [reflexivity |]. unfold itemsOf, photosOf, request. split.
  - rewrite <- (rows_after_requests ItemRow.issue_id issueId (issue_items st)
                  (rowsOf (itemRows subs issueId d)) (deleteItemsOk o) (insertItemsOk o)
                  (itemRows_issue_id subs issueId d)).
    destruct (deleteItemsOk o), (deletePhotosOk o), (insertItemsOk o),
      (insertPhotosOk o); cbn; rewrite ?app_nil_r; reflexivity.
  - rewrite <- (rows_after_requests PhotoRow.issue_id issueId (issue_photos st)
                  (rowsOf (photoRows issueId d)) (deletePhotosOk o) (insertPhotosOk o)
                  (photoRows_issue_id issueId d)).
    destruct (deleteItemsOk o), (deletePhotosOk o), (insertItemsOk o),
      (insertPhotosOk o); cbn; rewrite ?app_nil_r; reflexivity.
Qed.

Lemma edit_save_ignores_errors_witness :
  let o := {| created := Throws; updateOk := true; deleteItemsOk := true;
              deletePhotosOk := true; insertItemsOk := false;
              insertPhotosOk := false |} in
  itemsOf "i1" (fst (saveEdited o [] "r1" "i1" (hydrate persisted_single) used_store))
  = []
  /\ photosOf "i1" (fst (saveEdited o [] "r1" "i1" (hydrate persisted_single) used_store))
     = [].
Proof.
  cbv zeta.
  destruct (edit_save_ignores_errors
              {| created := Throws; updateOk := true; deleteItemsOk := true;
                 deletePhotosOk := true; insertItemsOk := false;
                 insertPhotosOk := false |}
              [] "r1" "i1" (hydrate persisted_single) used_store eq_refl)
    as (_ & Hitems & Hphotos).
  split; [exact Hitems | exact Hphotos].
Defined.

(** ** Saving a new issue *)

(** A valid draft of the dialog, saved as a new issue under an identifier no
    child row carries yet, with both inserts succeeding: the new issue has the
    rows of its variant, 1 item and 3 photos for case 1, 3 and 3 for case 2. *)
Theorem create_save_cardinality (events : list Event) (reportId issueId : string)
    (o : SaveOutcome) (st : Store) :
  from_form initialPage events = true ->
  let p := run initialPage events in
  issueDialogMode p = create ->
  created o = Returns (Some issueId) ->
  insertItemsOk o = true -> insertPhotosOk o = true ->
  itemsOf issueId st = [] -> photosOf issueId st = [] ->
  snd (handleSaveIssue false (Some reportId) o p st) = Saved ->
  let st' := fst (handleSaveIssue false (Some reportId) o p st) in
  (length (itemsOf issueId st'), length (photosOf issueId st'))
  = cardinality (caseType (currentIssue p))
  /\ report_issues st'
     = (report_issues st
        ++ [IssueRow.mk issueId reportId (main_item_id (currentIssue p))
              (notes (currentIssue p))
              (issueTypeOf (caseType (currentIssue p)))])%list.
Proof.
  intros Hform p Hmode Hcreated Hii Hip Hfresh_i Hfresh_p Hsaved st'.
  assert (Hshape : formShape (currentIssue p)).
  { apply formShape_reached. exact Hform. }
  subst st'. unfold handleSaveIssue in *.
  destruct (0 <? pendingUploads p)%Z; [discriminate |].
  destruct (validate_run (currentIssue p)) eqn:Hvalid; [discriminate |].
  rewrite Hmode in *. unfold saveCreated, request in *.
  rewrite Hcreated, Hii, Hip in *. cbn [fst].
  unfold itemsOf, photosOf in *. cbn.
  rewrite !List.filter_app, Hfresh_i, Hfresh_p. cbn [app].
  split; [| reflexivity].
  pose proof (replace_rows ItemRow.issue_id issueId []
                (rowsOf (itemRows (subItems p) issueId (currentIssue p)))
                (itemRows_issue_id _ _ _)) as Hi.
  pose proof (replace_rows PhotoRow.issue_id issueId []
                (rowsOf (photoRows issueId (currentIssue p)))
                (photoRows_issue_id _ _)) as Hp.
  cbn [List.filter app] in Hi, Hp. rewrite Hi, Hp.
  destruct (valid_rows_count (subItems p) issueId (currentIssue p) Hshape Hvalid)
    as (Hcount & Hfi & Hfp).
  rewrite <- Hcount. f_equal.
  - rewrite Hfi at 2. rewrite length_map. reflexivity.
  - rewrite Hfp at 2. rewrite length_map. reflexivity.
Qed.

Lemma create_save_cardinality_witness :
  let events := [AddIssueClicked; MainItemSelected "m1";
                 Case1SubItemSelected "s1"; Case1UnitPriceTyped 50%float;
                 FileChosen (Case1Photo 0) "blob:a";
                 FileChosen (Case1Photo 1) "blob:b";
                 FileChosen (Case1Photo 2) "blob:c";
                 UploadSettled 0 (Some "https://a");
                 UploadSettled 0 (Some "https://b");
                 UploadSettled 0 (Some "https://c")] in
  let st' := fst (handleSaveIssue false (Some "r1") all_fine
                    (run initialPage events) used_store) in
  length (itemsOf "i9" st') = 1%nat /\ length (photosOf "i9" st') = 3%nat.
Proof.
  cbv zeta.
  destruct (create_save_cardinality
              [AddIssueClicked; MainItemSelected "m1";
               Case1SubItemSelected "s1"; Case1UnitPriceTyped 50%float;
               FileChosen (Case1Photo 0) "blob:a";
               FileChosen (Case1Photo 1) "blob:b";
               FileChosen (Case1Photo 2) "blob:c";
               UploadSettled 0 (Some "https://a");
               UploadSettled 0 (Some "https://b");
               UploadSettled 0 (Some "https://c")]
              "r1" "i9" all_fine used_store
              eq_refl eq_refl eq_refl eq_refl eq_refl eq_refl eq_refl eq_refl)
    as [Hcount _].
  split; [exact (f_equal fst Hcount) | exact (f_equal snd Hcount)].
Defined.

(** ** The save and the open uploads *)

(** From the start of the page on, through any events: while a handler waits
    for its upload, [handleSaveIssue] only asks to wait and writes nothing. *)
Theorem save_waits_for_uploads (events : list Event) (reportId : string)
    (o : SaveOutcome) (st : Store) :
  awaiting (run initialPage events) <> [] ->
  handleSaveIssue false (Some reportId) o (run initialPage events) st
  = (st, WaitForUploads).
Proof.
  intros Hopen.
  pose proof (counter_tracks_awaiting 0 events initialPage (Z.le_refl 0) eq_refl)
    as Hcount.
  unfold handleSaveIssue.
  destruct (awaiting (run initialPage events)) as [|u rest] eqn:E;
    [contradiction |].
  cbn [length] in Hcount.
  destruct (Z.ltb_spec 0 (pendingUploads (run initialPage events)));
    [reflexivity | lia].
Qed.

Lemma save_waits_for_uploads_witness :
  handleSaveIssue false (Some "r1") all_fine
    (run initialPage [EditIssueClicked persisted_single;
                      FileChosen (Case1Photo 0) "blob:a"]) used_store
  = (used_store, WaitForUploads).
Proof.
  apply (save_waits_for_uploads
           [EditIssueClicked persisted_single; FileChosen (Case1Photo 0) "blob:a"]
           "r1" all_fine used_store).
  discriminate.
Defined.

(** ** Object URLs in the draft *)

Lemma index_assign_other {A} (l : list (option A)) (i j : nat) (v : A) :
  i <> j -> JS.index (JS.assign l i v) j = JS.index l j.
Proof.
  intros Hne. unfold JS.assign, JS.index.
  destruct (Nat.ltb_spec i (length l)) as [Hi|Hi].
  - rewrite list_lookup_insert_ne by assumption. reflexivity.
  - destruct (Nat.lt_ge_cases j (length l)) as [Hj|Hj].
    + rewrite lookup_app_l by assumption. reflexivity.
    + rewrite lookup_app_r by assumption.
      rewrite (lookup_ge_None_2 l j) by assumption.
      destruct (Nat.lt_ge_cases (j - length l) (i - length l)) as [Hk|Hk].
      * rewrite lookup_app_l by (rewrite length_replicate; assumption).
        rewrite lookup_replicate_2 by assumption. reflexivity.
      * rewrite lookup_app_r by (rewrite length_replicate; assumption).
        rewrite length_replicate.
        destruct (j - length l - (i - length l))%nat eqn:E; [lia |].
        reflexivity.
Qed.

Lemma slot_eq_dec (a b : Slot) : {a = b} + {a <> b}.
Proof. decide equality; apply Nat.eq_dec. Qed.

(** Starting an upload on a slot touches no other slot. *)
Lemma held_start_other (s0 s : Slot) (url : string) (p : Page) :
  s <> s0 ->
  held (currentIssue (startUpload s0 url p)) s = held (currentIssue p) s.
Proof.
  intros Hne. destruct s0 as [i0|i0], s as [i|i]; cbn; try reflexivity.
  - apply index_assign_other. congruence.
  - unfold item_photo. rewrite index_assign_other by congruence. reflexivity.
Qed.

(** Replacing a slot touches no other slot. *)
Lemma held_replaced_other (d : IssueFormData) (s0 s : Slot) (v : string) :
  s <> s0 -> held (replaced d s0 v) s = held d s.
Proof.
  intros Hne. destruct s0 as [i0|i0], s as [i|i]; cbn; try reflexivity.
  - unfold JS.index. rewrite list_lookup_insert_ne by congruence. reflexivity.
  - destruct (JS.index (items (case2Data d)) i0); reflexivity.
  - destruct (JS.index (items (case2Data d)) i0) as [item|]; [| reflexivity].
    cbn. unfold item_photo, JS.index.
    rewrite list_lookup_insert_ne by congruence. reflexivity.
Qed.

(** The editors of an entry leave its photo alone. *)
Lemma held_editItem (i : nat) (f : Case2Item.t -> Case2Item.t)
    (d : IssueFormData) (s : Slot) :
  (forall item, Case2Item.photo (f item) = Case2Item.photo item) ->
  held (editItem i f d) s = held d s.
Proof.
  intros Hf. unfold editItem.
  destruct (JS.index (items (case2Data d)) i) as [item|] eqn:E; [| reflexivity].
  destruct s as [j|j]; cbn; [reflexivity |].
  unfold item_photo, JS.index in *.
  destruct (Nat.eq_dec i j) as [<-|Hne].
  - rewrite list_lookup_insert_eq
      by (destruct (items (case2Data d) !! i) eqn:L;
          [eapply lookup_lt_Some; exact L | discriminate]).
    destruct (items (case2Data d) !! i) as [[item'|]|]; try discriminate.
    injection E as ->. apply Hf.
  - rewrite list_lookup_insert_ne by assumption. reflexivity.
Qed.

Lemma held_emptyDraft (s : Slot) (u : string) :
  held emptyDraft s = Some u -> u = "".
Proof.
  destruct s as [i|i]; cbn.
  - destruct i; discriminate.
  - destruct i as [|[|[|[|i]]]]; cbn; congruence.
Qed.

Lemma held_hydrate (issue : Issue.t) (s : Slot) (u : string) :
  held (hydrate issue) s = Some u -> u = "" \/ In u (Issue.issue_photos issue).
Proof.
  assert (Hphoto : forall idx, hydrate_photo (Issue.issue_photos issue) idx = ""
                               \/ In (hydrate_photo (Issue.issue_photos issue) idx)
                                     (Issue.issue_photos issue)).
  { intros idx. unfold hydrate_photo.
    destruct (Issue.issue_photos issue !! idx) as [x|] eqn:E; [| left; reflexivity].
    right. apply list_elem_of_In. apply list_elem_of_lookup. eauto. }
  unfold hydrate.
  destruct (String.eqb (Issue.issue_type issue) "single"), s as [i|i]; cbn.
  - destruct i as [|[|[|[|i]]]]; cbn; try discriminate;
      intros [= <-]; apply Hphoto.
  - destruct i as [|[|[|[|i]]]]; cbn; try discriminate;
      intros [= <-]; left; reflexivity.
  - destruct i; discriminate.
  - destruct i as [|[|[|[|i]]]]; cbn; try discriminate;
      intros [= <-]; apply Hphoto.
Qed.

Lemma In_delete {A} (x y : A) (k : nat) (l : list A) :
  In x l -> l !! k = Some y -> x <> y -> In x (delete k l).
Proof.
  revert k. induction l as [|a l IH]; intros k Hin Hk Hne; [contradiction |].
  destruct k as [|k]; cbn in *.
  - injection Hk as ->. destruct Hin; [congruence | assumption].
  - destruct Hin as [->|Hin]; [left; reflexivity | right; eauto].
Qed.

Lemma awaiting_startUpload (s : Slot) (url : string) (p : Page) :
  awaiting (startUpload s url p)
  = (awaiting p ++ [{| slot := s; previewUrl := url |}])%list.
Proof. destruct s; reflexivity. Qed.

Lemma held_with_notes (d : IssueFormData) (v : string) (s : Slot) :
  held (with_notes d v) s = held d s.
Proof. destruct s; reflexivity. Qed.

(** An event keeps the previews tracked when an editor, if it is one, starts
    from the draft of the cell. *)
Lemma tracked_step (p : Page) (e : Event) :
  urls_of_their_kind e = true ->
  (isEditor e = true -> renderedIssue p = currentIssue p) ->
  tracked p -> tracked (step p e).
Proof.
  intros He Hfresh Hp s u. unfold tracked in Hp.
  destruct (step_cells p e) as (-> & _ & _ & _ & _ & ->).
  intros Hheld Hobj.
  destruct e as [l| |issue| |v|c|v|v|x|x|i v|i x|i x|s0 url|k result|];
    cbn [handle] in *;
    try (unfold editCurrentIssue in Hheld; cbn [currentIssue setCurrentIssue] in Hheld;
         rewrite (Hfresh eq_refl) in Hheld).
  - apply Hp; assumption.
  - apply held_emptyDraft in Hheld. subst u. discriminate.
  - apply held_hydrate in Hheld as [->|Hin]; [discriminate |].
    cbn in He. rewrite forallb_forall in He.
    apply He in Hin. rewrite Hobj in Hin. discriminate.
  - apply held_emptyDraft in Hheld. subst u. discriminate.
  - apply Hp; [destruct s; exact Hheld | assumption].
  - apply Hp; [destruct s; exact Hheld | assumption].
  - apply Hp; [destruct s; exact Hheld | assumption].
  - apply Hp; [destruct s; exact Hheld | assumption].
  - apply Hp; [destruct s; exact Hheld | assumption].
  - apply Hp; [destruct s; exact Hheld | assumption].
  - unfold setCase2SubItem in Hheld.
    rewrite held_editItem in Hheld by reflexivity. apply Hp; assumption.
  - unfold setCase2Quantity in Hheld.
    rewrite held_editItem in Hheld by reflexivity. apply Hp; assumption.
  - unfold setCase2UnitPrice in Hheld.
    rewrite held_editItem in Hheld by reflexivity. apply Hp; assumption.
  - rewrite awaiting_startUpload. apply in_or_app.
    destruct (slot_eq_dec s s0) as [->|Hne].
    + rewrite held_start in Hheld. injection Hheld as ->.
      right. left. reflexivity.
    + rewrite held_start_other in Hheld by assumption. left. apply Hp; assumption.
  - unfold settleUpload in *.
    destruct (awaiting p !! k) as [u0|] eqn:Hk; [| apply Hp; assumption].
    cbn in Hheld |- *.
    destruct (settleDraft_guard u0 result (currentIssue p)) as [Hsame Hstale].
    destruct (JS.strict_ne (held (currentIssue p) (slot u0)) (previewUrl u0))
      eqn:Eg.
    + rewrite Hstale in Hheld
        by (intros H; apply strict_ne_false in H; congruence).
      apply (In_delete _ u0 k); [apply Hp; assumption | assumption |].
      intros <-. cbn in Eg. rewrite Hheld in Eg. cbn in Eg.
      rewrite String.eqb_refl in Eg. discriminate.
    + apply strict_ne_false in Eg. rewrite Hsame in Hheld by assumption.
      destruct (slot_eq_dec s (slot u0)) as [->|Hne].
      * rewrite (held_replaced _ _ _ _ Eg) in Hheld. injection Hheld as <-.
        destruct result as [photoUrl|];
          cbn [urls_of_their_kind settledValue] in He, Hobj.
        -- rewrite Hobj in He. discriminate.
        -- cbv in Hobj. discriminate.
      * rewrite held_replaced_other in Hheld by assumption.
        apply (In_delete _ u0 k); [apply Hp; assumption | assumption |].
        intros <-. apply Hne. reflexivity.
  - apply Hp; assumption.
Qed.

(** After an event that is rendered at once the handlers hold the draft of
    the cell. *)
Lemma rendered_current (p : Page) (e : Event) :
  deferred e = false -> renderedIssue (step p e) = currentIssue (step p e).
Proof. intros He. rewrite step_rendered, He. reflexivity. Qed.

Lemma tracked_run (events : list Event) :
  forall (stale : bool) (p : Page),
    forallb urls_of_their_kind events = true ->
    edits_in_step stale events = true ->
    (stale = false -> renderedIssue p = currentIssue p) ->
    tracked p -> tracked (run p events).
Proof.
  induction events as [|e events IH]; intros stale p He Hstep Hsync Hp;
    [exact Hp |].
  cbn in He. apply andb_true_iff in He as [He Hrest].
  change (run p (e :: events)) with (run (step p e) events).
  assert (Hfresh : isEditor e = true -> renderedIssue p = currentIssue p).
  { intros Hed. apply Hsync.
    destruct e; try discriminate Hed; cbn in Hstep;
      apply andb_true_iff in Hstep as [Hs _];
      (destruct stale; [discriminate Hs | reflexivity]). }
  pose proof (tracked_step p e He Hfresh Hp) as Hp'.
  destruct e as [l| |issue| |v|c|v|v|x|x|i v|i x|i x|s0 url|k result|];
    cbn [edits_in_step] in Hstep;
    try (apply andb_true_iff in Hstep as [_ Hstep];
         apply (IH stale _ Hrest Hstep); [| exact Hp'];
         intros _; apply rendered_current; reflexivity).
  - apply andb_true_iff in Hstep as [_ Hstep].
    apply (IH stale _ Hrest Hstep); [| exact Hp'].
    intros Hs. exact (Hsync Hs).
  - apply (IH true _ Hrest Hstep); [discriminate | exact Hp'].
  - apply (IH true _ Hrest Hstep); [discriminate | exact Hp'].
  - apply (IH false _ Hrest Hstep); [| exact Hp'].
    intros _. apply rendered_current. reflexivity.
Qed.

Lemma tracked_initialPage : tracked initialPage.
Proof.
  intros s u Hheld Hobj. apply held_emptyDraft in Hheld. subst u. discriminate.
Qed.

Lemma tracked_reached (events : list Event) :
  forallb urls_of_their_kind events = true ->
  edits_in_step false events = true ->
  tracked (run initialPage events).
Proof.
  intros He Hstep.
  apply (tracked_run events false initialPage He Hstep);
    [reflexivity | apply tracked_initialPage].
Qed.

Lemma no_preview_slot (events : list Event) (s : Slot) (u : string) :
  forallb urls_of_their_kind events = true ->
  edits_in_step false events = true ->
  awaiting (run initialPage events) = [] ->
  held (currentIssue (run initialPage events)) s = Some u ->
  isObjectUrl u = false.
Proof.
  intros He Hstep Hnone Hheld.
  destruct (isObjectUrl u) eqn:Hobj; [| reflexivity].
  pose proof (tracked_reached events He Hstep s u Hheld Hobj) as Hin.
  rewrite Hnone in Hin. contradiction.
Qed.

(** Previews are object URLs and stored photos are not, and no editor runs
    on a draft older than the cell's. Then, from the start of the page on, an
    object URL in a photo slot of the draft is always the preview of an upload
    to that slot that has not settled yet; so once every upload has settled no
    slot holds an object URL. *)
Theorem previews_are_tracked (events : list Event) :
  forallb urls_of_their_kind events = true ->
  edits_in_step false events = true ->
  let p := run initialPage events in
  (forall s u,
      held (currentIssue p) s = Some u -> isObjectUrl u = true ->
      In {| slot := s; previewUrl := u |} (awaiting p))
  /\ (awaiting p = [] ->
      forall s u, held (currentIssue p) s = Some u -> isObjectUrl u = false).
Proof.
  intros He Hstep p. split.
  - exact (tracked_reached events He Hstep).
  - intros Hnone s u Hheld. exact (no_preview_slot events s u He Hstep Hnone Hheld).
Qed.

Lemma previews_are_tracked_witness :
  let p := run initialPage
             [FileChosen (Case1Photo 0) "blob:a"; FileChosen (Case1Photo 0) "blob:b";
              UploadSettled 0 (Some "https://a"); Rendered; NotesTyped "n"] in
  In {| slot := Case1Photo 0; previewUrl := "blob:b" |} (awaiting p).
Proof.
  cbv zeta.
  apply (previews_are_tracked
           [FileChosen (Case1Photo 0) "blob:a"; FileChosen (Case1Photo 0) "blob:b";
            UploadSettled 0 (Some "https://a"); Rendered; NotesTyped "n"]
           eq_refl eq_refl);
    reflexivity.
Defined.

(** An editor that runs before the render of a settled upload starts from the
    draft that still shows the preview, and puts it back: the slot holds the
    object URL again, which the handler has revoked, no upload is waiting for
    it and the counter is at 0, so a save is not held back. *)
Theorem stale_edit_restores_preview (p : Page) (s : Slot)
    (url photoUrl v : string) :
  awaiting p = [] ->
  pendingUploads p = 0%Z ->
  let chosen := step p (FileChosen s url) in
  let settled := step chosen (UploadSettled 0 (Some photoUrl)) in
  let edited := step settled (NotesTyped v) in
  held (currentIssue settled) s = Some photoUrl
  /\ held (currentIssue edited) s = Some url
  /\ awaiting edited = []
  /\ pendingUploads edited = 0%Z.
Proof.
  intros Hnone Hzero chosen settled edited.
  assert (Hchosen : held (currentIssue chosen) s = Some url).
  { subst chosen. destruct (step_cells p (FileChosen s url)) as [-> _].
    apply held_start. }
  assert (Hwaiting : awaiting chosen = [{| slot := s; previewUrl := url |}]).
  { subst chosen. destruct (step_cells p (FileChosen s url)) as (_ & _ & _ & _ & _ & ->).
    cbn [handle]. rewrite awaiting_startUpload, Hnone. reflexivity. }
  assert (Hcount : pendingUploads chosen = 1%Z).
  { subst chosen. destruct (step_cells p (FileChosen s url)) as (_ & _ & _ & _ & -> & _).
    destruct s; cbn; rewrite Hzero; reflexivity. }
  assert (Hrendered : renderedIssue chosen = currentIssue chosen).
  { apply rendered_current. reflexivity. }
  assert (Hsettled : settled
                     = resume {| slot := s; previewUrl := url |} (Some photoUrl)
                         (setAwaiting [] chosen)).
  { subst settled. unfold step. cbn [deferred handle]. unfold settleUpload.
    rewrite Hwaiting. reflexivity. }
  assert (Hdraft : currentIssue settled
                   = replaced (currentIssue chosen) s photoUrl).
  { rewrite Hsettled. unfold resume. cbn [currentIssue setPendingUploads setCurrentIssue setAwaiting].
    apply (settleDraft_guard {| slot := s; previewUrl := url |} (Some photoUrl)).
    exact Hchosen. }
  split; [rewrite Hdraft; eapply held_replaced; exact Hchosen |].
  assert (Hedited : currentIssue edited = with_notes (currentIssue chosen) v).
  { subst edited. destruct (step_cells settled (NotesTyped v)) as [-> _].
    cbn [handle]. unfold editCurrentIssue. cbn [currentIssue setCurrentIssue].
    rewrite Hsettled. cbn [renderedIssue resume setPendingUploads setCurrentIssue setAwaiting].
    rewrite Hrendered. reflexivity. }
  split; [rewrite Hedited, held_with_notes; exact Hchosen |].
  subst edited.
  destruct (step_cells settled (NotesTyped v)) as (_ & _ & _ & _ & -> & ->).
  rewrite Hsettled.
  cbn [handle editCurrentIssue setCurrentIssue awaiting pendingUploads resume
       setPendingUploads setAwaiting].
  rewrite Hcount. split; reflexivity.
Qed.

Lemma stale_edit_restores_preview_witness :
  let settled := run initialPage
                   [EditIssueClicked persisted_single;
                    FileChosen (Case1Photo 1) "blob:b";
                    UploadSettled 0 (Some "https://b")] in
  let edited := step settled (NotesTyped "cracked") in
  held (currentIssue settled) (Case1Photo 1) = Some "https://b"
  /\ held (currentIssue edited) (Case1Photo 1) = Some "blob:b"
  /\ awaiting edited = []
  /\ pendingUploads edited = 0%Z.
Proof.
  cbv zeta.
  apply (stale_edit_restores_preview
           (run initialPage [EditIssueClicked persisted_single])
           (Case1Photo 1) "blob:b" "https://b" "cracked");
    reflexivity.
Defined.

(** After such an edit the save passes the upload check and the validation,
    and writes the revoked object URL as a photo of the issue. *)
Example stale_edit_saves_preview :
  let p := run initialPage
             [EditIssueClicked persisted_single;
              FileChosen (Case1Photo 1) "blob:b";
              UploadSettled 0 (Some "https://b");
              NotesTyped "cracked"] in
  let saved := handleSaveIssue false (Some "r1") all_fine p used_store in
  snd saved = Saved
  /\ photosOf "i1" (fst saved)
     = [PhotoRow.mk "i1" (Some "u1"); PhotoRow.mk "i1" (Some "blob:b");
        PhotoRow.mk "i1" (Some "u3")].
Proof. split; vm_compute; reflexivity. Qed.

(** The photo rows of a draft carry URLs its slots hold. *)
Lemma photoRows_held (issueId : string) (d : IssueFormData) (row : PhotoRow.t)
    (u : string) :
  In row (rowsOf (photoRows issueId d)) -> PhotoRow.photo_url row = Some u ->
  exists s, held d s = Some u.
Proof.
  unfold photoRows. intros Hin Hu.
  destruct (caseType d); rewrite rowsOf_map in Hin;
    apply in_map_iff in Hin as (x & <- & Hx); unfold rowsOf in Hx;
    apply list_elem_of_In, list_elem_of_omap in Hx as (e & He & Hid);
    cbn in Hid; subst e;
    apply list_elem_of_lookup in He as (i & Hi).
  - cbn in Hu. injection Hu as ->.
    exists (Case1Photo i). cbn. apply index_Some. exact Hi.
  - cbn in Hu. exists (Case2Photo i). cbn. unfold item_photo.
    rewrite (proj2 (index_Some _ _ _) Hi). exact Hu.
Qed.

(** Previews are object URLs and stored photos are not, and no editor runs
    on a draft older than the cell's. Then no save of the page, in whatever
    state and however its requests end, writes an object URL: a photo row of
    the store after the save was there before, or its URL is not an object
    URL. *)
Theorem save_writes_no_preview (events : list Event) (isSavingIssue : bool)
    (reportId : option string) (o : SaveOutcome) (st : Store)
    (row : PhotoRow.t) (u : string) :
  forallb urls_of_their_kind events = true ->
  edits_in_step false events = true ->
  In row
    (issue_photos
       (fst (handleSaveIssue isSavingIssue reportId o (run initialPage events) st))) ->
  PhotoRow.photo_url row = Some u ->
  In row (issue_photos st) \/ isObjectUrl u = false.
Proof.
  intros He Hstep Hin Hu. set (p := run initialPage events) in *.
  unfold handleSaveIssue in Hin.
  destruct isSavingIssue; [left; exact Hin |].
  destruct reportId as [rid|]; [| left; exact Hin].
  destruct (Z.ltb_spec 0 (pendingUploads p)) as [Hpos|Hzero]; [left; exact Hin |].
  destruct (validate_run (currentIssue p)); [left; exact Hin |].
  assert (Hnone : awaiting p = []).
  { pose proof (counter_tracks_awaiting 0 events initialPage (Z.le_refl 0) eq_refl)
      as Hcount.
    fold p in Hcount. destruct (awaiting p); [reflexivity | cbn in Hcount; lia]. }
  assert (Hrows : forall issueId,
             In row (rowsOf (photoRows issueId (currentIssue p))) ->
             isObjectUrl u = false).
  { intros issueId Hrow.
    destruct (photoRows_held issueId (currentIssue p) row u Hrow Hu) as [s Hs].
    exact (no_preview_slot events s u He Hstep Hnone Hs). }
  destruct (issueDialogMode p).
  - unfold saveCreated, request in Hin.
    destruct (created o) as [[issueId|]|]; try (left; exact Hin).
    destruct (insertItemsOk o), (insertPhotosOk o); cbn in Hin;
      try (left; exact Hin);
      apply in_app_or in Hin as [Hold|Hnew];
      solve [left; exact Hold | right; eapply Hrows; exact Hnew].
  - destruct (editingIssueId p) as [issueId|]; [| left; exact Hin].
    destruct (JS.truthy_string issueId); [| left; exact Hin].
    unfold saveEdited, request in Hin.
    destruct (updateOk o); cbn [negb fst] in Hin; [| left; exact Hin].
    destruct (deleteItemsOk o), (deletePhotosOk o), (insertItemsOk o),
      (insertPhotosOk o); cbn in Hin;
      try (left; exact Hin);
      try (apply filter_In in Hin as [Hold _]; left; exact Hold);
      apply in_app_or in Hin as [Hold|Hnew];
      solve [ left; exact Hold
            | apply filter_In in Hold as [Hold _]; left; exact Hold
            | right; eapply Hrows; exact Hnew ].
Qed.

Lemma save_writes_no_preview_witness :
  let events := [EditIssueClicked persisted_single;
                 FileChosen (Case1Photo 1) "blob:b";
                 UploadSettled 0 (Some "https://b"); Rendered;
                 NotesTyped "cracked"] in
  In (PhotoRow.mk "i1" (Some "https://b"))
    (issue_photos
       (fst (handleSaveIssue false (Some "r1") all_fine
               (run initialPage events) used_store)))
  /\ (In (PhotoRow.mk "i1" (Some "https://b")) (issue_photos used_store)
      \/ isObjectUrl "https://b" = false).
Proof.
  cbv zeta.
  assert (Hin : In (PhotoRow.mk "i1" (Some "https://b"))
                  (issue_photos
                     (fst (handleSaveIssue false (Some "r1") all_fine
                             (run initialPage
                                [EditIssueClicked persisted_single;
                                 FileChosen (Case1Photo 1) "blob:b";
                                 UploadSettled 0 (Some "https://b"); Rendered;
                                 NotesTyped "cracked"])
                             used_store)))).
  { vm_compute. right. right. left. reflexivity. }
  split; [exact Hin |].
  apply (save_writes_no_preview
           [EditIssueClicked persisted_single;
            FileChosen (Case1Photo 1) "blob:b";
            UploadSettled 0 (Some "https://b"); Rendered;
            NotesTyped "cracked"]
           false (Some "r1") all_fine used_store
           (PhotoRow.mk "i1" (Some "https://b")) "https://b");
    [reflexivity | reflexivity | exact Hin | reflexivity].
Defined.

(** ** The draft keeps its declared type *)

Lemma entries_defined_editItem (i : nat) (f : Case2Item.t -> Case2Item.t)
    (d : IssueFormData) :
  (forall item, entry_defined (Some item) = true ->
                entry_defined (Some (f item)) = true) ->
  Forall (fun e => entry_defined e = true) (items (case2Data d)) ->
  Forall (fun e => entry_defined e = true) (items (case2Data (editItem i f d))).
Proof.
  intros Hf Hd. unfold editItem.
  destruct (JS.index (items (case2Data d)) i) as [item|] eqn:E; [| exact Hd].
  cbn. apply Forall_insert; [exact Hd |]. apply Hf.
  apply index_Some in E. rewrite Forall_forall in Hd. apply Hd.
  apply list_elem_of_lookup. eauto.
Qed.

Lemma entry_defined_with_photo (item : Case2Item.t) (v : string) :
  entry_defined (Some item) = true ->
  entry_defined (Some (with_photo item v)) = true.
Proof. destruct item as [[?|] [?|] [?|] [?|]]; cbn; congruence. Qed.

Lemma entries_defined_handle (p : Page) (e : Event) :
  rendered p e = true ->
  formShape (currentIssue p) -> formShape (renderedIssue p) ->
  Forall (fun x => entry_defined x = true) (items (case2Data (currentIssue p))) ->
  Forall (fun x => entry_defined x = true) (items (case2Data (renderedIssue p))) ->
  Forall (fun x => entry_defined x = true)
    (items (case2Data (currentIssue (handle p e)))).
Proof.
  intros He [Hlen _] [Hlen' _] Hp Hr.
  destruct e as [l| |issue| |v|c|v|v|x|x|i v|i x|i x|s0 url|k result|];
    cbn [handle] in *; try exact Hp; try exact Hr.
  - repeat constructor.
  - unfold openEditIssueDialog, hydrate. cbn.
    destruct (String.eqb (Issue.issue_type issue) "single"); cbn;
      repeat constructor.
  - repeat constructor.
  - apply entries_defined_editItem; [| exact Hr].
    intros [[?|] [?|] [?|] [?|]]; cbn; congruence.
  - apply entries_defined_editItem; [| exact Hr].
    intros [[?|] [?|] [?|] [?|]]; cbn; congruence.
  - apply entries_defined_editItem; [| exact Hr].
    intros [[?|] [?|] [?|] [?|]]; cbn; congruence.
  - destruct s0 as [index|itemIndex]; cbn in *; [exact Hp |].
    apply Nat.ltb_lt in He. rewrite Hlen', <- Hlen in He.
    rewrite assign_in_range by assumption.
    apply Forall_insert; [exact Hp |].
    destruct (lookup_lt_is_Some_2 _ _ He) as [entry Hentry].
    assert (Hdef : entry_defined entry = true).
    { rewrite Forall_forall in Hp. apply Hp.
      apply list_elem_of_lookup. eauto. }
    destruct entry as [item|]; [| discriminate].
    rewrite (proj2 (index_Some _ _ _) Hentry). cbn [spread_with_photo].
    apply entry_defined_with_photo. exact Hdef.
  - unfold settleUpload. destruct (awaiting p !! k) as [u0|]; [| exact Hp].
    cbn.
    destruct (settleDraft_guard u0 result (currentIssue p)) as [Hsame Hstale].
    destruct (JS.strict_ne (held (currentIssue p) (slot u0)) (previewUrl u0))
      eqn:Eg.
    + rewrite Hstale
        by (intros H; apply strict_ne_false in H; congruence).
      exact Hp.
    + apply strict_ne_false in Eg. rewrite Hsame by assumption.
      unfold replaced. destruct (slot u0) as [index|itemIndex]; [exact Hp |].
      destruct (JS.index (items (case2Data (currentIssue p))) itemIndex)
        as [item|] eqn:E; [| exact Hp].
      cbn. apply Forall_insert; [exact Hp |].
      apply entry_defined_with_photo.
      apply index_Some in E. rewrite Forall_forall in Hp. apply Hp.
      apply list_elem_of_lookup. eauto.
Qed.

Lemma entries_defined_run (events : list Event) (p : Page) :
  from_form p events = true ->
  formShape (currentIssue p) -> formShape (renderedIssue p) ->
  Forall (fun x => entry_defined x = true) (items (case2Data (currentIssue p))) ->
  Forall (fun x => entry_defined x = true) (items (case2Data (renderedIssue p))) ->
  Forall (fun x => entry_defined x = true)
    (items (case2Data (currentIssue (run p events)))).
Proof.
  revert p.
  induction events as [|e events IH]; intros p Hf Hs Hs' Hp Hr; [exact Hp |].
  cbn in Hf. apply andb_true_iff in Hf as [He Hf].
  destruct (formShape_step p e He Hs Hs') as [Hs1 Hs1'].
  destruct (step_both
              (fun d => Forall (fun x => entry_defined x = true)
                          (items (case2Data d))) p e
              (entries_defined_handle p e He Hs Hs' Hp Hr) Hr) as [Hp1 Hr1].
  cbn. apply IH; assumption.
Qed.

(** Through any events of the rendered dialog, [case2Data.items] has exactly
    three entries, each present with all of its four fields: no write of the
    page goes past the end of the array or leaves a field undefined. *)
Theorem draft_keeps_declared_type (events : list Event) :
  from_form initialPage events = true ->
  let d := currentIssue (run initialPage events) in
  length (items (case2Data d)) = 3%nat
  /\ forallb entry_defined (items (case2Data d)) = true.
Proof.
  intros Hform d. split.
  - apply (formShape_reached events Hform).
  - apply forallb_forall. apply List.Forall_forall. subst d.
    apply entries_defined_run;
      [exact Hform | unfold formShape; cbn; lia | unfold formShape; cbn; lia
      | repeat constructor | repeat constructor].
Qed.

Lemma draft_keeps_declared_type_witness :
  let d := currentIssue
             (run initialPage
                [EditIssueClicked persisted_multiple;
                 FileChosen (Case2Photo 2) "blob:c"; Case2QuantityTyped 0 0%float;
                 UploadSettled 0 None]) in
  length (items (case2Data d)) = 3%nat
  /\ forallb entry_defined (items (case2Data d)) = true.
Proof.
  cbv zeta.
  apply (draft_keeps_declared_type
           [EditIssueClicked persisted_multiple;
            FileChosen (Case2Photo 2) "blob:c"; Case2QuantityTyped 0 0%float;
            UploadSettled 0 None]).
  reflexivity.
Defined.

(** ** No NaN in the draft *)









(** ** Re-opening a stored issue *)

Lemma gt0_truthy (x : JS.number) : JS.gt0 x = true -> JS.truthy_number x = true.
Proof.
  intros H. unfold JS.truthy_number. rewrite (gt0_not_nan x H), orb_false_r.
  revert H. unfold JS.gt0, PrimFloat.is_zero.
  rewrite FloatAxioms.ltb_spec, FloatAxioms.eqb_spec.
  replace (Prim2SF PrimFloat.zero) with (S754_zero false) by reflexivity.
  replace (Prim2SF 0) with (S754_zero false) by reflexivity.
  destruct (Prim2SF x) as [s|s| |s m e];
    try destruct s; cbn; try reflexivity; try discriminate.
Qed.

Lemma or_number_gt0 (x d : JS.number) : JS.gt0 x = true -> JS.or_number x d = x.
Proof. intros H. unfold JS.or_number. rewrite (gt0_truthy x H). reflexivity. Qed.

Lemma complete_item_facts (it : Issue.Item) :
  complete_item it = true ->
  JS.truthy_string (Issue.sub_item_id it) = true
  /\ JS.gt0 (Issue.quantity it) = true
  /\ exists x, Issue.unit_price it = Some x /\ JS.gt0 x = true.
Proof.
  unfold complete_item. rewrite !andb_true_iff. intros [[Hs Hq] Hp].
  destruct (Issue.unit_price it) as [x|]; [| discriminate]. eauto.
Qed.

(** An issue as a valid save stores it re-opens as a valid draft, and saving
    that draft unchanged writes the stored values back: the same sub items,
    quantities and unit prices, and the same three photo URLs in order. *)
Theorem reopened_issue_round_trip (subs : list SubItem.t) (issueId : string)
    (issue : Issue.t) :
  complete_issue issue = true ->
  validateIssue (hydrate issue) = true
  /\ itemRows subs issueId (hydrate issue)
     = List.map (fun it => Some (storedRow issueId it)) (Issue.issue_items issue)
  /\ photoRows issueId (hydrate issue)
     = List.map (fun u => Some (PhotoRow.mk issueId (Some u)))
         (Issue.issue_photos issue).
Proof.
  unfold complete_issue. rewrite !andb_true_iff.
  intros ((((Hmain & Hlen) & Hitems) & Hplen) & Hphotos).
  apply Nat.eqb_eq in Hlen, Hplen.
  destruct issue as [iid itype main inotes rows photos]. cbn in *.
  destruct photos as [|u1 [|u2 [|u3 [|u4 photos]]]]; try discriminate.
  cbn in Hphotos. rewrite !andb_true_iff in Hphotos.
  destruct Hphotos as (Hu1 & Hu2 & Hu3 & _).
  unfold hydrate, validateIssue, validate_run. cbn.
  destruct (String.eqb itype "single"); cbn.
  - destruct rows as [|it [|it2 rows]]; try discriminate.
    cbn in Hitems. rewrite andb_true_r in Hitems.
    apply complete_item_facts in Hitems as (Hs & Hq & x & Hx & Hxpos).
    unfold storedRow, itemRows, photoRows, nonempty_photos, filter_holes.
    cbn. rewrite Hmain, Hs, Hu1, Hu2, Hu3, Hx. cbn.
    rewrite (or_number_gt0 _ _ Hq), (or_number_gt0 _ _ Hxpos).
    assert (Hle : forall y, JS.gt0 y = true -> JS.le0 y = false).
    { intros y Hy. apply le0_false_iff. left. exact Hy. }
    unfold JS.le0 in Hle. rewrite (Hle _ Hq), (Hle _ Hxpos). repeat split.
  - destruct rows as [|a [|b [|c [|e rows]]]]; try discriminate.
    cbn in Hitems. rewrite !andb_true_iff in Hitems.
    destruct Hitems as (Ha & Hb & Hc & _).
    apply complete_item_facts in Ha as (Has & Haq & xa & Hxa & Hxapos).
    apply complete_item_facts in Hb as (Hbs & Hbq & xb & Hxb & Hxbpos).
    apply complete_item_facts in Hc as (Hcs & Hcq & xc & Hxc & Hxcpos).
    unfold storedRow, itemRows, photoRows, validItems, filter_holes, valid_item,
      priceOrCatalogue.
    cbn. rewrite Hmain, Has, Hbs, Hcs, Hu1, Hu2, Hu3, Hxa, Hxb, Hxc. cbn.
    rewrite !(or_number_gt0 _ _ Haq), !(or_number_gt0 _ _ Hbq),
      !(or_number_gt0 _ _ Hcq), !(or_number_gt0 _ _ Hxapos),
      !(or_number_gt0 _ _ Hxbpos), !(or_number_gt0 _ _ Hxcpos).
    unfold JS.gt0 in *. rewrite Haq, Hbq, Hcq, Hxapos, Hxbpos, Hxcpos. cbn.
    repeat split.
Qed.

Lemma reopened_issue_round_trip_witness :
  validateIssue (hydrate persisted_single) = true
  /\ itemRows [] "i1" (hydrate persisted_single)
     = [Some (ItemRow.mk "i1" (Some "s1") (Some 2%float) 50%float)]
  /\ photoRows "i1" (hydrate persisted_single)
     = [Some (PhotoRow.mk "i1" (Some "u1")); Some (PhotoRow.mk "i1" (Some "u2"));
        Some (PhotoRow.mk "i1" (Some "u3"))].
Proof.
  apply (reopened_issue_round_trip [] "i1" persisted_single). reflexivity.
Defined.

(** ** [compressImage], the remaining paths *)

(** The two returns before any image work. *)
Lemma compressImage_fast_path (fuel : nat) (w : Browser) (file : File.t)
    (maxDimension targetSizeKb : JS.number) :
  hasImage w = false \/ (File.size file <=? targetSizeKb * 1024)%float = true ->
  compressImage fuel w file maxDimension targetSizeKb = Some (Returns file, []).
Proof.
  intros H. unfold compressImage.
  destruct (hasImage w); cbn [negb]; [| reflexivity].
  destruct H as [H|H]; [discriminate |]. rewrite H. reflexivity.
Qed.

(** The runs of [compressImage] past the fast path, with what each test and
    each encode gave kept in the context. *)
Ltac compress_cases w file maxDimension targetSizeKb :=
  unfold compressImage;
  destruct (hasImage w) eqn:?Himage; cbn [negb];
  [ destruct (File.size file <=? targetSizeKb * 1024)%float eqn:?Hsmall;
    [ | destruct (decode w file) as [[?width0 ?height0]|] eqn:?Hdecode;
        [ destruct (fit width0 height0 maxDimension) as [?width ?height] eqn:?Hfit;
          destruct (hasContext w) eqn:?Hcontext; cbn [negb];
          [ destruct (toBlob w width height initialQuality) as [?size0|] eqn:?E0;
            [ cbn [lowerQuality];
              rewrite floor_below_initial, quality_after_one, andb_true_r;
              destruct (targetSizeKb * 1024 <? size0)%float eqn:?T0;
              [ destruct (toBlob w width height 0.64%float) as [?size1|] eqn:?E1;
                [ rewrite floor_below_64, quality_after_two, andb_true_r;
                  destruct (targetSizeKb * 1024 <? size1)%float eqn:?T1;
                  [ destruct (toBlob w width height 0.56%float) as [?size2|] eqn:?E2;
                    [ rewrite floor_above_56, andb_false_r | ]
                  | ]
                | ]
              | ]
            | ]
          | ]
        | ] ]
  | ].

(** With fuel for three tests of the loop condition [compressImage] completes;
    its encodes are the first one, two or three of the qualities 0.72, 0.64
    and 0.56. A file it returns is the given one, with no encode, or a JPEG of
    the size of the last encode, and such a file is above the target size only
    after all three qualities were tried. *)
Theorem compressImage_result (fuel : nat) (w : Browser) (file : File.t)
    (maxDimension targetSizeKb : JS.number) :
  (3 <= fuel)%nat ->
  exists c encodes,
    compressImage fuel w file maxDimension targetSizeKb = Some (c, encodes)
    /\ (exists rest, [0.72; 0.64; 0.56]%float = (encodes ++ rest)%list)
    /\ forall f, c = Returns f ->
         (f = file /\ encodes = [])
         \/ (File.name f = stamp w /\ File.type f = "image/jpeg"
             /\ (exists width0 height0,
                   decode w file = Some (width0, height0)
                   /\ toBlob w (fst (fit width0 height0 maxDimension))
                        (snd (fit width0 height0 maxDimension))
                        (List.last encodes 0%float)
                      = Some (File.size f))
             /\ ((targetSizeKb * 1024 <? File.size f)%float = true ->
                 encodes = [0.72; 0.64; 0.56]%float)).
Proof.
  intros Hfuel. destruct fuel as [|[|[|fuel]]]; try lia. clear Hfuel.
  compress_cases w file maxDimension targetSizeKb;
    eexists _, _; (split; [reflexivity |]);
    (split; [eexists; cbn; reflexivity |]);
    intros f Hf; try discriminate Hf; injection Hf as <-;
    try (left; split; reflexivity);
    right; cbn [File.name File.type File.size];
    (split; [reflexivity |]); (split; [reflexivity |]);
    (split; [exists width0, height0; rewrite Hfit; cbn; auto |]);
    intros Habove; try reflexivity; congruence.
Qed.

Lemma compressImage_result_witness :
  exists c encodes,
    compressImage 3 camera large_photo 1400%float 900%float = Some (c, encodes)
    /\ (exists rest, [0.72; 0.64; 0.56]%float = (encodes ++ rest)%list)
    /\ forall f, c = Returns f ->
         (f = large_photo /\ encodes = [])
         \/ (File.name f = stamp camera /\ File.type f = "image/jpeg"
             /\ (exists width0 height0,
                   decode camera large_photo = Some (width0, height0)
                   /\ toBlob camera (fst (fit width0 height0 1400%float))
                        (snd (fit width0 height0 1400%float))
                        (List.last encodes 0%float)
                      = Some (File.size f))
             /\ ((900 * 1024 <? File.size f)%float = true ->
                 encodes = [0.72; 0.64; 0.56]%float)).
Proof.
  apply (compressImage_result 3 camera large_photo 1400%float 900%float). lia.
Defined.

(** ** [uploadPhoto] *)

Lemma only_all_chars (keep : Ascii.ascii -> bool) (s : string) :
  all_chars keep (only keep s) = true.
Proof.
  induction s as [|c s IH]; cbn; [reflexivity |].
  destruct (keep c) eqn:E; cbn; [rewrite E |]; exact IH.
Qed.

(** Whatever type and name the file has, the extension of the name it is
    stored under is not empty and has only letters and digits. *)
Theorem safeExt_safe (f : File.t) :
  safeExt f <> "" /\ all_chars alnum_char (safeExt f) = true.
Proof.
  unfold safeExt, or_string.
  destruct (JS.truthy_string (only alnum_char (typeExt f))) eqn:E.
  - split; [| apply only_all_chars].
    apply truthy_string_iff. exact E.
  - split; [discriminate | reflexivity].
Qed.

Example split_examples :
  split "/"%char "image/jpeg" = ["image"; "jpeg"]
  /\ split "."%char "a.b.png" = ["a"; "b"; "png"]
  /\ split "/"%char "" = [""]
  /\ split "."%char "photo." = ["photo"; ""]
  /\ split "."%char ".hidden" = [""; "hidden"].
Proof. repeat split. Qed.

Example safeExt_examples :
  safeExt (File.mk 1%float "a.png" "image/png") = "png"
  /\ safeExt (File.mk 1%float "a.PNG" "") = "PNG"
  /\ safeExt (File.mk 1%float "scan" "image/svg+xml") = "svgxml"
  /\ safeExt (File.mk 1%float "scan" "") = "scan"
  /\ safeExt (File.mk 1%float "" "") = "jpg"
  /\ safeExt (File.mk 1%float "a.$$$" "image/") = "jpg".
Proof. repeat split. Qed.

(** A signed-in user uploads a file of at most 900 KB: the very file goes to
    the storage, whatever the browser can do and whoever wins the race. *)
Theorem small_file_uploaded_as_is (fuel : nat) (userId : string)
    (w : UploadWorld) (file : File.t) :
  (File.size file <=? 900 * 1024)%float = true ->
  exists c,
    uploadPhoto fuel (Some userId) w file
    = Some (c, Some (storageName userId w file, file)).
Proof.
  intros Hsmall. unfold uploadPhoto, fileToUpload, compressImageDefault.
  rewrite (compressImage_fast_path fuel (browser w) file 1400%float 900%float
             (or_intror Hsmall)).
  assert (Hsame : (if timerFirst w then Some file
                   else Some (if (0 <? File.size file)%float then file else file))
                  = Some file).
  { destruct (timerFirst w), (0 <? File.size file)%float; reflexivity. }
  rewrite Hsame.
  destruct (storageUpload w (storageName userId w file) file); eauto.
Qed.

Lemma small_file_uploaded_as_is_witness :
  exists c,
    uploadPhoto 0 (Some "user1") (phone false) small_photo
    = Some (c, Some ("user1/1700000000000_k3x9d.png", small_photo)).
Proof.
  apply (small_file_uploaded_as_is 0 "user1" (phone false) small_photo).
  reflexivity.
Defined.

(** With fuel for three tests of the loop condition, the upload of a signed-in
    user reaches the storage. The file handed over is the chosen one, or a
    JPEG of [compressImage] that is not empty; that one is stored under the
    extension [jpeg], not the [jpg] of its name, and only when compression
    finished before the timer on a chosen file above 900 KB. *)
Theorem uploaded_file (fuel : nat) (userId : string) (w : UploadWorld)
    (file : File.t) :
  (3 <= fuel)%nat ->
  exists c f,
    uploadPhoto fuel (Some userId) w file
    = Some (c, Some (storageName userId w f, f))
    /\ (f = file
        \/ (File.type f = "image/jpeg" /\ File.name f = stamp (browser w)
            /\ (0 <? File.size f)%float = true
            /\ safeExt f = "jpeg"
            /\ timerFirst w = false
            /\ (File.size file <=? 900 * 1024)%float = false)).
Proof.
  intros Hfuel. destruct fuel as [|[|[|fuel]]]; try lia. clear Hfuel.
  unfold uploadPhoto, fileToUpload, compressImageDefault.
  destruct (timerFirst w) eqn:Htimer.
  { destruct (storageUpload w (storageName userId w file) file);
      eexists _, file; split; try reflexivity; left; reflexivity. }
  compress_cases (browser w) file 1400%float 900%float;
    match goal with
    | |- context [(0 <? File.size ?g)%float] =>
        destruct (0 <? File.size g)%float eqn:Hpos
    | _ => idtac
    end;
    match goal with
    | |- context [storageUpload w ?n ?g] =>
        destruct (storageUpload w n g); eexists _, g;
        (split; [reflexivity |])
    end;
    first [ left; reflexivity
          | right; repeat split; solve [reflexivity | exact Hpos] ].
Qed.

Lemma uploaded_file_witness :
  exists c f,
    uploadPhoto 3 (Some "user1") (phone false) large_photo
    = Some (c, Some (storageName "user1" (phone false) f, f))
    /\ (f = large_photo
        \/ (File.type f = "image/jpeg" /\ File.name f = stamp camera
            /\ (0 <? File.size f)%float = true
            /\ safeExt f = "jpeg"
            /\ timerFirst (phone false) = false
            /\ (File.size large_photo <=? 900 * 1024)%float = false)).
Proof.
  apply (uploaded_file 3 "user1" (phone false) large_photo). lia.
Defined.

Example upload_of_large_photo :
  uploadPhoto 3 (Some "user1") (phone false) large_photo
  = Some (Returns "https://storage/user1/1700000000000_k3x9d.jpeg",
          Some ("user1/1700000000000_k3x9d.jpeg",
                File.mk 2000000%float "1700000000000.jpg" "image/jpeg"))
  /\ uploadPhoto 3 (Some "user1") (phone true) large_photo
     = Some (Returns "https://storage/user1/1700000000000_k3x9d.png",
             Some ("user1/1700000000000_k3x9d.png", large_photo))
  /\ uploadPhoto 3 None (phone false) large_photo = Some (Throws, None).
Proof. repeat split; vm_compute; reflexivity. Qed.

(** ** The map-photo endpoint: key, early answers, storage path *)


(** The key the handler uses is the first non-empty one of the local
    constant, [GMAPS_KEY] and [NEXT_PUBLIC_GMAPS_KEY]; without one there is no
    usable key. The handler's own fallback to [GMAPS_KEY] never supplies a key
    that [mapPhotoConfig.gmapsKey] does not already hold. *)
Theorem api_key_sources (k : MapPhoto.Keys) :
  JS.truthy_ostring (MapPhoto.apiKey k) = JS.truthy_ostring (MapPhoto.gmapsKey k)
  /\ (JS.truthy_ostring (MapPhoto.apiKey k) = true ->
      MapPhoto.apiKey k = MapPhoto.gmapsKey k)
  /\ match firstNonEmpty [MapPhoto.local_key k; MapPhoto.env_GMAPS_KEY k;
                          MapPhoto.env_NEXT_PUBLIC_GMAPS_KEY k] with
     | Some key => MapPhoto.apiKey k = Some key /\ key <> ""
     | None => JS.truthy_ostring (MapPhoto.apiKey k) = false
     end.
Proof.
  destruct k as [[[|c1 s1]|] [[|c2 s2]|] [[|c3 s3]|]];
    cbn; repeat split; try reflexivity; try discriminate.
Qed.

Lemma api_key_sources_witness :
  MapPhoto.apiKey (MapPhoto.keys (sample_world 200))
  = MapPhoto.gmapsKey (MapPhoto.keys (sample_world 200)).
Proof.
  apply (proj1 (proj2 (api_key_sources (MapPhoto.keys (sample_world 200))))).
  reflexivity.
Defined.

Section MapPhotoAnswers.

Variable parseFloat : string -> JS.number.
Variable show_status : Z -> string.
Variable show_number : JS.number -> string.

Let handler := MapPhoto.handler parseFloat show_status show_number.

(** Every answer of the [try] block is a plain [respond]. *)
Local Ltac try_block w r key :=
  unfold MapPhoto.fetchAndStore;
  destruct (MapPhoto.mapUrl _ _ r key) as [url|t];
  [ destruct (MapPhoto.fetch w url) as [m|t];
    [ destruct (MapPhoto.ok m); cbn [negb];
      [ destruct (MapPhoto.arrayBuffer m) as [buffer|t];
        [ destruct (MapPhoto.storagePath _ r) as [path|t];
          [ destruct (MapPhoto.upload w path buffer) as [[message|]|t] | ]
        | ]
      | destruct (MapPhoto.text m) as [txt|t] ]
    | ]
  | ].

(** The handler answers with one of five status codes. 405 goes to every
    request that is not a POST and to no other, and only that answer carries
    an [Allow] header; the body has a URL and a path exactly when the status
    is 200, and is an error message otherwise. A POST without a usable key is
    answered 500 whatever it asks for. *)
Theorem handler_answers (w : MapPhoto.World) (r : MapPhoto.Request) :
  let response := handler w r in
  In (MapPhoto.code response) [200; 400; 405; 500; 502]%Z
  /\ (MapPhoto.code response = 405%Z <-> MapPhoto.method r <> Some "POST")
  /\ MapPhoto.allow response
     = (if (MapPhoto.code response =? 405)%Z then Some "POST" else None)
  /\ (MapPhoto.code response = 200%Z <->
      exists url path, MapPhoto.body response = MapPhoto.SuccessBody url path)
  /\ (MapPhoto.method r = Some "POST" -> MapPhoto.configured w = false ->
      response
      = MapPhoto.respond 500
          (MapPhoto.ErrorBody "GMAPS_KEY is missing in environment variables")).
Proof.
  cbv zeta. unfold handler, MapPhoto.handler, MapPhoto.configured.
  destruct (MapPhoto.method r) as [m|] eqn:Hm.
  2:{ cbn. repeat split; try tauto; try discriminate.
      intros (? & ? & ?); discriminate. }
  destruct (String.eqb_spec m "POST") as [->|Hne]; cbn [negb].
  2:{ cbn. repeat split; try tauto; try discriminate; try congruence.
      intros (? & ? & ?); discriminate. }
  assert (Hpost : Some "POST" <> Some "POST" -> False) by congruence.
  destruct (MapPhoto.apiKey (MapPhoto.keys w)) as [key|].
  2:{ cbn. repeat split; try tauto; try discriminate.
      intros (? & ? & ?); discriminate. }
  cbn [JS.truthy_ostring].
  destruct (JS.truthy_string key); cbn [negb].
  2:{ cbn. repeat split; try tauto; try discriminate.
      intros (? & ? & ?); discriminate. }
  destruct (MapPhoto.rejected parseFloat r).
  { cbn. repeat split; try tauto; try discriminate.
    intros (? & ? & ?); discriminate. }
  try_block w r key; cbn; repeat split; try tauto; try discriminate;
    try (intros (? & ? & ?); discriminate); eauto.
Qed.

(** A request that is not a POST, a POST without a usable key and a POST
    with a coordinate that is not a number or without an identifier are
    answered without a call to the map provider or to the storage: the answer
    is the same whatever those two would do. *)
Theorem early_answers (w w' : MapPhoto.World) (r : MapPhoto.Request) :
  MapPhoto.keys w = MapPhoto.keys w' ->
  MapPhoto.method r <> Some "POST"
  \/ MapPhoto.configured w = false
  \/ MapPhoto.rejected parseFloat r = true ->
  handler w r = handler w' r
  /\ In (MapPhoto.code (handler w r)) [405; 500; 400]%Z.
Proof.
  intros Hkeys Hearly.
  unfold handler, MapPhoto.handler, MapPhoto.configured in *.
  rewrite <- Hkeys.
  destruct (MapPhoto.method r) as [m|]; [| cbn; auto].
  destruct (String.eqb_spec m "POST") as [->|Hne]; cbn [negb]; [| cbn; auto].
  destruct (MapPhoto.apiKey (MapPhoto.keys w)) as [key|]; [| cbn; auto].
  cbn [JS.truthy_ostring] in Hearly.
  destruct (JS.truthy_string key); cbn [negb]; [| cbn; auto].
  destruct (MapPhoto.rejected parseFloat r); [cbn; auto |].
  destruct Hearly as [H|[H|H]]; congruence.
Qed.


End MapPhotoAnswers.

Lemma handler_answers_witness :
  sample_handler keyless_world (sample_request "POST" (MapPhoto.VString "24.71"))
  = MapPhoto.respond 500
      (MapPhoto.ErrorBody "GMAPS_KEY is missing in environment variables").
Proof.
  apply (proj2 (proj2 (proj2 (proj2
           (handler_answers sample_parseFloat (fun _ => "403") sample_show_number
              keyless_world
              (sample_request "POST" (MapPhoto.VString "24.71"))))))).
  - reflexivity.
  - reflexivity.
Defined.


Lemma early_answers_witness :
  sample_handler (sample_world 200) (sample_request "POST" (MapPhoto.VString "north"))
  = sample_handler (sample_world 403) (sample_request "POST" (MapPhoto.VString "north"))
  /\ In (MapPhoto.code
           (sample_handler (sample_world 200)
              (sample_request "POST" (MapPhoto.VString "north"))))
        [405; 500; 400]%Z.
Proof.
  apply (early_answers sample_parseFloat (fun _ => "403") sample_show_number
           (sample_world 200) (sample_world 403)
           (sample_request "POST" (MapPhoto.VString "north")) eq_refl).
  right. right. reflexivity.
Defined.

Example handler_without_key :
  sample_handler keyless_world (sample_request "POST" (MapPhoto.VString "24.71"))
  = MapPhoto.respond 500
      (MapPhoto.ErrorBody "GMAPS_KEY is missing in environment variables").
Proof. reflexivity. Qed.

(** The identifier is not cleaned: a [targetId] with path separators goes
    into the storage path as it is. *)
Example storagePath_identifier_as_given :
  MapPhoto.storagePath sample_show_number
    {| MapPhoto.method := Some "POST";
       MapPhoto.lat := MapPhoto.VNumber 1%float;
       MapPhoto.lng := MapPhoto.VNumber 1%float;
       MapPhoto.reportId := MapPhoto.VUndefined;
       MapPhoto.targetId := MapPhoto.VString "../x";
       MapPhoto.targetType := MapPhoto.VString "../../" |}
  = MapPhoto.Ok "map-photos/map-../x.jpg".
Proof. reflexivity. Qed.

(** ** [autoFetchMap] *)

Lemma toJson_shape (x : JS.number) :
  MapFetch.toJson x = MapPhoto.VNull
  \/ exists y, MapFetch.toJson x = MapPhoto.VNumber y /\ PrimFloat.is_nan y = false.
Proof.
  unfold MapFetch.toJson, PrimFloat.is_finite.
  destruct (PrimFloat.is_nan x) eqn:Hnan; cbn [orb negb]; [left; reflexivity |].
  destruct (PrimFloat.is_infinity x); cbn [negb]; [left; reflexivity |].
  right. exists x. auto.
Qed.

Lemma consistent_initial : MapFetch.consistent MapFetch.initial.
Proof.
  unfold MapFetch.consistent. cbn.
  repeat split; try lia; try discriminate; intros; contradiction.
Qed.

Lemma consistent_step (st : MapFetch.State) (e : MapFetch.Event) :
  MapFetch.consistent st -> MapFetch.consistent (MapFetch.step st e).
Proof.
  intros Hst. destruct e as [r| |a]; cbn [MapFetch.step].
  - exact Hst.
  - unfold MapFetch.autoFetchMap.
    destruct (MapFetch.mapFetchAttempted st) eqn:Hattempted; cbn [orb];
      [exact Hst |].
    destruct (MapFetch.isFetchingMap st); [exact Hst |].
    destruct (MapFetch.report st) as [r|]; [| exact Hst].
    destruct (JS.truthy_ostring (MapFetch.map_photo_url r)); [exact Hst |].
    destruct (MapFetch.mosques r) as [[[lat|] [lng|]]|]; try exact Hst.
    destruct (negb (JS.truthy_number lat) || negb (JS.truthy_number lng));
      [exact Hst |].
    destruct Hst as (Hfresh & _).
    destruct (Hfresh Hattempted) as (Hreq & Hwait & Hupd).
    unfold MapFetch.consistent. cbn. rewrite Hreq, Hupd. cbn.
    split; [discriminate |].
    split; [lia |].
    split.
    { intros v [= <-]. split; [reflexivity |].
      eexists. split; [left; reflexivity | reflexivity]. }
    split; [lia |].
    split; [intros v url [] |].
    intros request [<-|[]]. cbn.
    split; [reflexivity |]. split; [reflexivity |]. split; [reflexivity |].
    split; [eauto |]. split; apply toJson_shape.
  - unfold MapFetch.resume.
    destruct (MapFetch.waiting st) as [reportId|] eqn:Hwaiting; [| exact Hst].
    destruct Hst as (Hfresh & Hone & Hwait & Hupd1 & Hupd & Hreqs).
    destruct (Hwait reportId Hwaiting) as (Hnone & request & Hin & Hid).
    assert (Hattempted : MapFetch.mapFetchAttempted st = true).
    { destruct (MapFetch.mapFetchAttempted st) eqn:Ha; [reflexivity |].
      destruct Hfresh as (_ & Hw & _); [first [exact Ha | reflexivity] |].
      congruence. }
    assert (Hsame :
              MapFetch.consistent
                {| MapFetch.mapFetchAttempted := MapFetch.mapFetchAttempted st;
                   MapFetch.isFetchingMap := false;
                   MapFetch.report := MapFetch.report st;
                   MapFetch.waiting := None;
                   MapFetch.requests := MapFetch.requests st;
                   MapFetch.updates := MapFetch.updates st |}).
    { unfold MapFetch.consistent. cbn. rewrite Hattempted, Hnone. cbn.
      split; [discriminate |]. split; [exact Hone |]. split; [discriminate |].
      split; [lia |]. split; [intros v url [] | exact Hreqs]. }
    destruct a as [|[|] [url|] updated]; try exact Hsame.
    destruct (JS.truthy_string url) eqn:Hurl; [| exact Hsame].
    unfold MapFetch.consistent. cbn. rewrite Hattempted, Hnone. cbn.
    split; [discriminate |]. split; [exact Hone |]. split; [discriminate |].
    split; [lia |]. split; [| exact Hreqs].
    intros v u [[= <- <-]|[]].
    split; [apply truthy_string_iff; exact Hurl |]. exists request. auto.
Qed.

Lemma consistent_run (events : list MapFetch.Event) (st : MapFetch.State) :
  MapFetch.consistent st -> MapFetch.consistent (MapFetch.run st events).
Proof.
  revert st. induction events as [|e events IH]; intros st Hst; [exact Hst |].
  cbn. apply IH. apply consistent_step. exact Hst.
Qed.

(** However often the effect runs and whatever report is set in between, the
    page sends at most one request to the endpoint while it is mounted and
    calls [updateReport] at most once; what it writes is a non-empty URL, to
    the report the request was sent for. An attempt that failed is not
    repeated. *)
Theorem one_map_request (events : list MapFetch.Event) :
  let st := MapFetch.run MapFetch.initial events in
  (length (MapFetch.requests st) <= 1)%nat
  /\ (length (MapFetch.updates st) <= 1)%nat
  /\ forall v url, In (v, url) (MapFetch.updates st) ->
       url <> ""
       /\ exists request,
            In request (MapFetch.requests st)
            /\ MapPhoto.reportId request = MapPhoto.VString v.
Proof.
  cbv zeta.
  destruct (consistent_run events MapFetch.initial consistent_initial)
    as (_ & Hone & _ & Hupd1 & Hupd & _).
  auto.
Qed.

Lemma one_map_request_witness :
  let st := MapFetch.run MapFetch.initial
              [MapFetch.ReportSet (Some riyadh); MapFetch.EffectRun;
               MapFetch.MapAnswered
                 (MapFetch.Answered true (Some "https://storage/m.jpg") true);
               MapFetch.EffectRun] in
  "https://storage/m.jpg" <> ""
  /\ exists request,
       In request (MapFetch.requests st)
       /\ MapPhoto.reportId request = MapPhoto.VString "r1".
Proof.
  cbv zeta.
  apply (proj2 (proj2
           (one_map_request
              [MapFetch.ReportSet (Some riyadh); MapFetch.EffectRun;
               MapFetch.MapAnswered
                 (MapFetch.Answered true (Some "https://storage/m.jpg") true);
               MapFetch.EffectRun]))).
  left. reflexivity.
Defined.

Example map_fetch_not_repeated :
  let st := MapFetch.run MapFetch.initial
              [MapFetch.ReportSet (Some riyadh); MapFetch.EffectRun;
               MapFetch.EffectRun; MapFetch.MapAnswered MapFetch.NoAnswer;
               MapFetch.EffectRun] in
  MapFetch.requests st = [MapFetch.mapRequest riyadh 24.71%float 46.67%float]
  /\ MapFetch.updates st = []
  /\ MapFetch.isFetchingMap st = false.
Proof. repeat split. Qed.

(** A coordinate 0 counts as missing: no request is sent for it. *)
Example map_fetch_on_the_equator :
  MapFetch.requests
    (MapFetch.run MapFetch.initial
       [MapFetch.ReportSet (Some on_the_equator); MapFetch.EffectRun])
  = [].
Proof. reflexivity. Qed.

Section MapFetchAnswered.

Variable parseFloat : string -> JS.number.
Variable show_status : Z -> string.
Variable show_number : JS.number -> string.

(** Every request the page sends is a POST for a report, with coordinates
    that are numbers other than NaN, or null where the column held an
    infinity. With a key configured the handler answers none of them with 405,
    and with 400 only for an empty report identifier or a null coordinate;
    the identifier is a string, its conversion does not throw, and what the
    handler stores goes to [map-photos/report-<id>.jpg]. *)
Theorem sent_request_accepted (events : list MapFetch.Event)
    (w : MapPhoto.World) (request : MapPhoto.Request) :
  In request (MapFetch.requests (MapFetch.run MapFetch.initial events)) ->
  MapPhoto.configured w = true ->
  let response := MapPhoto.handler parseFloat show_status show_number w request in
  MapPhoto.code response <> 405%Z
  /\ (MapPhoto.code response = 400%Z <->
      MapPhoto.reportId request = MapPhoto.VString ""
      \/ MapPhoto.lat request = MapPhoto.VNull
      \/ MapPhoto.lng request = MapPhoto.VNull)
  /\ (MapPhoto.reportId request <> MapPhoto.VString "" ->
      exists v,
        MapPhoto.reportId request = MapPhoto.VString v
        /\ MapPhoto.storagePath show_number request
           = MapPhoto.Ok ("map-photos/report-" ++ v ++ ".jpg")).
Proof.
  intros Hin Hkey. cbv zeta.
  destruct (consistent_run events MapFetch.initial consistent_initial)
    as (_ & _ & _ & _ & _ & Hreqs).
  destruct (Hreqs request Hin) as (Hm & Htid & Htype & (v & Hid) & Hlat & Hlng).
  clear Hreqs Hin.
  assert (Hcodes :
            forall key,
              MapPhoto.code
                (MapPhoto.fetchAndStore parseFloat show_status show_number
                   w request key) <> 400%Z
              /\ MapPhoto.code
                   (MapPhoto.fetchAndStore parseFloat show_status show_number
                      w request key) <> 405%Z).
  { intros key.
    destruct (fetchAndStore_codes parseFloat show_status show_number w request key)
      as [H|[H|H]]; rewrite H; split; discriminate. }
  assert (Hrej :
            MapPhoto.rejected parseFloat request = true <->
            MapPhoto.reportId request = MapPhoto.VString ""
            \/ MapPhoto.lat request = MapPhoto.VNull
            \/ MapPhoto.lng request = MapPhoto.VNull).
  { unfold MapPhoto.rejected, MapPhoto.resolvedId, MapPhoto.or.
    rewrite Htid, Hid. cbn [MapPhoto.truthy].
    destruct Hlat as [Hlat|(x & Hlat & Hx)], Hlng as [Hlng|(y & Hlng & Hy)];
      rewrite Hlat, Hlng; cbn; try rewrite Hx; try rewrite Hy; cbn;
      try (split; [intros _; tauto | reflexivity]).
    destruct v as [|c v]; cbn.
    - split; [intros _; left; reflexivity | reflexivity].
    - split; [discriminate |]. intros [H|[H|H]]; discriminate. }
  unfold MapPhoto.handler, MapPhoto.configured in *. rewrite Hm.
  replace (("POST" =? "POST")%string) with true by reflexivity. cbn [negb].
  destruct (MapPhoto.apiKey (MapPhoto.keys w)) as [key|]; [| discriminate].
  cbn in Hkey. rewrite Hkey. cbn [negb].
  destruct (Hcodes key) as (Hn400 & Hn405).
  split; [| split].
  - destruct (MapPhoto.rejected parseFloat request); [discriminate | exact Hn405].
  - rewrite <- Hrej.
    destruct (MapPhoto.rejected parseFloat request);
      [split; reflexivity | split; [contradiction | discriminate]].
  - intros Hne. exists v. split; [exact Hid |].
    unfold MapPhoto.storagePath, MapPhoto.safeType, MapPhoto.resolvedType,
      MapPhoto.resolvedId, MapPhoto.or.
    rewrite Htype, Htid, Hid in *. cbn [MapPhoto.truthy].
    destruct v as [|c v]; [congruence |]. reflexivity.
Qed.

End MapFetchAnswered.

Lemma sent_request_accepted_witness :
  let request := MapFetch.mapRequest riyadh 24.71%float 46.67%float in
  let response := sample_handler (sample_world 200) request in
  MapPhoto.code response <> 405%Z
  /\ (MapPhoto.code response = 400%Z <->
      MapPhoto.reportId request = MapPhoto.VString ""
      \/ MapPhoto.lat request = MapPhoto.VNull
      \/ MapPhoto.lng request = MapPhoto.VNull)
  /\ (MapPhoto.reportId request <> MapPhoto.VString "" ->
      exists v,
        MapPhoto.reportId request = MapPhoto.VString v
        /\ MapPhoto.storagePath sample_show_number request
           = MapPhoto.Ok ("map-photos/report-" ++ v ++ ".jpg")).
Proof.
  cbv zeta.
  apply (sent_request_accepted sample_parseFloat (fun _ => "403") sample_show_number
           [MapFetch.ReportSet (Some riyadh); MapFetch.EffectRun]
           (sample_world 200)
           (MapFetch.mapRequest riyadh 24.71%float 46.67%float)).
  - left. reflexivity.
  - reflexivity.
Defined.

(** ** How a report delete ends *)

(** The delete does not start without a route parameter or without the user's
    confirmation, and then sends nothing. It ends as deleted exactly when no
    call of the plan throws. When it fails, the call that threw is the last
    one sent, and the calls before it went through; the report itself is
    deleted, or tried, only after the three deletes by issue went through. *)
Theorem delete_report_outcome (id : option string) (confirmed : bool)
    (issueIds : list string) (throws : Mutation -> bool) :
  let sent := fst (handleDeleteReport id confirmed issueIds throws) in
  let result := snd (handleDeleteReport id confirmed issueIds throws) in
  (result = DeleteNotStarted <->
   id = None \/ id = Some "" \/ confirmed = false)
  /\ (result = DeleteNotStarted -> sent = [])
  /\ (result = Deleted <->
      exists v, id = Some v /\ v <> "" /\ confirmed = true
                /\ forallb (fun m => negb (throws m)) (deletePlan v issueIds) = true)
  /\ (result = DeleteFailed ->
      exists earlier m,
        sent = (earlier ++ [m])%list /\ throws m = true
        /\ forallb (fun m' => negb (throws m')) earlier = true)
  /\ (forall v m, In (DeleteReport v) sent -> In m sent -> m <> DeleteReport v ->
        throws m = false).
Proof.
  cbv zeta. unfold handleDeleteReport.
  destruct id as [v|].
  2:{ cbn. repeat split; auto; try discriminate; try contradiction.
      intros (v & Hv & _). discriminate. }
  destruct v as [|c v].
  { cbn. repeat split; auto; try discriminate; try contradiction.
    intros (v & [= <-] & Hv & _). congruence. }
  cbn [JS.truthy_string String.eqb negb].
  destruct confirmed.
  2:{ cbn. repeat split; auto; try discriminate; try contradiction.
      intros (v' & _ & _ & Hc & _). discriminate. }
  cbn [negb]. unfold deletePlan.
  assert (Hstarted : forall P : Prop,
             Some (String c v) = None \/ Some (String c v) = Some "" \/ true = false
             -> P).
  { intros P [H|[H|H]]; discriminate. }
  destruct issueIds as [|issueId issueIds]; cbn [length Nat.ltb Nat.leb app send].
  - destruct (throws (DeleteReport (String c v))) eqn:Hreport; cbn.
    + split; [split; [discriminate | apply Hstarted] |].
      split; [discriminate |].
      split; [split; [discriminate |] |].
      { intros (v' & [= <-] & _ & _ & Hall). cbn in Hall.
        rewrite ?Hreport in Hall. discriminate. }
      split; [intros _; exists [], (DeleteReport (String c v)); auto |].
      intros v' m [<-|[]] [<-|[]] Hne. congruence.
    + split; [split; [discriminate | apply Hstarted] |].
      split; [discriminate |].
      split; [split; [| reflexivity] |].
      { intros _. exists (String c v). cbn. rewrite ?Hreport. repeat split.
        discriminate. }
      split; [discriminate |].
      intros v' m [<-|[]] [<-|[]] Hne. congruence.
  - set (items := DeleteIn "issue_items" "issue_id" (issueId :: issueIds)).
    set (photos := DeleteIn "issue_photos" "issue_id" (issueId :: issueIds)).
    set (issues := DeleteIn "report_issues" "id" (issueId :: issueIds)).
    set (whole := DeleteReport (String c v)).
    destruct (throws items) eqn:Hitems; cbn.
    { split; [split; [discriminate | apply Hstarted] |].
      split; [discriminate |].
      split; [split; [discriminate |] |].
      { intros (v' & [= <-] & _ & _ & Hall). cbn in Hall.
        fold items photos issues whole in Hall.
        rewrite ?Hitems, ?Hphotos, ?Hissues, ?Hwhole in Hall. discriminate. }
      split; [intros _; exists [], items; auto |].
      intros v' m [H|[]]; discriminate. }
    destruct (throws photos) eqn:Hphotos; cbn.
    { split; [split; [discriminate | apply Hstarted] |].
      split; [discriminate |].
      split; [split; [discriminate |] |].
      { intros (v' & [= <-] & _ & _ & Hall). cbn in Hall.
        fold items photos issues whole in Hall.
        rewrite ?Hitems, ?Hphotos, ?Hissues, ?Hwhole in Hall. discriminate. }
      split; [intros _; exists [items], photos; cbn; rewrite ?Hitems; auto |].
      intros v' m [H|[H|[]]]; discriminate. }
    destruct (throws issues) eqn:Hissues; cbn.
    { split; [split; [discriminate | apply Hstarted] |].
      split; [discriminate |].
      split; [split; [discriminate |] |].
      { intros (v' & [= <-] & _ & _ & Hall). cbn in Hall.
        fold items photos issues whole in Hall.
        rewrite ?Hitems, ?Hphotos, ?Hissues, ?Hwhole in Hall. discriminate. }
      split; [intros _; exists [items; photos], issues; cbn;
              rewrite ?Hitems, ?Hphotos; auto |].
      intros v' m [H|[H|[H|[]]]]; discriminate. }
    destruct (throws whole) eqn:Hwhole; cbn.
    { split; [split; [discriminate | apply Hstarted] |].
      split; [discriminate |].
      split; [split; [discriminate |] |].
      { intros (v' & [= <-] & _ & _ & Hall). cbn in Hall.
        fold items photos issues whole in Hall.
        rewrite ?Hitems, ?Hphotos, ?Hissues, ?Hwhole in Hall. discriminate. }
      split; [intros _; exists [items; photos; issues], whole; cbn;
              rewrite ?Hitems, ?Hphotos, ?Hissues; auto |].
      intros v' m Hin [<-|[<-|[<-|[<-|[]]]]] Hne; try assumption.
      destruct Hne.
      destruct Hin as [H|[H|[H|[H|[]]]]]; try discriminate H; exact H. }
    split; [split; [discriminate | apply Hstarted] |].
    split; [discriminate |].
    split; [split; [| reflexivity] |].
    { intros _. exists (String c v). cbn. fold items photos issues whole.
      rewrite ?Hitems, ?Hphotos, ?Hissues, ?Hwhole. repeat split. discriminate. }
    split; [discriminate |].
    intros v' m _ [<-|[<-|[<-|[<-|[]]]]] Hne; assumption.
Qed.

Lemma delete_report_outcome_witness :
  let throws := fun m => match m with
                         | DeleteIn table _ _ => String.eqb table "issue_photos"
                         | DeleteReport _ => false
                         end in
  exists earlier m,
    fst (handleDeleteReport (Some "r1") true ["i1"; "i2"] throws)
    = (earlier ++ [m])%list
    /\ throws m = true
    /\ forallb (fun m' => negb (throws m')) earlier = true.
Proof.
  cbv zeta.
  apply (proj1 (proj2 (proj2 (proj2
           (delete_report_outcome (Some "r1") true ["i1"; "i2"]
              (fun m => match m with
                        | DeleteIn table _ _ => String.eqb table "issue_photos"
                        | DeleteReport _ => false
                        end)))))).
  reflexivity.
Defined.

Example delete_report_stops_at_photos :
  handleDeleteReport (Some "r1") true ["i1"; "i2"]
    (fun m => match m with
              | DeleteIn table _ _ => String.eqb table "issue_photos"
              | DeleteReport _ => false
              end)
  = ([DeleteIn "issue_items" "issue_id" ["i1"; "i2"];
      DeleteIn "issue_photos" "issue_id" ["i1"; "i2"]], DeleteFailed).
Proof. reflexivity. Qed.

(** ** [seedDatabase] *)

Lemma get_set_eq (key v : string) (map : Seed.IdMap) :
  Seed.get key (Seed.set key v map) = Some v.
Proof.
  induction map as [|[k old] map IH]; cbn.
  - rewrite String.eqb_refl. reflexivity.
  - destruct (String.eqb k key) eqn:E; cbn; rewrite E; [reflexivity | exact IH].
Qed.

Lemma get_set_ne (key k v : string) (map : Seed.IdMap) :
  k <> key -> Seed.get key (Seed.set k v map) = Seed.get key map.
Proof.
  intros Hne. induction map as [|[k' old] map IH]; cbn.
  - destruct (String.eqb_spec k key); [contradiction | reflexivity].
  - destruct (String.eqb_spec k' k) as [->|Hk]; cbn.
    + destruct (String.eqb_spec k key); [contradiction | reflexivity].
    + destruct (String.eqb k' key); [reflexivity | exact IH].
Qed.

(** The loop sets no key outside the temporary identifiers. *)
Lemma insertMainItems_frame (insert : string -> Seed.InsertAnswer)
    (items : list string) :
  forall (map0 : Seed.IdMap) (temps : list string) (map : Seed.IdMap) (key : string),
    Seed.insertMainItems insert items map0 temps = Some map ->
    ~ In key temps ->
    Seed.get key map = Seed.get key map0.
Proof.
  induction items as [|item items IH]; intros map0 temps map key Hrun Hout;
    cbn in Hrun.
  - congruence.
  - destruct (insert item) as [|[v|]]; [discriminate | |];
      [| exact (IH _ _ _ _ Hrun Hout)].
    destruct (JS.truthy_string v); [| exact (IH _ _ _ _ Hrun Hout)].
    destruct temps as [|tempId temps]; [exact (IH _ _ _ _ Hrun Hout) |].
    assert (Hrest : ~ In key temps) by (intros H; apply Hout; right; exact H).
    destruct (JS.truthy_string tempId); [| exact (IH _ _ _ _ Hrun Hrest)].
    rewrite (IH _ _ _ _ Hrun Hrest). apply get_set_ne.
    intros ->. apply Hout. left. reflexivity.
Qed.

Lemma returnedIds_cons (insert : string -> Seed.InsertAnswer) (item : string)
    (items : list string) :
  Seed.returnedIds insert (item :: items)
  = match insert item with
    | Seed.Inserted (Some v) =>
        if JS.truthy_string v then v :: Seed.returnedIds insert items
        else Seed.returnedIds insert items
    | _ => Seed.returnedIds insert items
    end.
Proof.
  unfold Seed.returnedIds. cbn.
  destruct (insert item) as [|[v|]]; try reflexivity.
  destruct (JS.truthy_string v); reflexivity.
Qed.

Lemma insertMainItems_by_position (insert : string -> Seed.InsertAnswer)
    (items : list string) :
  forall (map0 : Seed.IdMap) (temps : list string) (map : Seed.IdMap)
         (i : nat) (temp : string),
    List.NoDup temps ->
    forallb JS.truthy_string temps = true ->
    Seed.insertMainItems insert items map0 temps = Some map ->
    temps !! i = Some temp ->
    Seed.get temp map
    = match Seed.returnedIds insert items !! i with
      | Some v => Some v
      | None => Seed.get temp map0
      end.
Proof.
  induction items as [|item items IH];
    intros map0 temps map i temp Hnodup Htruthy Hrun Hi; cbn in Hrun.
  - injection Hrun as <-. reflexivity.
  - rewrite returnedIds_cons.
    destruct (insert item) as [|[v|]]; [discriminate | |];
      [| exact (IH _ _ _ _ _ Hnodup Htruthy Hrun Hi)].
    destruct (JS.truthy_string v); [| exact (IH _ _ _ _ _ Hnodup Htruthy Hrun Hi)].
    destruct temps as [|tempId temps]; [discriminate Hi |].
    cbn in Htruthy. apply andb_true_iff in Htruthy as [Hfirst Htruthy].
    rewrite Hfirst in Hrun.
    apply List.NoDup_cons_iff in Hnodup as [Hfresh Hnodup].
    destruct i as [|i]; cbn in Hi |- *.
    + injection Hi as <-.
      rewrite (insertMainItems_frame _ _ _ _ _ _ Hrun Hfresh).
      apply get_set_eq.
    + rewrite (IH _ _ _ _ _ Hnodup Htruthy Hrun Hi).
      destruct (Seed.returnedIds insert items !! i); [reflexivity |].
      apply get_set_ne. intros ->. apply Hfresh.
      apply list_elem_of_In. apply (list_elem_of_lookup_2 _ _ _ Hi).
Qed.

(** The temporary identifiers go by position to the identifiers the inserts
    returned, not to the main items they were written for: the i-th temporary
    identifier stands for the i-th identifier that came back, and for none
    when fewer came back. *)
Theorem seed_ids_by_position (insert : string -> Seed.InsertAnswer)
    (items temps : list string) (map : Seed.IdMap) (i : nat) (temp : string) :
  List.NoDup temps ->
  forallb JS.truthy_string temps = true ->
  Seed.insertMainItems insert items [] temps = Some map ->
  temps !! i = Some temp ->
  Seed.get temp map = Seed.returnedIds insert items !! i.
Proof.
  intros Hnodup Htruthy Hrun Hi.
  rewrite (insertMainItems_by_position insert items [] temps map i temp
             Hnodup Htruthy Hrun Hi).
  destruct (Seed.returnedIds insert items !! i); reflexivity.
Qed.

Lemma seed_ids_by_position_witness :
  Seed.get "a2"
    [("a1", "id-Toilets and Ablution Areas"); ("a2", "id-Electricity and Lighting");
     ("a3", "id-Furniture and Carpets")]
  = Seed.returnedIds (Seed.insertMain seed_world_without_second)
      Seed.mainItemsData !! 1%nat.
Proof.
  apply (seed_ids_by_position (Seed.insertMain seed_world_without_second)
           Seed.mainItemsData Seed.tempMainIds
           [("a1", "id-Toilets and Ablution Areas");
            ("a2", "id-Electricity and Lighting");
            ("a3", "id-Furniture and Carpets")] 1 "a2").
  - repeat constructor; cbn; intuition discriminate.
  - reflexivity.
  - reflexivity.
  - reflexivity.
Defined.

(** When the two deletes go through and each of the four inserts returns a
    row with an identifier, the seven sub items are sent with the identifiers
    of their main items: two for the first, two for the second, one for the
    third and two for the fourth. *)
Theorem seed_links_sub_items (w : Seed.World) (ids : string -> string) :
  Seed.deleteSubError w = false ->
  Seed.deleteMainError w = false ->
  (forall item, In item Seed.mainItemsData ->
     Seed.insertMain w item = Seed.Inserted (Some (ids item))
     /\ ids item <> "") ->
  List.map Seed.main_item_id (fst (Seed.seedDatabase w))
  = List.map ids
      ["Toilets and Ablution Areas"; "Toilets and Ablution Areas";
       "Air Conditioning and Ventilation"; "Air Conditioning and Ventilation";
       "Electricity and Lighting";
       "Furniture and Carpets"; "Furniture and Carpets"]
  /\ List.map Seed.name (fst (Seed.seedDatabase w))
     = List.map Seed.name Seed.subItemsData
  /\ snd (Seed.seedDatabase w) = negb (Seed.subInsertRejects w).
Proof.
  intros Hsub Hmain Hids. unfold Seed.seedDatabase. rewrite Hsub, Hmain.
  destruct (Hids "Toilets and Ablution Areas") as [H1 T1]; [cbn; auto |].
  destruct (Hids "Air Conditioning and Ventilation") as [H2 T2]; [cbn; auto |].
  destruct (Hids "Electricity and Lighting") as [H3 T3]; [cbn; auto |].
  destruct (Hids "Furniture and Carpets") as [H4 T4]; [cbn; auto 6 |].
  apply truthy_string_iff in T1, T2, T3, T4.
  cbn [Seed.insertMainItems Seed.mainItemsData Seed.tempMainIds].
  rewrite H1, T1. cbn [JS.truthy_string String.eqb Ascii.eqb Bool.eqb negb Seed.set].
  rewrite H2, T2. cbn [JS.truthy_string String.eqb Ascii.eqb Bool.eqb negb Seed.set].
  rewrite H3, T3. cbn [JS.truthy_string String.eqb Ascii.eqb Bool.eqb negb Seed.set].
  rewrite H4, T4. cbn [JS.truthy_string String.eqb Ascii.eqb Bool.eqb negb Seed.set].
  cbn [fst snd List.map Seed.subItemsData Seed.resolve Seed.main_item_id Seed.name
       Seed.get String.eqb Ascii.eqb Bool.eqb].
  rewrite T1, T2, T3, T4. repeat split.
Qed.

Lemma seed_links_sub_items_witness :
  List.map Seed.main_item_id (fst (Seed.seedDatabase seed_world))
  = List.map (fun item => "id-" ++ item)
      ["Toilets and Ablution Areas"; "Toilets and Ablution Areas";
       "Air Conditioning and Ventilation"; "Air Conditioning and Ventilation";
       "Electricity and Lighting";
       "Furniture and Carpets"; "Furniture and Carpets"].
Proof.
  apply (seed_links_sub_items seed_world (fun item => "id-" ++ item));
    [reflexivity | reflexivity |].
  intros item Hin. split; [reflexivity | discriminate].
Defined.

(** One insert that returns no row shifts the later main items: the sub items
    written for the second main item go to the third, those for the third to
    the fourth, and those for the fourth keep the placeholder [a4]. *)
Example seed_shifted :
  List.map Seed.main_item_id (fst (Seed.seedDatabase seed_world_without_second))
  = ["id-Toilets and Ablution Areas"; "id-Toilets and Ablution Areas";
     "id-Electricity and Lighting"; "id-Electricity and Lighting";
     "id-Furniture and Carpets"; "a4"; "a4"]
  /\ snd (Seed.seedDatabase seed_world_without_second) = true.
Proof. split; reflexivity. Qed.

(** ** The issue an edit-save writes under *)

Lemma step_keeps_target (p : Page) (e : Event) :
  opensOrResets e = false ->
  issueDialogMode (step p e) = issueDialogMode p
  /\ editingIssueId (step p e) = editingIssueId p.
Proof.
  intros He. destruct (step_cells p e) as (_ & -> & -> & _).
  destruct e as [l| |issue| |v|c|v|v|x|x|i v|i x|i x|s url|k result|];
    try discriminate; try (split; reflexivity).
  - destruct s; split; reflexivity.
  - cbn [handle]. unfold settleUpload.
    destruct (awaiting p !! k) as [[s url]|]; [| split; reflexivity].
    destruct s, result; split; reflexivity.
Qed.

Lemma run_keeps_target (events : list Event) :
  forall p : Page,
    forallb (fun e => negb (opensOrResets e)) events = true ->
    issueDialogMode (run p events) = issueDialogMode p
    /\ editingIssueId (run p events) = editingIssueId p.
Proof.
  induction events as [|e events IH]; intros p Hquiet; [split; reflexivity |].
  cbn in Hquiet. apply andb_true_iff in Hquiet as [He Hquiet].
  apply negb_true_iff in He.
  destruct (step_keeps_target p e He) as [Hmode Hid].
  destruct (IH (step p e) Hquiet) as [Hmode' Hid'].
  change (run p (e :: events)) with (run (step p e) events).
  rewrite Hmode', Hid'. auto.
Qed.

(** While the dialog that an edit button opened is in use (no other opening
    and no reset since), the page is in edit mode for the issue of that
    button, whatever happened before: a save that gets past the upload and
    validation checks updates that issue, provided its identifier is not
    empty. After the add button the page is in create mode with no edited
    issue. *)
Theorem save_targets_opened_issue (before since : list Event) (issue : Issue.t) :
  forallb (fun e => negb (opensOrResets e)) since = true ->
  (let p := run initialPage (before ++ EditIssueClicked issue :: since)%list in
   issueDialogMode p = edit
   /\ editingIssueId p = Some (Issue.id issue)
   /\ (Issue.id issue <> "" ->
       forall reportId o st,
         pendingUploads p = 0%Z ->
         validateIssue (currentIssue p) = true ->
         handleSaveIssue false (Some reportId) o p st
         = saveEdited o (subItems p) reportId (Issue.id issue) (currentIssue p) st))
  /\ (let p := run initialPage (before ++ AddIssueClicked :: since)%list in
      issueDialogMode p = create /\ editingIssueId p = None).
Proof.
  intros Hquiet. cbv zeta.
  assert (Hsplit : forall e,
             run initialPage (before ++ e :: since)%list
             = run (step (run initialPage before) e) since).
  { intros e. unfold run. rewrite fold_left_app. reflexivity. }
  rewrite !Hsplit.
  set (p0 := run initialPage before).
  destruct (run_keeps_target since (step p0 (EditIssueClicked issue)) Hquiet)
    as [Hmode Hid].
  destruct (run_keeps_target since (step p0 AddIssueClicked) Hquiet)
    as [Hmode' Hid'].
  change (issueDialogMode (step p0 (EditIssueClicked issue))) with edit in Hmode.
  change (editingIssueId (step p0 (EditIssueClicked issue)))
    with (Some (Issue.id issue)) in Hid.
  change (issueDialogMode (step p0 AddIssueClicked)) with create in Hmode'.
  change (editingIssueId (step p0 AddIssueClicked)) with (@None string) in Hid'.
  split; [| split; assumption].
  split; [exact Hmode |]. split; [exact Hid |].
  intros Hne reportId o st Hpending Hvalid.
  unfold handleSaveIssue. rewrite Hpending, Hmode, Hid. cbn [Z.ltb Z.compare].
  unfold validateIssue in Hvalid.
  destruct (validate_run _) as [a|]; [discriminate |].
  apply truthy_string_iff in Hne. rewrite Hne. reflexivity.
Qed.

Lemma save_targets_opened_issue_witness :
  let p := run initialPage
             [AddIssueClicked; EditIssueClicked persisted_single;
              NotesTyped "cracked"; FileChosen (Case1Photo 0) "blob:a"] in
  issueDialogMode p = edit
  /\ editingIssueId p = Some (Issue.id persisted_single).
Proof.
  cbv zeta.
  pose proof (save_targets_opened_issue [AddIssueClicked]
                [NotesTyped "cracked"; FileChosen (Case1Photo 0) "blob:a"]
                persisted_single eq_refl) as H.
  cbv zeta in H. destruct H as [(Hmode & Hid & _) _]. split; assumption.
Defined.

(** The reset after a save leaves the mode as it was: edit mode without an
    edited issue, in which a save would write nothing and end as saved. The
    two buttons that open the dialog leave that state. *)
Example reset_keeps_edit_mode :
  let p := run initialPage [EditIssueClicked persisted_single; FormReset] in
  issueDialogMode p = edit /\ editingIssueId p = None.
Proof. split; reflexivity. Qed.

(** ** The canvas of [compressImage] *)

(** The order of binary64 values, from its specification. *)
Ltac cmp_cases :=
  repeat match goal with
  | H : context [Z.compare ?a ?b] |- _ =>
      destruct (Z.compare_spec a b); try subst
  | |- context [Z.compare ?a ?b] =>
      destruct (Z.compare_spec a b); try subst
  | H : context [Pos.compare_cont Eq ?a ?b] |- _ =>
      change (Pos.compare_cont Eq a b) with (Pos.compare a b) in *;
      destruct (Pos.compare_spec a b); try subst
  | |- context [Pos.compare_cont Eq ?a ?b] =>
      change (Pos.compare_cont Eq a b) with (Pos.compare a b) in *;
      destruct (Pos.compare_spec a b); try subst
  end.

Lemma SFcompare_lt_trans (x y z : spec_float) :
  SFcompare x y = Some Lt ->
  (SFcompare y z = Some Lt \/ SFcompare y z = Some Eq) ->
  SFcompare x z = Some Lt.
Proof.
  destruct x as [sx|sx| |sx mx ex], y as [sy|sy| |sy my ey],
           z as [sz|sz| |sz mz ez];
    try destruct sx; try destruct sy; try destruct sz; cbn;
    intros Hxy [Hyz|Hyz]; try discriminate; try reflexivity;
    revert Hxy Hyz; cmp_cases; cbn; intros; try discriminate; try reflexivity;
    try lia.
Qed.

Lemma SFcompare_total (x y : spec_float) :
  SFcompare x x <> None -> SFcompare y y <> None ->
  SFcompare y x <> Some Lt ->
  SFcompare x y = Some Lt \/ SFcompare x y = Some Eq.
Proof.
  destruct x as [sx|sx| |sx mx ex], y as [sy|sy| |sy my ey];
    try destruct sx; try destruct sy; cbn;
    intros Hx Hy Hyx; try congruence; auto;
    revert Hyx; cmp_cases; cbn; intros; try congruence; auto; try lia.
Qed.

Lemma float_ltb_compare (a b : float) :
  (a <? b)%float = true <-> SFcompare (Prim2SF a) (Prim2SF b) = Some Lt.
Proof.
  rewrite FloatAxioms.ltb_spec. unfold SFltb.
  destruct (SFcompare _ _) as [[| |]|]; split; congruence.
Qed.

Lemma float_leb_compare (a b : float) :
  (a <=? b)%float = true <->
  SFcompare (Prim2SF a) (Prim2SF b) = Some Lt
  \/ SFcompare (Prim2SF a) (Prim2SF b) = Some Eq.
Proof.
  rewrite FloatAxioms.leb_spec. unfold SFleb.
  destruct (SFcompare _ _) as [[| |]|]; split; try tauto; try congruence;
    intros [H|H]; congruence.
Qed.

Lemma float_not_nan_compare (a : float) :
  PrimFloat.is_nan a = false -> SFcompare (Prim2SF a) (Prim2SF a) <> None.
Proof.
  unfold PrimFloat.is_nan. rewrite FloatAxioms.eqb_spec. unfold SFeqb.
  destruct (SFcompare _ _); [discriminate | intros H; discriminate H].
Qed.

Lemma float_ltb_trans (a b c : float) :
  (a <? b)%float = true -> (b <? c)%float = true -> (a <? c)%float = true.
Proof.
  rewrite !float_ltb_compare. intros Hab Hbc.
  apply (SFcompare_lt_trans _ _ _ Hab). left. exact Hbc.
Qed.

Lemma float_ltb_leb_trans (a b c : float) :
  (a <? b)%float = true -> (b <=? c)%float = true -> (a <? c)%float = true.
Proof.
  rewrite !float_ltb_compare, float_leb_compare. intros Hab Hbc.
  apply (SFcompare_lt_trans _ _ _ Hab). exact Hbc.
Qed.

Lemma float_leb_total (a b : float) :
  PrimFloat.is_nan a = false -> PrimFloat.is_nan b = false ->
  (b <? a)%float = false -> (a <=? b)%float = true.
Proof.
  intros Ha Hb Hba. apply float_leb_compare.
  apply SFcompare_total; try (apply float_not_nan_compare; assumption).
  intros H. apply float_ltb_compare in H. congruence.
Qed.

(** For an image whose width and height are numbers (not NaN): when neither
    edge is above [maxDimension] the canvas keeps the size of the image;
    otherwise the longer edge, the height when both are equal, becomes exactly
    [maxDimension] and the other edge is scaled by the same ratio. No image
    with an edge above the bound goes through unscaled. *)
Theorem fit_longer_edge (width height maxDimension : JS.number) :
  PrimFloat.is_nan width = false ->
  PrimFloat.is_nan height = false ->
  fit width height maxDimension
  = if (maxDimension <? width)%float || (maxDimension <? height)%float
    then if (height <? width)%float
         then (maxDimension, (height * maxDimension / width)%float)
         else ((width * maxDimension / height)%float, maxDimension)
    else (width, height).
Proof.
  intros Hw Hh. unfold fit.
  destruct (height <? width)%float eqn:Hhw.
  - destruct (maxDimension <? width)%float eqn:Hmw; cbn [andb orb];
      [reflexivity |].
    destruct (maxDimension <? height)%float eqn:Hmh.
    + rewrite (float_ltb_trans _ _ _ Hmh Hhw) in Hmw. discriminate.
    + rewrite andb_false_r. reflexivity.
  - cbn [andb]. rewrite (float_leb_total width height Hw Hh Hhw). cbn [andb].
    destruct (maxDimension <? height)%float eqn:Hmh;
      [rewrite orb_true_r; reflexivity |].
    destruct (maxDimension <? width)%float eqn:Hmw; [| reflexivity].
    rewrite (float_ltb_leb_trans _ _ _ Hmw (float_leb_total width height Hw Hh Hhw)) in Hmh.
    discriminate.
Qed.

Lemma fit_longer_edge_witness :
  fit 4000%float 3000%float 1400%float = (1400%float, 1050%float).
Proof.
  apply (fit_longer_edge 4000%float 3000%float 1400%float); reflexivity.
Defined.

(** The scaled edge is the binary64 quotient, which need not be a whole
    number. *)
Example fit_not_whole :
  fit 4000%float 2999%float 1400%float = (1400%float, 1049.65%float).
Proof. reflexivity. Qed.
